(** * Subtitle corpus tools: deduplicate.py, clean_subs.py, utensils.py

    A shallow embedding of the three Python modules and the properties
    stated about them.

    Conventions.  A Python [str] is a list of Unicode code points, a
    [bytes] value a list of bytes.  Code that touches files, archives, the
    console, the log, the clock or the random generator runs in a small
    state-and-exception monad over a [World].  The parts of the Python
    runtime that cannot be written out here (the Unicode character tables
    above ASCII, the iteration order of a hashed set, the XML parser of
    lxml) are interfaces whose instance is a parameter of the definitions
    that use them. *)

From Stdlib Require Import String Ascii NArith ZArith QArith.
From Stdlib Require Import DecimalString DecimalNat.
From stdpp Require Import gmap list.

Local Open Scope N_scope.
Local Open Scope nat_scope.
Local Open Scope list_scope.

(** ** Strings *)

Abbreviation char := N (only parsing).
Abbreviation str := (list N) (only parsing).
Abbreviation bytes := (list Byte.byte) (only parsing).

(** An ASCII literal as a [str]. *)
Definition u (s : string) : str :=
  map N_of_ascii (list_ascii_of_string s).

(** The line feed as a literal, for use inside [u]. *)
Definition nl : string := String (ascii_of_nat 10) EmptyString.

Definition NL : char := 10%N.
Definition CR : char := 13%N.

(** The Unicode character database of the interpreter, for the code points
    that are not ASCII. *)
Class Unicode := {
  uc_alnum : char -> bool;
  uc_space : char -> bool;
  uc_decimal : char -> option Z;
  (* the en dash and the em dash are punctuation *)
  uc_dashes : forall c, c = 8211%N \/ c = 8212%N ->
                        uc_alnum c = false /\ uc_space c = false;
}.

(** The instance in which no character above ASCII is a letter, a digit or
    a space. *)
Definition ascii_only : Unicode :=
  {| uc_alnum := fun _ => false; uc_space := fun _ => false;
     uc_decimal := fun _ => None;
     uc_dashes := fun _ _ => conj eq_refl eq_refl |}.

Definition in_range (lo hi c : N) : bool := ((lo <=? c) && (c <=? hi))%N.

Definition is_ascii (c : char) : bool := (c <? 128)%N.

(** [str.isspace] on one character: tab, line feed, vertical tab, form
    feed, carriage return, the four separators 0x1c to 0x1f and the space. *)
Definition isspace `{Unicode} (c : char) : bool :=
  if is_ascii c then in_range 9 13 c || in_range 28 32 c else uc_space c.

(** [str.isalnum] on one character. *)
Definition isalnum `{Unicode} (c : char) : bool :=
  if is_ascii c
  then in_range 48 57 c || in_range 65 90 c || in_range 97 122 c
  else uc_alnum c.

(** [s.split(sep)] for a separator of one character. *)
Fixpoint split (sep : char) (s : str) : list str :=
  match s with
  | [] => [[]]
  | c :: s' =>
      if N.eqb c sep then [] :: split sep s'
      else match split sep s' with
           | [] => [[c]]
           | l :: ls => (c :: l) :: ls
           end
  end.

(** [sep.join(parts)]. *)
Fixpoint join (sep : str) (parts : list str) : str :=
  match parts with
  | [] => []
  | [p] => p
  | p :: ps => p ++ sep ++ join sep ps
  end.

Fixpoint startswith (s p : str) {struct p} : bool :=
  match p, s with
  | [], _ => true
  | _ :: _, [] => false
  | a :: p', b :: s' => N.eqb a b && startswith s' p'
  end.

Definition endswith (s p : str) : bool := startswith (rev s) (rev p).

(** [s.replace(old, new)], leftmost occurrences first, without overlap.
    [skip] counts the characters of a found occurrence still to be passed.
    For an empty [old] Python puts [new] around every character. *)
Fixpoint replace_from (old new : str) (skip : nat) (s : str) : str :=
  match s with
  | [] => []
  | c :: s' =>
      match skip with
      | S n => replace_from old new n s'
      | O =>
          if startswith s old
          then new ++ replace_from old new (length old - 1) s'
          else c :: replace_from old new 0 s'
      end
  end.

Definition replace (old new s : str) : str :=
  match old with
  | [] => new ++ concat (map (fun c => c :: new) s)
  | _ => replace_from old new 0 s
  end.

(** The lines a text file object yields when iterated: every line keeps
    its line feed, the last one has none when the text does not end in
    one. *)
Fixpoint iter_lines (s : str) : list str :=
  match s with
  | [] => []
  | c :: s' =>
      if N.eqb c NL then [c] :: iter_lines s'
      else match iter_lines s' with
           | [] => [[c]]
           | l :: ls => (c :: l) :: ls
           end
  end.

(** Universal newlines of text mode: what [read] hands to the program for
    a stored text has CR LF and a lone CR turned into LF. *)
Fixpoint translate_newlines (s : str) : str :=
  match s with
  | [] => []
  | c :: s' =>
      if N.eqb c CR
      then match s' with
           | c' :: _ => if N.eqb c' NL then translate_newlines s'
                        else NL :: translate_newlines s'
           | [] => [NL]
           end
      else c :: translate_newlines s'
  end.

(** [str(n)] for a natural number. *)
Definition str_of_nat (n : nat) : str :=
  u (NilZero.string_of_uint (Nat.to_uint n)).

Definition str_of_Z (z : Z) : str :=
  match z with
  | Zneg p => u "-" ++ str_of_nat (Pos.to_nat p)
  | _ => str_of_nat (Z.to_nat z)
  end.

(** An f-string field holding a value that may be [None]. *)
Definition fmt_opt (o : option str) : str :=
  match o with Some s => s | None => u "None" end.

(** ** The world a program runs in *)

Inductive exn :=
| FileNotFoundError (fname : str)
| StopIteration
| ValueError
| IndexError
| KeyError
| UnboundLocalError
| AttributeError
| TypeError
| XMLSyntaxError
| UnicodeDecodeError
| UnicodeEncodeError.

Inductive res (A : Type) :=
| Ok (a : A)
| Raise (e : exn).
Arguments Ok {A} a.
Arguments Raise {A} e.

Definition res_map {A B} (f : A -> B) (r : res A) : res B :=
  match r with
  | Ok a => Ok (f a)
  | Raise e => Raise e
  end.

(** What [print] puts on the console.  The progress line shows
    [float(i) / total * 100] with two decimals; the event keeps [i] and
    [total]. *)
Inductive console_event :=
| Progress (i total : Z)
| EmptyLine.

(** Records of [logging.info].  The line of [log_timer] shows the wrapped
    function and the seconds it ran; the record keeps the seconds. *)
Inductive log_record :=
| Info (msg : str)
| Ran (seconds : Q).

Record World := mkWorld {
  files : gmap str str;                  (* text files, by name *)
  zips : gmap str (list (str * bytes));  (* archives: entries in listing order *)
  rng : list nat;                        (* draws the generator will hand out *)
  clock : list Q;                        (* readings [time()] will return *)
  wall : list str;                       (* stamps [strftime(.., localtime())] will return *)
  console : list console_event;          (* what was printed *)
  log : list log_record;                 (* what was logged *)
  opened : list (str * str);             (* archive entries opened for reading, in order *)
}.

Definition set_files (f : gmap str str) (w : World) : World :=
  mkWorld f (zips w) (rng w) (clock w) (wall w) (console w) (log w) (opened w).
Definition set_zips (z : gmap str (list (str * bytes))) (w : World) : World :=
  mkWorld (files w) z (rng w) (clock w) (wall w) (console w) (log w) (opened w).
Definition set_rng (g : list nat) (w : World) : World :=
  mkWorld (files w) (zips w) g (clock w) (wall w) (console w) (log w) (opened w).
Definition set_clock (c : list Q) (w : World) : World :=
  mkWorld (files w) (zips w) (rng w) c (wall w) (console w) (log w) (opened w).
Definition set_wall (c : list str) (w : World) : World :=
  mkWorld (files w) (zips w) (rng w) (clock w) c (console w) (log w) (opened w).
Definition set_console (c : list console_event) (w : World) : World :=
  mkWorld (files w) (zips w) (rng w) (clock w) (wall w) c (log w) (opened w).
Definition set_log (l : list log_record) (w : World) : World :=
  mkWorld (files w) (zips w) (rng w) (clock w) (wall w) (console w) l (opened w).
Definition set_opened (o : list (str * str)) (w : World) : World :=
  mkWorld (files w) (zips w) (rng w) (clock w) (wall w) (console w) (log w) o.

(** A computation: from a world to a result or an exception, and the world
    it leaves. *)
Definition M (A : Type) : Type := World -> res A * World.

Definition ret {A} (a : A) : M A := fun w => (Ok a, w).
Definition raise {A} (e : exn) : M A := fun w => (Raise e, w).
Definition lift {A} (r : res A) : M A := fun w => (r, w).
Definition bind {A B} (m : M A) (k : A -> M B) : M B :=
  fun w => match m w with
           | (Ok a, w') => k a w'
           | (Raise e, w') => (Raise e, w')
           end.

Declare Scope py_scope.
Delimit Scope py_scope with py.
Notation "x <- m ;; k" := (bind m (fun x => k))
  (at level 100, m at next level, right associativity) : py_scope.
Notation "m ;; k" := (bind m (fun _ => k))
  (at level 100, right associativity) : py_scope.
Local Open Scope py_scope.

(** [for x in l: body x]. *)
Fixpoint for_each {A} (l : list A) (body : A -> M unit) : M unit :=
  match l with
  | [] => ret tt
  | x :: l' => body x ;; for_each l' body
  end.

(** A loop that carries a local variable from one round to the next. *)
Fixpoint for_fold {A S} (l : list A) (body : S -> A -> M S) (s : S) : M S :=
  match l with
  | [] => ret s
  | x :: l' => s' <- body s x ;; for_fold l' body s'
  end.

(** [range(n)] and [range(a, b)]. *)
Definition range (n : Z) : list Z := map Z.of_nat (seq 0 (Z.to_nat n)).
Definition in_range2 (x a b : Z) : bool := ((a <=? x) && (x <? b))%Z.

(** *** Text files *)

(** [open(fname, 'r')]: the file has to exist. *)
Definition open_r (fname : str) : M unit :=
  fun w => match files w !! fname with
           | Some _ => (Ok tt, w)
           | None => (Raise (FileNotFoundError fname), w)
           end.

(** [open(fname, 'w')]: the file is created, or emptied. *)
Definition open_w (fname : str) : M unit :=
  fun w => (Ok tt, set_files (<[fname := []]> (files w)) w).

(** [fhandle.read()] from the start of the file. *)
Definition fread (fname : str) : M str :=
  fun w => (Ok (translate_newlines (default [] (files w !! fname))), w).

(** [fhandle.write(data)]: the text goes to the end of the file.  Writes
    reach the file at once; Python may hold them back until the handle is
    closed, which shows only when a file is read while it is open for
    writing. *)
Definition fwrite (fname : str) (data : str) : M unit :=
  fun w => (Ok tt,
            set_files (<[fname := default [] (files w !! fname) ++ data]> (files w)) w).

(** *** Console, log, clock *)

Definition print (e : console_event) : M unit :=
  fun w => (Ok tt, set_console (console w ++ [e]) w).

Definition logging_info (r : log_record) : M unit :=
  fun w => (Ok tt, set_log (log w ++ [r]) w).

(** [time()]. *)
Definition time : M Q :=
  fun w => (Ok (hd 0%Q (clock w)), set_clock (tl (clock w)) w).

(** [strftime('%Y/%m/%d %H:%M:%S', localtime())]. *)
Definition strftime_now : M str :=
  fun w => (Ok (hd [] (wall w)), set_wall (tl (wall w)) w).

(** *** Random numbers and sets *)

(** [random._randbelow(n)]: a number below [n]. *)
Definition randbelow (n : nat) : M nat :=
  fun w => (Ok (hd 0 (rng w) mod n), set_rng (tl (rng w)) w).

(** [x[i], x[j] = x[j], x[i]]. *)
Definition swap {A} (i j : nat) (x : list A) : list A :=
  match x !! i, x !! j with
  | Some a, Some b => <[j := a]> (<[i := b]> x)
  | _, _ => x
  end.

(** [random.shuffle(x)]:
    [for i in reversed(range(1, len(x))): j = randbelow(i + 1); swap]. *)
Fixpoint shuffle_from {A} (i : nat) (x : list A) : M (list A) :=
  match i with
  | O => ret x
  | S i' => j <- randbelow (S i) ;; shuffle_from i' (swap i j x)
  end.

Definition shuffle {A} (x : list A) : M (list A) :=
  shuffle_from (length x - 1) x.

(** The order in which a set hands out its elements depends on the hash
    seed of the process; all that is known is that every element comes
    once. *)
Class SetOrder := {
  set_iter : gset str -> list str;
  set_iter_perm : forall s, set_iter s ≡ₚ elements s;
}.

(** The order of [elements]: one order a set can have. *)
Definition elements_order : SetOrder :=
  {| set_iter := elements; set_iter_perm := fun s => reflexivity _ |}.

(** ** utensils.py *)

Record timing := mkTiming { start : str; finish : str; duration : Q }.

(** [timer(func)]: the result of [func] with the times of the call. *)
Definition timer {A B} (func : A -> M B) (args : A) : M (B * timing) :=
  t_start <- strftime_now ;;
  t0 <- time ;;
  r <- func args ;;
  t1 <- time ;;
  t_finish <- strftime_now ;;
  ret (r, mkTiming t_start t_finish (t1 - t0)%Q).

(** [log_timer(func)]: the result of [func]; the seconds go to the log. *)
Definition log_timer {A B} (func : A -> M B) (args : A) : M B :=
  t0 <- time ;;
  r <- func args ;;
  t1 <- time ;;
  let t := (t1 - t0)%Q in
  logging_info (Ran t) ;;
  ret r.

(** ** deduplicate.py *)

Section Deduplicate.
Context `{SetOrder}.

Definition get_lines (fhandle : str) : M (gset str * Z * Z) :=
  content <- fread fhandle ;;
  let lines := split NL content in
  let n_lines := Z.of_nat (length lines) in
  let lines : gset str := list_to_set lines in
  let n_duplicates := (n_lines - Z.of_nat (size lines))%Z in
  ret (lines, n_lines, n_duplicates).

Definition dedup_file_body (args : str * str) : M (Z * Z) :=
  let '(in_fname, out_fname) := args in
  open_r in_fname ;;
  open_w out_fname ;;
  r <- get_lines in_fname ;;
  let '(lines, n_lines, n_duplicates) := r in
  let lines := set_iter lines in
  lines <- shuffle lines ;;
  fwrite out_fname (join [NL] lines) ;;
  logging_info (Info (u "deduplicated " ++ in_fname ++ u ", removed "
                      ++ str_of_Z n_duplicates ++ u " duplicates out of "
                      ++ str_of_Z n_lines ++ u " lines")) ;;
  ret (n_lines, n_duplicates).

Definition dedup_file (in_fname out_fname : str) : M (Z * Z) :=
  log_timer dedup_file_body (in_fname, out_fname).

Definition temp_name (i : Z) : str := u "temp" ++ str_of_Z i ++ u ".txt".

(** [next(handle_iter)] for [handle_iter = itertools.cycle(filehandles)]:
    [pos] is the place of the next handle in the saved list; on an empty
    list the iterator is exhausted at once. *)
Definition cycle_next {A} (saved : list A) (pos : nat) : M (A * nat) :=
  match saved !! pos with
  | Some h => ret (h, (S pos) mod (length saved))
  | None => raise StopIteration
  end.

(** The loops of [big_dedup_file], body by body.  Opening a temporary
    file: [filehandles.append(open(f'temp{i}.txt', 'w'))]. *)
Definition open_temp (filehandles : list str) (i : Z) : M (list str) :=
  open_w (temp_name i) ;;
  ret (filehandles ++ [temp_name i]).

(** [next(handle_iter).write(line)]. *)
Definition write_next (filehandles : list str) (pos : nat) (line : str) : M nat :=
  hp <- cycle_next filehandles pos ;;
  fwrite (fst hp) line ;;
  ret (snd hp).

(** One temporary file is deduplicated on its own, shuffled and written
    to the output. *)
Definition drain_bin (out_fname : str) (i : Z) : M unit :=
  open_r (temp_name i) ;;
  content <- fread (temp_name i) ;;
  let lines := set_iter (list_to_set (split NL content)) in
  lines <- shuffle lines ;;
  fwrite out_fname (join [NL] lines).

(** The first half of [big_dedup_file]: the lines go to the temporary
    files in turn.  Returns the handles. *)
Definition fill_bins (in_fname : str) (n_bins : Z) : M (list str) :=
  filehandles <- for_fold (range n_bins) open_temp [] ;;
  open_r in_fname ;;
  content <- fread in_fname ;;
  for_fold (iter_lines content) (write_next filehandles) 0 ;;
  ret filehandles.

(** The second half: the temporary files are drained in order. *)
Definition drain_bins (out_fname : str) (n_bins : Z) : M unit :=
  open_w out_fname ;;
  for_each (range n_bins) (drain_bin out_fname).

Definition big_dedup_file_body (args : str * str * Z) : M unit :=
  let '(in_fname, out_fname, n_bins) := args in
  fill_bins in_fname n_bins ;;
  drain_bins out_fname n_bins ;;
  logging_info (Info (u "pseudodeduplicated " ++ in_fname ++ u ", " ++ out_fname
                      ++ u " is also pseudorandomized")).

Definition big_dedup_file (in_fname out_fname : str) (n_bins : Z) : M unit :=
  log_timer big_dedup_file_body (in_fname, out_fname, n_bins).

End Deduplicate.

(** The lines of [lines] whose index [i], counted from [j], has
    [i mod n = k]: what bucket [k] of [n] is to receive. *)
Definition bucket_lines_from (n k j : nat) (lines : list str) : list str :=
  map snd (filter (fun il => fst il mod n = k) (zip (seq j (length lines)) lines)).

Definition bucket_lines (n k : nat) (lines : list str) : list str :=
  bucket_lines_from n k 0 lines.

(** The files after the temporary files for the indices [idx] have been
    opened for writing. *)
Definition create_temps (idx : list Z) (fs : gmap str str) : gmap str str :=
  foldl (fun fs i => <[temp_name i := []]> fs) fs idx.

(** The files after the lines, the first of index [j], have been written
    to the [n] temporary files in turn. *)
Fixpoint deal (n j : nat) (lines : list str) (fs : gmap str str) : gmap str str :=
  match lines with
  | [] => fs
  | l :: ls =>
      let h := temp_name (Z.of_nat (j mod n)) in
      deal n (S j) ls (<[h := default [] (fs !! h) ++ l]> fs)
  end.

(** ** What clean_subs.py takes from the Python library *)

(** *** UTF-8 *)

Definition byte_in (lo hi : N) (b : Byte.byte) : bool := in_range lo hi (Byte.to_N b).

(** The low six bits of a continuation byte. *)
Definition cont (b : Byte.byte) : N := (Byte.to_N b - 128)%N.

(** [data.decode('utf-8')]: the strict decoder; [None] stands for
    [UnicodeDecodeError]. *)
Fixpoint decode_utf8 (data : bytes) : option str :=
  match data with
  | [] => Some []
  | b0 :: rest =>
      let n0 := Byte.to_N b0 in
      if in_range 0 127 n0 then cons n0 <$> decode_utf8 rest
      else if in_range 194 223 n0 then
        match rest with
        | b1 :: rest' =>
            if byte_in 128 191 b1
            then cons ((n0 - 192) * 64 + cont b1)%N <$> decode_utf8 rest'
            else None
        | _ => None
        end
      else if in_range 224 239 n0 then
        match rest with
        | b1 :: b2 :: rest' =>
            let lo := if N.eqb n0 224 then 160%N else 128%N in
            let hi := if N.eqb n0 237 then 159%N else 191%N in
            if byte_in lo hi b1 && byte_in 128 191 b2
            then cons (((n0 - 224) * 64 + cont b1) * 64 + cont b2)%N
                   <$> decode_utf8 rest'
            else None
        | _ => None
        end
      else if in_range 240 244 n0 then
        match rest with
        | b1 :: b2 :: b3 :: rest' =>
            let lo := if N.eqb n0 240 then 144%N else 128%N in
            let hi := if N.eqb n0 244 then 143%N else 191%N in
            if byte_in lo hi b1 && byte_in 128 191 b2 && byte_in 128 191 b3
            then cons ((((n0 - 240) * 64 + cont b1) * 64 + cont b2) * 64 + cont b3)%N
                   <$> decode_utf8 rest'
            else None
        | _ => None
        end
      else None
  end.

Definition byte_of_N (n : N) : Byte.byte := default Byte.x00 (Byte.of_N n).

(** [s.encode('utf-8')]; [None] stands for [UnicodeEncodeError], raised on
    a surrogate. *)
Fixpoint encode_utf8 (s : str) : option bytes :=
  match s with
  | [] => Some []
  | c :: s' =>
      let enc : option bytes :=
        if (c <? 128)%N then Some [byte_of_N c]
        else if (c <? 2048)%N then
          Some [byte_of_N (192 + c / 64); byte_of_N (128 + c mod 64)]
        else if in_range 55296 57343 c then None
        else if (c <? 65536)%N then
          Some [byte_of_N (224 + c / 4096); byte_of_N (128 + (c / 64) mod 64);
                byte_of_N (128 + c mod 64)]
        else if (c <? 1114112)%N then
          Some [byte_of_N (240 + c / 262144); byte_of_N (128 + (c / 4096) mod 64);
                byte_of_N (128 + (c / 64) mod 64); byte_of_N (128 + c mod 64)]
        else None in
      match enc, encode_utf8 s' with
      | Some b, Some bs => Some (b ++ bs)
      | _, _ => None
      end
  end.

(** *** [int(s)] *)

Section PyInt.
Context `{Unicode}.

(** The first pass of [int]: a space above ASCII becomes a space, a
    decimal digit above ASCII its ASCII digit; any other character from
    0x7f on ends the number badly. *)
Fixpoint to_ascii_number (s : str) : option str :=
  match s with
  | [] => Some []
  | c :: s' =>
      if (c <? 127)%N then cons c <$> to_ascii_number s'
      else if N.eqb c 127 then None
      else if uc_space c then cons 32%N <$> to_ascii_number s'
      else match uc_decimal c with
           | Some d => cons (48 + Z.to_N d)%N <$> to_ascii_number s'
           | None => None
           end
  end.

(** The spaces [int] skips around the number. *)
Definition c_isspace (c : char) : bool := in_range 9 13 c || N.eqb c 32.

Definition is_digit (c : char) : bool := in_range 48 57 c.

(** Digits with single underscores between them, most significant first;
    [acc] is the value so far and [prev_digit] tells whether the
    character before was a digit. *)
Fixpoint digits_value (acc : Z) (prev_digit : bool) (s : str) : option Z :=
  match s with
  | [] => if prev_digit then Some acc else None
  | c :: s' =>
      if is_digit c then digits_value (acc * 10 + Z.of_N (c - 48)) true s'
      else if N.eqb c 95 && prev_digit then digits_value acc false s'
      else None
  end.

Fixpoint lstrip (p : char -> bool) (s : str) : str :=
  match s with
  | c :: s' => if p c then lstrip p s' else s
  | [] => []
  end.

Definition rstrip (p : char -> bool) (s : str) : str := rev (lstrip p (rev s)).

(** The limit the interpreter sets on the digits of a decimal number
    ([sys.int_max_str_digits], 4300 unless the user changes it): [int]
    refuses a number with more digits, leading zeros counted and
    underscores not. *)
Definition int_max_str_digits : nat := 4300.

Definition digits_limited (ds : str) : option Z :=
  if Nat.ltb int_max_str_digits (length (List.filter is_digit ds)) then None
  else digits_value 0 false ds.

(** [int(s)] in base ten; [None] stands for [ValueError]. *)
Definition py_int (s : str) : option Z :=
  match to_ascii_number s with
  | None => None
  | Some a =>
      match rstrip c_isspace (lstrip c_isspace a) with
      | 43%N :: ds => digits_limited ds
      | 45%N :: ds => Z.opp <$> digits_limited ds
      | ds => digits_limited ds
      end
  end.

End PyInt.

(** *** Paths and sorting *)

(** [os.path.join(a, b)] of posixpath. *)
Definition os_path_join (a b : str) : str :=
  if startswith b (u "/") then b
  else if bool_decide (a = []) || endswith a (u "/") then a ++ b
  else a ++ u "/" ++ b.

(** [s1 <= s2] on strings: code point by code point. *)
Fixpoint str_le (s1 s2 : str) : bool :=
  match s1, s2 with
  | [], _ => true
  | _ :: _, [] => false
  | a :: s1', b :: s2' => (a <? b)%N || (N.eqb a b && str_le s1' s2')
  end.

Fixpoint insert_sorted (x : str) (l : list str) : list str :=
  match l with
  | [] => [x]
  | y :: l' => if str_le x y then x :: l else y :: insert_sorted x l'
  end.

(** [sorted(l)] for a list of strings. *)
Definition sorted (l : list str) : list str := foldr insert_sorted [] l.

(** *** Archives *)

(** [zipfile.ZipFile(fname, 'r')]. *)
Definition zip_open_r (fname : str) : M unit :=
  fun w => match zips w !! fname with
           | Some _ => (Ok tt, w)
           | None => (Raise (FileNotFoundError fname), w)
           end.

(** [zipfile.ZipFile(fname, 'a')]: a missing archive is created. *)
Definition zip_open_a (fname : str) : M unit :=
  fun w => (Ok tt, set_zips (<[fname := default [] (zips w !! fname)]> (zips w)) w).

(** [archive.namelist()]. *)
Definition namelist (fname : str) : M (list str) :=
  fun w => (Ok (map fst (default [] (zips w !! fname))), w).

Fixpoint last_entry (name : str) (entries : list (str * bytes)) : option bytes :=
  match entries with
  | [] => None
  | (n, data) :: rest =>
      match last_entry name rest with
      | Some d => Some d
      | None => if bool_decide (n = name) then Some data else None
      end
  end.

(** [archive.open(name).read()]: of several entries of one name the last
    counts. *)
Definition zip_read (fname name : str) : M bytes :=
  fun w => match last_entry name (default [] (zips w !! fname)) with
           | Some data => (Ok data, set_opened (opened w ++ [(fname, name)]) w)
           | None => (Raise KeyError, w)
           end.

(** [archive.writestr(name, data)] with a [str]: it is stored as UTF-8. *)
Definition writestr (fname name data : str) : M unit :=
  fun w => match encode_utf8 data with
           | Some b => (Ok tt, set_zips (<[fname := default [] (zips w !! fname)
                                                    ++ [(name, b)]]> (zips w)) w)
           | None => (Raise UnicodeEncodeError, w)
           end.

(** *** Regular expressions *)

(** The part of the pattern language of [re] that [strip_punctuation]
    uses, with the reading [re.IGNORECASE] gives it on [str]. *)
Inductive set_item :=
| Chr (c : char)     (* a character *)
| Space.             (* \s *)

Inductive atom :=
| Lit (c : char)                           (* an ASCII letter, in either case *)
| Dot                                      (* . *)
| OneOf (items : list set_item)            (* [...] *)
| NoneOf (items : list set_item).          (* [^...] *)

Inductive regex :=
| Atom (a : atom)
| Rep (a : atom) (min : nat) (greedy : bool)   (* a*, a+, a{min,}; lazy with ? *)
| Eos                                          (* $ *)
| Seq (r1 r2 : regex)
| Alt (r1 r2 : regex)
| Group (n : nat) (r : regex).                 (* ( ... ), numbered *)

(** A replacement template: text and group references. *)
Inductive template_item :=
| Txt (s : str)
| Ref (n : nat).

Section Regex.
Context `{Unicode}.

(** Lower case of an ASCII letter. *)
Definition ascii_lower (c : char) : char :=
  if in_range 65 90 c then (c + 32)%N else c.

Definition item_matches (i : set_item) (c : char) : bool :=
  match i with
  | Chr c' => N.eqb c c'
  | Space => isspace c
  end.

Definition atom_matches (a : atom) (c : char) : bool :=
  match a with
  | Lit c' => N.eqb (ascii_lower c) (ascii_lower c')
  | Dot => negb (N.eqb c NL)
  | OneOf items => existsb (fun i => item_matches i c) items
  | NoneOf items => negb (existsb (fun i => item_matches i c) items)
  end.

Definition or_else {T} (a b : option T) : option T :=
  match a with Some x => Some x | None => b end.

(** A repeated atom, at least [min] times, then the rest of the pattern
    [k]: greedy tries one more first, lazy tries the rest first. *)
Fixpoint rep {T} (a : atom) (greedy : bool) (min : nat) (s : str)
    (k : str -> option T) : option T :=
  let more :=
    match s with
    | c :: s' => if atom_matches a c then rep a greedy (pred min) s' k else None
    | [] => None
    end in
  match min with
  | S _ => more
  | O => if greedy then or_else more (k s) else or_else (k s) more
  end.

(** The backtracking matcher: [r] at the start of [s], then the rest of
    the pattern [k] on what is left and the groups set so far. *)
Fixpoint rmatch {T} (r : regex) (s : str) (groups : gmap nat str)
    (k : str -> gmap nat str -> option T) : option T :=
  match r with
  | Atom a =>
      match s with
      | c :: s' => if atom_matches a c then k s' groups else None
      | [] => None
      end
  | Rep a min greedy => rep a greedy min s (fun s' => k s' groups)
  | Eos =>
      (* the end, or just before a line feed that ends the string *)
      if bool_decide (s = []) || bool_decide (s = [NL]) then k s groups else None
  | Seq r1 r2 => rmatch r1 s groups (fun s' groups' => rmatch r2 s' groups' k)
  | Alt r1 r2 => or_else (rmatch r1 s groups k) (rmatch r2 s groups k)
  | Group n r' =>
      rmatch r' s groups
        (fun s' groups' => k s' (<[n := take (length s - length s') s]> groups'))
  end.

(** A match of [r] at the start of [s]: its length and its groups.  With
    [must_advance] an empty match does not count. *)
Definition match_here (r : regex) (must_advance : bool) (s : str)
    : option (nat * gmap nat str) :=
  rmatch r s ∅
    (fun s' groups =>
       let len := length s - length s' in
       if must_advance && Nat.eqb len 0 then None else Some (len, groups)).

(** The text a match is replaced by; a group that took no part gives the
    empty string. *)
Definition expand (template : list template_item) (groups : gmap nat str) : str :=
  concat (map (fun t => match t with
                        | Txt s => s
                        | Ref n => default [] (groups !! n)
                        end) template).

(** [pattern.sub(template, s)]: matches are looked for from left to
    right, each from where the one before ended; after an empty match the
    next one at the same place has to be non-empty.  [skip] counts the
    characters of the match in hand that are still to be passed. *)
Fixpoint sub_from (r : regex) (template : list template_item) (skip : nat) (s : str)
    : str :=
  match s with
  | [] =>
      match match_here r false [] with
      | Some (_, groups) => expand template groups
      | None => []
      end
  | c :: s' =>
      match skip with
      | S n => sub_from r template n s'
      | O =>
          match match_here r false s with
          | Some (S n, groups) => expand template groups ++ sub_from r template n s'
          | Some (O, groups) =>
              expand template groups ++
              match match_here r true s with
              | Some (S n, groups') =>
                  expand template groups' ++ sub_from r template n s'
              | _ => c :: sub_from r template 0 s'
              end
          | None => c :: sub_from r template 0 s'
          end
      end
  end.

Definition sub (r : regex) (template : list template_item) (s : str) : str :=
  sub_from r template 0 s.

End Regex.

(** Helpers to write patterns down. *)
Definition ch (a : ascii) : char := N_of_ascii a.
Definition chrs (s : string) : list set_item := map Chr (u s).
Fixpoint seq_list (r : regex) (rs : list regex) : regex :=
  match rs with
  | [] => r
  | r' :: rs' => Seq r (seq_list r' rs')
  end.

(** *** lxml *)

(** An element of a parse tree.  A comment or a processing instruction has
    no tag name ([None]). *)
Inductive Element :=
| Elem (tag : option str) (attrib : gmap str str) (text : option str)
       (children : list Element) (tail : option str).

Definition tag (e : Element) : option str := let 'Elem t _ _ _ _ := e in t.
Definition attrib (e : Element) : gmap str str := let 'Elem _ a _ _ _ := e in a.
Definition text (e : Element) : option str := let 'Elem _ _ t _ _ := e in t.
Definition children (e : Element) : list Element := let 'Elem _ _ _ c _ := e in c.
Definition tail (e : Element) : option str := let 'Elem _ _ _ _ t := e in t.

(** [node.get(key)]. *)
Definition get (e : Element) (key : str) : option str := attrib e !! key.

(** [node.tag == name]. *)
Definition tag_is (e : Element) (name : str) : bool :=
  bool_decide (tag e = Some name).

(** [tree.iter()]: the tree itself, then its descendants, in document
    order. *)
Fixpoint iter (e : Element) : list Element :=
  e :: (fix iter_all (l : list Element) : list Element :=
          match l with
          | [] => []
          | c :: l' => iter c ++ iter_all l'
          end) (children e).

(** [etree.tostring(node, encoding=str, method='text')]: the text of the
    node and of its descendants, and the tail of the node. *)
Fixpoint tostring_text (e : Element) : str :=
  (match tag e with Some _ => default [] (text e) | None => [] end)
  ++ (fix all_text (l : list Element) : str :=
        match l with
        | [] => []
        | c :: l' => tostring_text c ++ all_text l'
        end) (children e)
  ++ default [] (tail e).

(** What is left to the library: the parser, and what the loop of
    [strip_txt], which removes elements from the tree it walks, leaves of
    the tree. *)
Class Lxml := {
  (* [etree.fromstring(text, xmlparser)]; a parser that recovers can hand
     back [None] *)
  fromstring : bytes -> res (option Element);
  (* [for node in tree.iter(): if node.tag == 'meta': tree.remove(node)] *)
  remove_meta : Element -> res Element;
}.

(** ** clean_subs.py *)

(** [stripped.append(x)] when [cond] holds. *)
Definition append_if (cond : bool) (x : str) (stripped : list str) : list str :=
  if cond then stripped ++ [x] else stripped.

Definition strip_upos (tree : Element) : str :=
  let stripped :=
    foldl (fun stripped node =>
             let stripped := append_if (tag_is node (u "s")) [NL] stripped in
             append_if (tag_is node (u "w"))
               (fmt_opt (text node) ++ u "_" ++ fmt_opt (get node (u "upos")) ++ u " ")
               stripped)
          [] (iter tree) in
  join [] stripped.

Definition strip_lemma (tree : Element) : str :=
  let stripped :=
    foldl (fun stripped node =>
             let stripped := append_if (tag_is node (u "s")) [NL] stripped in
             append_if (tag_is node (u "w"))
               (fmt_opt (get node (u "lemma")) ++ u "_"
                ++ fmt_opt (get node (u "upos")) ++ u " ")
               stripped)
          [] (iter tree) in
  join [] stripped.

Definition strip_txt `{Lxml} (tree : Element) : res str :=
  match remove_meta tree with
  | Ok tree' => Ok (tostring_text tree')
  | Raise e => Raise e
  end.

(** The timestamp of [strip_viz]:
    [value.replace(':', '').replace(',', '.')]. *)
Definition normalize_timestamp (value : str) : str :=
  replace (u ",") (u ".") (replace (u ":") [] value).

(** One round of the loop of [strip_viz].  A time element without a
    [value] makes [replace] fail on [None]. *)
Definition strip_viz_node (stripped : list str) (node : Element) : res (list str) :=
  if tag_is node (u "s") then
    match children node with
    | first :: _ =>
        if tag_is first (u "time") then
          match get first (u "value") with
          | Some value =>
              let timestamp := normalize_timestamp value in
              let txt := replace [NL] [] (tostring_text node) in
              Ok (stripped ++ [u "[" ++ timestamp ++ u "] " ++ txt])
          | None => Raise AttributeError
          end
        else Ok stripped
    | [] => Ok stripped
    end
  else Ok stripped.

Definition strip_viz (tree : Element) : res str :=
  match foldl (fun acc node =>
                 match acc with
                 | Ok stripped => strip_viz_node stripped node
                 | Raise e => Raise e
                 end) (Ok []) (iter tree) with
  | Ok stripped => Ok (join [NL] stripped)
  | Raise e => Raise e
  end.

(** [strip_xml]: [Ok None] is the [None] it returns for a format it does
    not know.  On a tree that is [None] the strippers fail. *)
Definition strip_xml `{Lxml} (text : bytes) (ioformat : str) : res (option str) :=
  match fromstring text with
  | Raise e => Raise e
  | Ok tree =>
      if bool_decide (ioformat = u "upos") then
        match tree with Some t => Ok (Some (strip_upos t)) | None => Raise AttributeError end
      else if bool_decide (ioformat = u "lemma") then
        match tree with Some t => Ok (Some (strip_lemma t)) | None => Raise AttributeError end
      else if bool_decide (ioformat = u "txt") then
        match tree with Some t => res_map Some (strip_txt t) | None => Raise AttributeError end
      else if bool_decide (ioformat = u "viz") then
        match tree with Some t => res_map Some (strip_viz t) | None => Raise AttributeError end
      else Ok None
  end.

(** The rewrites of [strip_punctuation], in the order of [regeces]. *)

(** [<.*?>] *)
Definition re_tags : regex :=
  seq_list (Atom (Lit (ch "<"))) [Rep Dot 0 false; Atom (Lit (ch ">"))].

(** [http.*?(?:[\s\n\]]|$)] *)
Definition re_links : regex :=
  seq_list (Atom (Lit (ch "h")))
    [Atom (Lit (ch "t")); Atom (Lit (ch "t")); Atom (Lit (ch "p"));
     Rep Dot 0 false;
     Alt (Atom (OneOf [Space; Chr NL; Chr (ch "]")])) Eos].

(** [\s\(.*?\)] *)
Definition re_parentheses : regex :=
  seq_list (Atom (OneOf [Space]))
    [Atom (Lit (ch "(")); Rep Dot 0 false; Atom (Lit (ch ")"))].

(** [([^\s]{2,})[\.\!\?\:\;]+?[\s\n]|$]: the alternation is the
    outermost operator, so the second branch is [$] alone. *)
Definition re_sentences : regex :=
  Alt (seq_list (Group 1 (Rep (NoneOf [Space]) 2 true))
         [Rep (OneOf (chrs ".!?:;")) 1 false; Atom (OneOf [Space; Chr NL])])
      Eos.

(** [[-–—/']]: hyphen, en dash, em dash, slash, apostrophe. *)
Definition re_hyphens : regex :=
  Atom (OneOf [Chr (ch "-"); Chr 8211%N; Chr 8212%N; Chr (ch "/"); Chr (ch "'")]).

(** [\s*\n\s*] *)
Definition re_empty_lines : regex :=
  seq_list (Rep (OneOf [Space]) 0 true) [Atom (Lit NL); Rep (OneOf [Space]) 0 true].

(** [\s{2,}] *)
Definition re_spaces : regex := Rep (OneOf [Space]) 2 true.

Definition regeces : list (regex * list template_item) :=
  [ (re_tags, []);
    (re_links, []);
    (re_parentheses, []);
    (re_sentences, [Ref 1; Txt [NL]]);
    (re_hyphens, [Txt (u " ")]);
    (re_empty_lines, [Txt [NL]]);
    (re_spaces, [Txt (u " ")]) ].

Section StripPunctuation.
Context `{Unicode}.

(** The characters the last step keeps, by format. *)
Definition keeps (ioformat : str) (letter : char) : bool :=
  if bool_decide (ioformat = u "txt") then isalnum letter || isspace letter
  else if bool_decide (ioformat = u "lemma") || bool_decide (ioformat = u "upos")
  then isalnum letter || isspace letter || N.eqb letter (ch "_")
  else isalnum letter || isspace letter.

(** The loop over [regeces]: each rewrite works on the result of the one
    before. *)
Definition apply_regeces (txt : str) : str :=
  foldl (fun txt regec => sub (fst regec) (snd regec) txt) txt regeces.

Definition strip_punctuation (txt ioformat : str) : str :=
  let txt := apply_regeces txt in
  List.filter (keeps ioformat) txt.

End StripPunctuation.

Section Archives.
Context `{Unicode} `{Lxml}.

(** [dirpath], which is bound only for the formats txt, upos and lemma. *)
Definition dirpath_of (ioformat : str) : option str :=
  if bool_decide (ioformat = u "txt") then Some (u "OpenSubtitles/raw")
  else if bool_decide (ioformat = u "upos") || bool_decide (ioformat = u "lemma")
  then Some (u "OpenSubtitles/parsed")
  else None.

(** One round of the loop that selects the entries of an archive:
    [ext] is the ending asked for, [years] the pair given to [range]. *)
Definition select_path (ext : str) (dirpath : option str) (lang : str)
    (years : Z * Z) (filepaths : list str) (filepath : str) : M (list str) :=
  if endswith filepath ext then
    match dirpath with
    | None => raise UnboundLocalError
    | Some dirpath =>
        if startswith filepath (os_path_join dirpath lang) then
          match split (ch "/") filepath !! 3 with
          | None => raise IndexError
          | Some segment =>
              match py_int segment with
              | None => raise ValueError
              | Some year =>
                  if in_range2 year (fst years) (snd years)
                  then ret (filepaths ++ [filepath])
                  else ret filepaths
              end
          end
        else ret filepaths
    end
  else ret filepaths.

(** One round of the loop of [strip_archive] that strips and writes. *)
Definition strip_entry (read_zip write_zip ioformat filepath : str) : M unit :=
  let name := replace (u "xml") ioformat filepath in
  data <- zip_read read_zip filepath ;;
  stripped <- lift (strip_xml data ioformat) ;;
  match stripped with
  | Some s => writestr write_zip name s
  | None => raise TypeError
  end.

Definition strip_archive_body (args : str * str * (Z * Z)) : M unit :=
  let '(lang, ioformat, years) := args in
  let read_zip := u "corpora/" ++ lang ++ u ".zip" in
  let write_zip := u "corpora/" ++ lang ++ u "_stripped.zip" in
  zip_open_r read_zip ;;
  zip_open_a write_zip ;;
  let dirpath := dirpath_of ioformat in
  names <- namelist read_zip ;;
  filepaths <- for_fold names (select_path (u "xml") dirpath lang years) [] ;;
  logging_info (Info (u "stripping xml from " ++ str_of_nat (length filepaths)
                      ++ u " subtitles in " ++ lang)) ;;
  for_each (sorted filepaths) (strip_entry read_zip write_zip ioformat).

Definition strip_archive (lang ioformat : str) (years : Z * Z) : M unit :=
  log_timer strip_archive_body (lang, ioformat, years).

(** One round of the loop of [join_archive] that cleans and writes; [i]
    counts the rounds when [verbose] is set. *)
Definition join_entry (read_zip out_fname ioformat : str) (verbose : bool)
    (total : Z) (i : Z) (filepath : str) : M Z :=
  data <- zip_read read_zip filepath ;;
  txt <- lift (match decode_utf8 data with
               | Some txt => Ok txt
               | None => Raise UnicodeDecodeError
               end) ;;
  fwrite out_fname (strip_punctuation txt ioformat) ;;
  if verbose then
    let i := (i + 1)%Z in
    print (Progress i total) ;;
    ret i
  else ret i.

Definition join_archive_body (args : str * str * (Z * Z) * bool) : M Z :=
  let '(lang, ioformat, years, verbose) := args in
  let read_zip := u "corpora/" ++ lang ++ u "_stripped.zip" in
  zip_open_r read_zip ;;
  let out_fname := u "corpora/sub." ++ lang ++ u "." ++ ioformat in
  let dirpath := dirpath_of ioformat in
  names <- namelist read_zip ;;
  filepaths <- for_fold names (select_path ioformat dirpath lang years) [] ;;
  let total := Z.of_nat (length filepaths) in
  logging_info (Info (u "joining " ++ str_of_nat (length filepaths)
                      ++ u " subtitles in " ++ lang ++ u " into a single file")) ;;
  open_w out_fname ;;
  for_fold filepaths (join_entry read_zip out_fname ioformat verbose total) 0%Z ;;
  (if verbose then print EmptyLine else ret tt) ;;
  ret total.

Definition join_archive (lang ioformat : str) (years : Z * Z) (verbose : bool) : M Z :=
  log_timer join_archive_body (lang, ioformat, years, verbose).

End Archives.

(** ** Notions used to state the properties *)

(** What one node adds to the list [stripped] of [strip_upos] and
    [strip_lemma], for a word written by [fw]. *)
Definition emit (fw : Element -> str) (node : Element) : list str :=
  (if tag_is node (u "s") then [[NL]] else [])
  ++ (if tag_is node (u "w") then [fw node] else []).

(** The year a path carries: its fourth segment, read as an integer. *)
Definition year_of `{Unicode} (filepath : str) : option Z :=
  match split (ch "/") filepath !! 3 with
  | Some segment => py_int segment
  | None => None
  end.

(** The entries the selection loops are after: the ending [ext], the
    directory of the format and the language in front, and a year in
    [years]. *)
Definition selected `{Unicode} (ext ioformat lang : str) (years : Z * Z)
    (filepath : str) : Prop :=
  endswith filepath ext = true
  /\ (exists dirpath, dirpath_of ioformat = Some dirpath
                      /\ startswith filepath (os_path_join dirpath lang) = true)
  /\ (exists year, year_of filepath = Some year
                   /\ (fst years <= year < snd years)%Z).

(** The archive entries opened between the world [w] and the later world
    [w']. *)
Definition newly_opened (w w' : World) : list (str * str) :=
  drop (length (opened w)) (opened w').

(** [m] opens only archive entries that satisfy [P], and a result it
    returns satisfies [Q]. *)
Definition opens_only {A} (P : str * str -> Prop) (Q : A -> Prop) (m : M A) : Prop :=
  forall w,
    (exists new, opened (snd (m w)) = opened w ++ new /\ Forall P new)
    /\ match fst (m w) with Ok a => Q a | Raise _ => True end.

Section Clean.
Context `{Unicode}.

(** A letter, a digit, a space or the underscore. *)
Definition plain (c : char) : Prop :=
  isalnum c || isspace c || N.eqb c (ch "_") = true.

(** No two whitespace characters stand side by side. *)
Fixpoint no_adjacent_spaces (s : str) : bool :=
  match s with
  | a :: s' =>
      match s' with
      | b :: _ => negb (isspace a && isspace b) && no_adjacent_spaces s'
      | [] => true
      end
  | [] => true
  end.

(** The text starts with http, in whatever case. *)
Definition starts_http (s : str) : bool :=
  match s with
  | c1 :: c2 :: c3 :: c4 :: _ =>
      atom_matches (Lit (ch "h")) c1 && atom_matches (Lit (ch "t")) c2
      && atom_matches (Lit (ch "t")) c3 && atom_matches (Lit (ch "p")) c4
  | _ => false
  end.

Fixpoint no_http (s : str) : bool :=
  match s with
  | [] => true
  | _ :: s' => negb (starts_http s) && no_http s'
  end.

Definition ends_with_newline (s : str) : bool :=
  match last s with
  | Some c => N.eqb c NL
  | None => false
  end.

(** A clean text for a format: only characters the filter of the format
    keeps, no two whitespace characters side by side, no http, and a line
    feed at the end. *)
Definition clean (ioformat : str) (s : str) : bool :=
  forallb (keeps ioformat) s && no_adjacent_spaces s && no_http s
  && ends_with_newline s.

End Clean.

(** Two results agree: both are values related by [R], or both are the
    same exception. *)
Definition res_rel {A B} (R : A -> B -> Prop) (r1 : res A) (r2 : res B) : Prop :=
  match r1, r2 with
  | Ok a, Ok b => R a b
  | Raise e1, Raise e2 => e1 = e2
  | _, _ => False
  end.

(** [m2] does what [m1] does, except that it leaves the console alone:
    started on the same world with any console [c], it ends with agreeing
    results on the world of [m1] with the console [c]. *)
Definition quiet_version {A B} (R : A -> B -> Prop) (m1 : M A) (m2 : M B) : Prop :=
  forall (c : list console_event) (w : World),
    res_rel R (fst (m1 w)) (fst (m2 (set_console c w)))
    /\ snd (m2 (set_console c w)) = set_console c (snd (m1 w)).

(** ** Sample inputs *)

Definition abac : str := u ("a" ++ nl ++ "b" ++ nl ++ "a" ++ nl ++ "c").

(** A world with one text file and nothing else. *)
Definition world_with (fname content : str) : World :=
  mkWorld {[ fname := content ]} ∅ [] [] [] [] [] [].

(** A world with one text file and a random generator that will hand out
    the draws [g]. *)
Definition world_with_rng (fname content : str) (g : list nat) : World :=
  mkWorld {[ fname := content ]} ∅ g [] [] [] [] [].

(** A word element, as the parsed subtitles have it. *)
Definition word (txt upos lemma : str) (tl : option str) : Element :=
  Elem (Some (u "w")) (<[u "upos" := upos]> (<[u "lemma" := lemma]> ∅)) (Some txt) [] tl.

(** The sentence "cat sat", with whatever text and tails lie between the
    elements. *)
Definition cat_sat (t0 t1 t2 t3 : option str) : Element :=
  Elem (Some (u "s")) ∅ t0
    [word (u "cat") (u "NOUN") (u "cat") t1; word (u "sat") (u "VERB") (u "sit") t2] t3.

(** A sentence element of words, and a document element of sentences,
    each word given by its text, its tag and its lemma. *)
Definition sentence_of (words : list (str * str * str)) : Element :=
  Elem (Some (u "s")) ∅ None
    (map (fun w => word (fst (fst w)) (snd (fst w)) (snd w) None) words) None.

Definition document_of (sentences : list (list (str * str * str))) : Element :=
  Elem (Some (u "document")) ∅ None (map sentence_of sentences) None.

(** A sentence that starts with a time element. *)
Definition timed_sentence (value txt : str) : Element :=
  Elem (Some (u "s")) ∅ None
    [Elem (Some (u "time")) {[ u "value" := value ]} None [] (Some txt)] None.

Definition empty_world : World := mkWorld ∅ ∅ [] [] [] [] [] [].

(** A parser that knows one document, whatever the bytes, for trees
    without [meta] elements. *)
Definition one_document : Lxml :=
  {| fromstring := fun _ => Ok (Some (cat_sat None None None None));
     remove_meta := fun tree => Ok tree |}.

Definition ascii_bytes (s : string) : bytes := map byte_of_N (u s).

(** An archive of raw subtitles of the years 1890 and 2000, and the
    stripped archive made of it. *)
Definition sample_archives : World :=
  mkWorld ∅
    (<[u "corpora/en.zip" :=
         [(u "OpenSubtitles/raw/en/1890/1/a.xml", ascii_bytes "<s>old</s>");
          (u "OpenSubtitles/raw/en/2000/1/b.xml", ascii_bytes "<s>new</s>")]]>
     (<[u "corpora/en_stripped.zip" :=
         [(u "OpenSubtitles/raw/en/1890/1/a.txt", ascii_bytes "Old. ");
          (u "OpenSubtitles/raw/en/2000/1/b.txt", ascii_bytes "New. ")]]> ∅))
    [] [] [] [] [] [].

(** ** Further definitions *)

From Stdlib Require Import Sorted.

(** ** The command lines *)

(** [os.path.split(p)] of posixpath: [tail] is what follows the last
    slash; [head] is what comes before, without its trailing slashes
    unless it is made of slashes only. *)
Definition os_path_split (p : str) : str * str :=
  let tail := default [] (last (split (ch "/") p)) in
  let head := take (length p - length tail) p in
  let head := if bool_decide (head <> []) && negb (forallb (N.eqb (ch "/")) head)
              then rstrip (N.eqb (ch "/")) head else head in
  (head, tail).

(** The body under [if __name__ == '__main__'] of deduplicate.py, for the
    parsed arguments [filename] and [--bins]. *)
Definition deduplicate_main `{SetOrder} (filename : str) (bins : Z) : M unit :=
  let '(path, fname) := os_path_split filename in
  if Z.eqb bins 1
  then dedup_file filename (os_path_join path (u "dedup." ++ fname)) ;; ret tt
  else big_dedup_file filename (os_path_join path (u "pseudodedup." ++ fname)) bins.

(** The body under [if __name__ == '__main__'] of clean_subs.py, for the
    parsed arguments. *)
Definition clean_subs_main `{Unicode} `{Lxml} (lang : str) (stripxml : bool)
    (years : Z * Z) (join_flag : bool) (ioformat : str) : M unit :=
  (if stripxml then strip_archive lang ioformat years else ret tt) ;;
  (if join_flag then join_archive lang ioformat years false ;; ret tt else ret tt).

(** ** Notions used to state the further properties *)

(** Whatever the world, [m] leaves a world related to it by [R]. *)
Definition respects {A} (R : World -> World -> Prop) (m : M A) : Prop :=
  forall w, R w (snd (m w)).

(** The text files other than those in [P] are the same in both worlds. *)
Definition same_files_but (P : str -> Prop) (w w' : World) : Prop :=
  forall f, ~ P f -> files w' !! f = files w !! f.

(** The text of a line a file object yields: the line without its line
    feed. *)
Definition line_text (l : str) : str :=
  match last l with
  | Some c => if N.eqb c NL then take (length l - 1) l else l
  | None => l
  end.

(** The shape of the lines a file object yields: each ends with the only
    line feed it has, but the last, which may have none. *)
Inductive lines_ok : list str -> Prop :=
| lines_ok_nil : lines_ok []
| lines_ok_last (l : str) : l <> [] -> NL ∉ l -> lines_ok [l]
| lines_ok_cons (x : str) (ls : list str) :
    NL ∉ x -> lines_ok ls -> lines_ok ((x ++ [NL]) :: ls).

(** What [split] on the line feed gives after the texts of the lines: an
    empty string, unless the last line has no line feed. *)
Definition trailing (ls : list str) : list str :=
  match last ls with
  | Some l => if bool_decide (last l = Some NL) then [[]] else []
  | None => [[]]
  end.


(** The three tests of the selection loops on a path whose year can be
    read, for the directory [dirpath] of the format. *)
Definition wanted `{Unicode} (ext dirpath lang : str) (years : Z * Z)
    (filepath : str) : bool :=
  endswith filepath ext
  && startswith filepath (os_path_join dirpath lang)
  && match year_of filepath with
     | Some year => in_range2 year (fst years) (snd years)
     | None => false
     end.

(** A path that passes the first two tests and has no year to read: it has
    no fourth segment, or one that [int] refuses. *)
Definition malformed `{Unicode} (ext dirpath lang filepath : str) : bool :=
  endswith filepath ext
  && startswith filepath (os_path_join dirpath lang)
  && negb (bool_decide (is_Some (year_of filepath))).

(** The names of the two archives and of the joined corpus. *)
Definition source_zip (lang : str) : str := u "corpora/" ++ lang ++ u ".zip".
Definition stripped_zip (lang : str) : str := u "corpora/" ++ lang ++ u "_stripped.zip".
Definition joined_file (lang ioformat : str) : str :=
  u "corpora/sub." ++ lang ++ u "." ++ ioformat.

(** The text [join_archive] reads from an entry. *)
Definition entry_text (entries : list (str * bytes)) (filepath : str) : option str :=
  data ← last_entry filepath entries; decode_utf8 data.

(** The entry [strip_archive] makes of an entry of the source archive. *)
Definition stripped_entry `{Lxml} (entries : list (str * bytes)) (ioformat filepath : str)
    : option (str * bytes) :=
  data ← last_entry filepath entries;
  match strip_xml data ioformat with
  | Ok (Some s) => b ← encode_utf8 s; Some (replace (u "xml") ioformat filepath, b)
  | _ => None
  end.

(** The text [join_archive] writes for an entry. *)
Definition cleaned `{Unicode} (entries : list (str * bytes)) (ioformat filepath : str)
    : str :=
  strip_punctuation (default [] (entry_text entries filepath)) ioformat.

(** [w'] is [w] with entries added at the end of the archive [z]: the
    text files and the other archives are the same. *)
Definition appends_to (z : str) (w w' : World) : Prop :=
  files w' = files w
  /\ (forall z', z' <> z -> zips w' !! z' = zips w !! z')
  /\ exists more, default [] (zips w' !! z) = default [] (zips w !! z) ++ more.

(** [w'] is [w] but for the text file [f]: the archives and the other
    text files are the same. *)
Definition writes_only (f : str) (w w' : World) : Prop :=
  zips w' = zips w /\ same_files_but (fun g => g = f) w w'.

(** The time element a node starts with, for a sentence element that
    starts with one: the sentences [strip_viz] makes a line of. *)
Definition timed (node : Element) : option Element :=
  if tag_is node (u "s") then
    match children node with
    | first :: _ => if tag_is first (u "time") then Some first else None
    | [] => None
    end
  else None.

(** The line [strip_viz] makes of a sentence. *)
Definition viz_line (node : Element) (line : str) : Prop :=
  exists first value,
    timed node = Some first
    /\ get first (u "value") = Some value
    /\ line = u "[" ++ normalize_timestamp value ++ u "] "
              ++ replace [NL] [] (tostring_text node).

(** ** Further sample data *)

(** A pair of archives in which one path has no year. *)
Definition malformed_archives : World :=
  mkWorld ∅
    (<[u "corpora/en.zip" :=
         [(u "OpenSubtitles/raw/en/2000/1/b.xml", ascii_bytes "<s>new</s>");
          (u "OpenSubtitles/raw/en/readme.xml", [])]]>
     (<[u "corpora/en_stripped.zip" :=
         [(u "OpenSubtitles/raw/en/2000/1/b.txt", ascii_bytes "New. ");
          (u "OpenSubtitles/raw/en/readme.txt", [])]]> ∅))
    [] [] [] [] [] [].

(** A stripped archive whose second entry is not UTF-8. *)
Definition undecodable_archive : World :=
  mkWorld ∅
    (<[u "corpora/en_stripped.zip" :=
         [(u "OpenSubtitles/raw/en/2000/1/b.txt", ascii_bytes "New. ");
          (u "OpenSubtitles/raw/en/2001/1/c.txt", [Byte.xff])]]> ∅)
    [] [] [] [] [] [].

(** A sentence with one word element that has no text and no attribute. *)
Definition bare_word : Element := Elem (Some (u "w")) ∅ None [] None.
Definition bare_sentence : Element := Elem (Some (u "s")) ∅ None [bare_word] None.

(** The lines ab, b, a, ab, each with its line feed. *)
Definition ab_b_a_ab : str :=
  u ("ab" ++ nl ++ "b" ++ nl ++ "a" ++ nl ++ "ab" ++ nl).

(** The content of a text file. *)
Definition content_of (w : World) (fname : str) : option str := files w !! fname.
(** * Properties *)

(** ** Strings *)

Example split_abac :
  split NL (u ("a" ++ nl ++ "b" ++ nl ++ "a" ++ nl ++ "c"))
  = [u "a"; u "b"; u "a"; u "c"].
Proof. reflexivity. Qed.

Example split_trailing : split NL (u ("a" ++ nl)) = [u "a"; []].
Proof. reflexivity. Qed.

Example iter_lines_ab :
  iter_lines (u ("a" ++ nl ++ "b")) = [u ("a" ++ nl); u "b"].
Proof. reflexivity. Qed.

Example translate_crlf :
  translate_newlines [97; CR; NL; 98; CR; 99]%N = [97; NL; 98; NL; 99]%N.
Proof. reflexivity. Qed.

Example replace_empty_old : replace [] (u "-") (u "ab") = u "-a-b-".
Proof. reflexivity. Qed.

Example replace_overlap : replace (u "aa") (u "b") (u "aaa") = u "ba".
Proof. reflexivity. Qed.

Example str_of_nat_0 : str_of_nat 0 = u "0" /\ str_of_nat 120 = u "120".
Proof. split; reflexivity. Qed.

Lemma split_nonempty sep s : split sep s <> [].
Proof. destruct s as [|c s]; simpl; [easy|]. destruct (N.eqb c sep); [easy|]. now destruct (split sep s). Qed.

Lemma split_app_sep sep s : split sep (s ++ [sep]) = split sep s ++ [[]].
Proof.
  induction s as [|c s IH]; simpl.
  - now rewrite N.eqb_refl.
  - destruct (N.eqb c sep); [now rewrite IH|].
    rewrite IH. pose proof (split_nonempty sep s).
    now destruct (split sep s).
Qed.

Lemma u_inj s1 s2 : u s1 = u s2 -> s1 = s2.
Proof.
  unfold u. intros E.
  rewrite <- (string_of_list_ascii_of_string s1), <- (string_of_list_ascii_of_string s2).
  f_equal. revert E.
  generalize (list_ascii_of_string s1) (list_ascii_of_string s2).
  induction l as [|a l IH]; intros [|b l']; simpl; intros E; try discriminate; [reflexivity|].
  injection E as E1 E2. f_equal; [|now apply IH].
  rewrite <- (ascii_N_embedding a), <- (ascii_N_embedding b). now f_equal.
Qed.

Lemma to_uint_nonnil n : Nat.to_uint n <> Decimal.Nil.
Proof.
  intros E. pose proof (DecimalNat.Unsigned.of_to n) as O.
  rewrite E in O. simpl in O. subst n. discriminate E.
Qed.

Lemma str_of_nat_inj a b : str_of_nat a = str_of_nat b -> a = b.
Proof.
  unfold str_of_nat. intros E%u_inj.
  apply DecimalNat.Unsigned.to_uint_inj.
  pose proof (to_uint_nonnil a) as Na. pose proof (to_uint_nonnil b) as Nb.
  assert (E' : NilEmpty.string_of_uint (Nat.to_uint a)
               = NilEmpty.string_of_uint (Nat.to_uint b)).
  { unfold NilZero.string_of_uint in E.
    destruct (Nat.to_uint a), (Nat.to_uint b); congruence. }
  apply (f_equal NilEmpty.uint_of_string) in E'.
  rewrite !NilEmpty.usu in E'. congruence.
Qed.

Lemma translate_newlines_no_cr s : CR ∉ translate_newlines s.
Proof.
  induction s as [|c s IH]; simpl; [apply not_elem_of_nil|].
  destruct (N.eqb c CR) eqn:Ec.
  - destruct s as [|c' s']; [by apply not_elem_of_cons; split; [|apply not_elem_of_nil]|].
    destruct (N.eqb c' NL); [exact IH|].
    apply not_elem_of_cons. split; [discriminate|exact IH].
  - apply not_elem_of_cons. split; [|exact IH].
    intros E. rewrite <- E, N.eqb_refl in Ec. discriminate.
Qed.

Lemma translate_newlines_id s : CR ∉ s -> translate_newlines s = s.
Proof.
  induction s as [|c s IH]; simpl; [reflexivity|].
  intros [Hc Hs]%not_elem_of_cons.
  destruct (N.eqb c CR) eqn:Ec; [apply N.eqb_eq in Ec; congruence|].
  now rewrite IH.
Qed.

Lemma elem_of_concat {A} (x : A) (ls : list (list A)) :
  x ∈ concat ls <-> exists l, l ∈ ls /\ x ∈ l.
Proof.
  rewrite list_elem_of_In, in_concat. split.
  - intros (l & Hl & Hx). exists l. now rewrite !list_elem_of_In.
  - intros (l & Hl & Hx). exists l. now rewrite <- !list_elem_of_In.
Qed.

Lemma concat_iter_lines s : concat (iter_lines s) = s.
Proof.
  induction s as [|c s IH]; simpl; [reflexivity|].
  destruct (N.eqb c NL); simpl; [now rewrite IH|].
  destruct (iter_lines s); simpl in *; now rewrite <- IH.
Qed.

Lemma join_split sep s : join [sep] (split sep s) = s.
Proof.
  induction s as [|c s IH]; simpl; [reflexivity|].
  pose proof (split_nonempty sep s) as Hne.
  destruct (N.eqb c sep) eqn:Ec.
  - apply N.eqb_eq in Ec. subst c.
    destruct (split sep s) as [|l ls] eqn:E; [contradiction|].
    simpl. now rewrite <- IH.
  - destruct (split sep s) as [|l ls] eqn:E; [contradiction|].
    rewrite <- IH. simpl. now destruct ls.
Qed.

(** ** The monad *)

Lemma bind_ok {A B} (m : M A) (k : A -> M B) w a w' :
  m w = (Ok a, w') -> bind m k w = k a w'.
Proof. intros E. unfold bind. now rewrite E. Qed.

Lemma bind_raise {A B} (m : M A) (k : A -> M B) w e w' :
  m w = (Raise e, w') -> bind m k w = (Raise e, w').
Proof. intros E. unfold bind. now rewrite E. Qed.

(** ** Shuffling *)

Lemma swap_perm {A} (i j : nat) (x : list A) : swap i j x ≡ₚ x.
Proof.
  unfold swap.
  destruct (x !! i) as [a|] eqn:Ei; [|reflexivity].
  destruct (x !! j) as [b|] eqn:Ej; [|reflexivity].
  now apply Permutation_insert_swap.
Qed.

Lemma shuffle_from_spec {A} (i : nat) : forall (x : list A) (w : World),
  exists x', shuffle_from i x w = (Ok x', set_rng (drop i (rng w)) w) /\ x' ≡ₚ x.
Proof.
  induction i as [|i IH]; intros x w.
  - exists x. split; [|reflexivity]. destruct w; reflexivity.
  - destruct (IH (swap (S i) (hd 0 (rng w) mod S (S i)) x)
                 (set_rng (tl (rng w)) w)) as (x' & E & P).
    exists x'. split.
    + simpl. unfold bind, randbelow. rewrite E.
      destruct w as [f z g c wl co lg op]; simpl. destruct g; simpl; [|reflexivity].
      now rewrite drop_nil.
    + rewrite P. apply swap_perm.
Qed.

Lemma shuffle_spec {A} (x : list A) (w : World) :
  exists x', shuffle x w = (Ok x', set_rng (drop (length x - 1) (rng w)) w)
             /\ x' ≡ₚ x.
Proof. apply shuffle_from_spec. Qed.

(** ** deduplicate.py *)

Section DeduplicateFacts.
Context `{SetOrder}.

(** What [dedup_file] does to a file that is there and is not the output
    file: the counts, and the output as the lines of the set in some
    order. *)
Lemma dedup_file_spec (in_fname out_fname content : str) (w : World) :
  in_fname <> out_fname ->
  files w !! in_fname = Some content ->
  let lines := split NL (translate_newlines content) in
  let n := Z.of_nat (length lines) in
  exists out w',
    dedup_file in_fname out_fname w
      = (Ok (n, (n - Z.of_nat (size (list_to_set lines : gset str)))%Z), w')
    /\ files w' !! out_fname = Some (join [NL] out)
    /\ out ≡ₚ elements (list_to_set lines : gset str).
Proof.
  intros Hne Hin lines n.
  unfold dedup_file, log_timer, dedup_file_body.
  set (w1 := set_clock (tl (clock w)) w).
  set (w2 := set_files (<[out_fname := []]> (files w1)) w1).
  destruct (shuffle_spec (set_iter (list_to_set lines)) w2) as (out & Esh & P).
  exists out. eexists. split; [|split].
  - unfold bind at 1. unfold time at 1. fold w1.
    unfold bind at 1. unfold bind at 1. unfold open_r.
    replace (files w1 !! in_fname) with (Some content) by (symmetry; exact Hin).
    unfold bind at 1. unfold open_w. fold w2.
    unfold bind at 1. unfold get_lines, fread, bind at 1, ret.
    replace (files w2 !! in_fname) with (Some content)
      by (unfold w2; simpl; rewrite lookup_insert_ne by congruence;
          symmetry; exact Hin).
    simpl (default _ _). fold lines. fold n.
    unfold bind at 1. rewrite Esh.
    unfold bind, fwrite, logging_info, time. reflexivity.
  - simpl. rewrite lookup_insert_eq. rewrite lookup_insert_eq. reflexivity.
  - rewrite P. apply set_iter_perm.
Qed.

Lemma list_to_set_remove_dups (l : list str) :
  (list_to_set (remove_dups l) : gset str) = list_to_set l.
Proof. apply set_eq. intros x. rewrite !elem_of_list_to_set. apply elem_of_remove_dups. Qed.

Lemma elements_list_to_set_dups (l : list str) :
  elements (list_to_set l : gset str) ≡ₚ remove_dups l.
Proof.
  rewrite <- list_to_set_remove_dups.
  apply elements_list_to_set, NoDup_remove_dups.
Qed.

Lemma size_list_to_set_dups (l : list str) :
  size (list_to_set l : gset str) = length (remove_dups l).
Proof.
  rewrite <- list_to_set_remove_dups.
  apply size_list_to_set, NoDup_remove_dups.
Qed.

Lemma temp_name_inj (a b : nat) :
  temp_name (Z.of_nat a) = temp_name (Z.of_nat b) -> a = b.
Proof.
  unfold temp_name. intros E. apply app_inv_head, app_inv_tail in E.
  assert (S : forall n, str_of_Z (Z.of_nat n) = str_of_nat n).
  { intros n. unfold str_of_Z. destruct (Z.of_nat n) eqn:En; try lia.
    - now replace n with 0 by lia.
    - f_equal. lia. }
  rewrite !S in E. now apply str_of_nat_inj.
Qed.

Lemma files_set_files f w : files (set_files f w) = f.
Proof. reflexivity. Qed.

Lemma set_files_set_files f g w : set_files f (set_files g w) = set_files f w.
Proof. reflexivity. Qed.

Lemma set_files_id w : set_files (files w) w = w.
Proof. now destruct w. Qed.

(** The loop that opens the temporary files. *)
Lemma create_loop (idx : list Z) : forall (hs : list str) (w : World),
  for_fold idx open_temp hs w
  = (Ok (hs ++ map temp_name idx), set_files (create_temps idx (files w)) w).
Proof.
  induction idx as [|i idx IH]; intros hs w; simpl.
  - unfold ret. now rewrite app_nil_r, set_files_id.
  - unfold bind at 1. unfold open_temp at 1. unfold bind at 1. unfold open_w, ret.
    rewrite IH. rewrite files_set_files, set_files_set_files.
    now rewrite <- app_assoc.
Qed.

Lemma create_temps_other (idx : list Z) f : forall fs,
  (forall i, i ∈ idx -> f <> temp_name i) ->
  create_temps idx fs !! f = fs !! f.
Proof.
  induction idx as [|i idx IH]; intros fs Hf; simpl; [reflexivity|].
  unfold create_temps in *. simpl. rewrite IH.
  - apply lookup_insert_ne. intros E. apply (Hf i); [left|done].
  - intros j Hj. apply Hf. now right.
Qed.

Lemma create_temps_temp (idx : list Z) i : forall fs,
  i ∈ idx -> (forall j, j ∈ idx -> temp_name j = temp_name i -> j = i) ->
  create_temps idx fs !! temp_name i = Some [].
Proof.
  induction idx as [|j idx IH]; intros fs Hi Hinj; [inversion Hi|].
  unfold create_temps in *. simpl.
  destruct (decide (i ∈ idx)) as [Hin|Hnin].
  - apply IH; [exact Hin|]. intros k Hk. apply Hinj. now right.
  - assert (j = i) as -> by (inversion Hi; subst; [reflexivity|contradiction]).
    fold (create_temps idx (<[temp_name i := []]> fs)).
    rewrite create_temps_other; [apply lookup_insert_eq|].
    intros k Hk E. apply Hnin. rewrite <- (Hinj k); [exact Hk|now right|done].
Qed.

Lemma range_lookup (n : nat) (k : nat) :
  k < n -> map temp_name (range (Z.of_nat n)) !! k = Some (temp_name (Z.of_nat k)).
Proof.
  intros Hk. unfold range. rewrite Nat2Z.id.
  rewrite !list_lookup_fmap, lookup_seq_lt by exact Hk. reflexivity.
Qed.

Lemma range_length (n : nat) : length (map temp_name (range (Z.of_nat n))) = n.
Proof. unfold range. now rewrite !length_map, length_seq, Nat2Z.id. Qed.

Lemma elem_of_range (n : nat) (i : Z) :
  i ∈ range (Z.of_nat n) <-> exists k, k < n /\ i = Z.of_nat k.
Proof.
  unfold range. rewrite Nat2Z.id, list_elem_of_fmap. split.
  - intros (k & -> & Hk). exists k. split; [|reflexivity].
    apply elem_of_seq in Hk. lia.
  - intros (k & Hk & ->). exists k. split; [reflexivity|].
    apply elem_of_seq. lia.
Qed.

(** The loop that deals the lines out. *)
Lemma deal_loop (n : nat) (lines : list str) : forall (j : nat) (w : World),
  0 < n ->
  for_fold lines (write_next (map temp_name (range (Z.of_nat n)))) (j mod n) w
  = (Ok ((j + length lines) mod n), set_files (deal n j lines (files w)) w).
Proof.
  induction lines as [|l lines IH]; intros j w Hn; simpl.
  - unfold ret. now rewrite Nat.add_0_r, set_files_id.
  - unfold bind at 1. unfold write_next at 1. unfold bind at 1. unfold cycle_next.
    rewrite range_lookup by (apply Nat.mod_upper_bound; lia).
    unfold ret at 1. unfold bind at 1. unfold fwrite, ret. simpl fst. simpl snd.
    rewrite range_length.
    replace (S (j mod n) mod n) with (S j mod n).
    2:{ replace (S j) with (1 + j) by lia. replace (S (j mod n)) with (1 + j mod n) by lia.
        now rewrite Nat.Div0.add_mod_idemp_r. }
    rewrite IH by exact Hn. rewrite files_set_files, set_files_set_files.
    do 2 f_equal. f_equal. lia.
Qed.

Lemma bucket_lines_from_cons n k j l lines :
  bucket_lines_from n k j (l :: lines)
  = (if decide (j mod n = k) then [l] else []) ++ bucket_lines_from n k (S j) lines.
Proof.
  unfold bucket_lines_from. simpl. rewrite filter_cons. simpl.
  now destruct (decide (j mod n = k)).
Qed.

Lemma deal_other n (lines : list str) f : forall j fs,
  (forall k, f <> temp_name (Z.of_nat k)) ->
  deal n j lines fs !! f = fs !! f.
Proof.
  induction lines as [|l lines IH]; intros j fs Hf; simpl; [reflexivity|].
  rewrite IH by exact Hf. apply lookup_insert_ne. intros E. now apply (Hf (j mod n)).
Qed.

Lemma deal_temp n k (lines : list str) : forall j fs,
  default [] (deal n j lines fs !! temp_name (Z.of_nat k))
  = default [] (fs !! temp_name (Z.of_nat k))
    ++ concat (bucket_lines_from n k j lines).
Proof.
  induction lines as [|l lines IH]; intros j fs.
  - simpl. now rewrite app_nil_r.
  - simpl deal. rewrite bucket_lines_from_cons, IH, concat_app, app_assoc. f_equal.
    destruct (decide (j mod n = k)) as [->|Hne].
    + rewrite lookup_insert_eq. simpl. now rewrite app_nil_r.
    + rewrite lookup_insert_ne by (intros E%temp_name_inj; contradiction).
      simpl. now rewrite app_nil_r.
Qed.

Lemma deal_is_Some n (lines : list str) f : forall j fs,
  is_Some (fs !! f) -> is_Some (deal n j lines fs !! f).
Proof.
  induction lines as [|l lines IH]; intros j fs Hf; simpl; [exact Hf|].
  apply IH. destruct (decide (temp_name (Z.of_nat (j mod n)) = f)) as [->|Hne].
  - rewrite lookup_insert_eq. eauto.
  - now rewrite lookup_insert_ne.
Qed.

Lemma bucket_lines_from_subseteq n k (lines : list str) : forall j,
  bucket_lines_from n k j lines ⊆ lines.
Proof.
  induction lines as [|l lines IH]; intros j.
  - unfold bucket_lines_from. simpl. done.
  - rewrite bucket_lines_from_cons. specialize (IH (S j)).
    destruct (decide (j mod n = k)); simpl.
    + now apply list_subseteq_skip.
    + now apply list_subseteq_cons.
Qed.

Lemma bucket_no_cr n k j (s : str) :
  CR ∉ s -> CR ∉ concat (bucket_lines_from n k j (iter_lines s)).
Proof.
  intros Hs Hc. apply Hs. rewrite <- (concat_iter_lines s).
  apply elem_of_concat in Hc as (l & Hl & Hc).
  apply elem_of_concat. exists l. split; [|exact Hc].
  now apply (bucket_lines_from_subseteq n k _ j).
Qed.

(** The first half of [big_dedup_file] on an input that is there and is
    not one of the temporary files. *)
Lemma fill_bins_spec (in_fname content : str) (n : nat) (w : World) :
  0 < n ->
  files w !! in_fname = Some content ->
  (forall k, k < n -> in_fname <> temp_name (Z.of_nat k)) ->
  fill_bins in_fname (Z.of_nat n) w
  = (Ok (map temp_name (range (Z.of_nat n))),
     set_files (deal n 0 (iter_lines (translate_newlines content))
                  (create_temps (range (Z.of_nat n)) (files w))) w).
Proof.
  intros Hn Hin Hne. unfold fill_bins.
  assert (Hin' : create_temps (range (Z.of_nat n)) (files w) !! in_fname = Some content).
  { rewrite create_temps_other; [exact Hin|].
    intros i (k & Hk & ->)%elem_of_range. now apply Hne. }
  erewrite bind_ok by apply create_loop. simpl app.
  erewrite bind_ok.
  2:{ unfold open_r. rewrite files_set_files, Hin'. reflexivity. }
  erewrite bind_ok.
  2:{ unfold fread. rewrite files_set_files, Hin'. reflexivity. }
  simpl default. erewrite bind_ok.
  2:{ pose proof (deal_loop n (iter_lines (translate_newlines content)) 0
                    (set_files (create_temps (range (Z.of_nat n)) (files w)) w) Hn) as E.
      rewrite Nat.Div0.mod_0_l in E. exact E. }
  unfold ret. now rewrite files_set_files, set_files_set_files.
Qed.

(** The temporary files after the first half. *)
Lemma fill_bins_files (fs : gmap str str) (n k : nat) (lines : list str) :
  k < n ->
  deal n 0 lines (create_temps (range (Z.of_nat n)) fs) !! temp_name (Z.of_nat k)
  = Some (concat (bucket_lines n k lines)).
Proof.
  intros Hk.
  assert (Hc : create_temps (range (Z.of_nat n)) fs !! temp_name (Z.of_nat k) = Some []).
  { apply create_temps_temp.
    - apply elem_of_range. eauto.
    - intros j (k' & _ & ->)%elem_of_range E. f_equal. now apply temp_name_inj. }
  pose proof (deal_temp n k lines 0 (create_temps (range (Z.of_nat n)) fs)) as E.
  rewrite Hc in E. simpl in E.
  destruct (deal_is_Some n lines (temp_name (Z.of_nat k)) 0
              (create_temps (range (Z.of_nat n)) fs)) as [c Ec]; [eauto|].
  rewrite Ec in E |- *. simpl in E. now subst c.
Qed.

Lemma drain_bin_spec (out_fname acc : str) (i : Z) (w : World) :
  files w !! out_fname = Some acc ->
  is_Some (files w !! temp_name i) ->
  exists L w',
    drain_bin out_fname i w = (Ok tt, w')
    /\ files w' = <[out_fname := acc ++ join [NL] L]> (files w)
    /\ L ≡ₚ elements (list_to_set (split NL (translate_newlines
                        (default [] (files w !! temp_name i)))) : gset str).
Proof.
  intros Hout [c Hc]. unfold drain_bin.
  destruct (shuffle_spec (set_iter (list_to_set (split NL (translate_newlines c)))) w)
    as (L & Esh & P).
  exists L. eexists. split; [|split].
  - erewrite bind_ok by (unfold open_r; rewrite Hc; reflexivity).
    erewrite bind_ok by (unfold fread; rewrite Hc; reflexivity).
    simpl default. erewrite bind_ok by exact Esh.
    unfold fwrite. reflexivity.
  - simpl. now rewrite Hout.
  - rewrite Hc. simpl. rewrite P. apply set_iter_perm.
Qed.

Lemma drain_loop (out_fname : str) (c : Z -> str) (idx : list Z) :
  forall (acc : str) (w : World),
  files w !! out_fname = Some acc ->
  (forall i, i ∈ idx -> out_fname <> temp_name i /\ files w !! temp_name i = Some (c i)) ->
  exists Ls w',
    for_each idx (drain_bin out_fname) w = (Ok tt, w')
    /\ files w' = <[out_fname := acc ++ concat (map (join [NL]) Ls)]> (files w)
    /\ Forall2 (fun L i =>
                  L ≡ₚ elements (list_to_set (split NL (translate_newlines (c i)))
                                 : gset str))
         Ls idx.
Proof.
  induction idx as [|i idx IH]; intros acc w Hout Hidx.
  - exists [], w. split; [reflexivity|]. split; [|constructor].
    simpl. rewrite app_nil_r. symmetry. now apply insert_id.
  - destruct (Hidx i) as [Hne Hi]; [left|].
    destruct (drain_bin_spec out_fname acc i w Hout) as (L & w1 & E1 & F1 & P1); [eauto|].
    rewrite Hi in P1. simpl in P1.
    destruct (IH (acc ++ join [NL] L) w1) as (Ls & w' & E & F & Ps).
    { rewrite F1. apply lookup_insert_eq. }
    { intros j Hj. destruct (Hidx j) as [Hnej Hsj]; [now right|].
      split; [exact Hnej|]. rewrite F1. now rewrite lookup_insert_ne. }
    exists (L :: Ls), w'. split; [|split].
    + simpl. erewrite bind_ok by exact E1. exact E.
    + rewrite F, F1. simpl. rewrite insert_insert_eq. now rewrite <- app_assoc.
    + now constructor.
Qed.

(** [big_dedup_file] on an input that is there, with at least one bucket
    and no temporary file in the place of the input or the output: the
    temporary files hold the lines dealt out in turn, and the output is
    what the buckets give, one after the other. *)
Lemma big_dedup_file_spec (in_fname out_fname content : str) (n : nat) (w : World) :
  0 < n ->
  files w !! in_fname = Some content ->
  (forall k, k < n -> in_fname <> temp_name (Z.of_nat k)
                      /\ out_fname <> temp_name (Z.of_nat k)) ->
  let lines := iter_lines (translate_newlines content) in
  exists Ls w',
    big_dedup_file in_fname out_fname (Z.of_nat n) w = (Ok tt, w')
    /\ (forall k, k < n ->
         files w' !! temp_name (Z.of_nat k) = Some (concat (bucket_lines n k lines)))
    /\ files w' !! out_fname = Some (concat (map (join [NL]) Ls))
    /\ Forall2 (fun L k =>
                  L ≡ₚ elements (list_to_set
                         (split NL (concat (bucket_lines n k lines))) : gset str))
         Ls (seq 0 n).
Proof.
  intros Hn Hin Hne lines.
  set (w0 := set_clock (tl (clock w)) w).
  set (fs1 := deal n 0 lines (create_temps (range (Z.of_nat n)) (files w0))).
  set (w2 := set_files (<[out_fname := []]> fs1) (set_files fs1 w0)).
  destruct (drain_loop out_fname
              (fun i => concat (bucket_lines n (Z.to_nat i) lines))
              (range (Z.of_nat n)) [] w2) as (Ls & w3 & E3 & F3 & P3).
  { apply lookup_insert_eq. }
  { intros i (k & Hk & ->)%elem_of_range. split; [now apply Hne|].
    unfold w2. rewrite files_set_files, Nat2Z.id.
    rewrite lookup_insert_ne by (now apply Hne).
    now apply fill_bins_files. }
  exists Ls. eexists. split; [|split; [|split]].
  - unfold big_dedup_file, log_timer.
    erewrite bind_ok by reflexivity. fold w0.
    erewrite bind_ok.
    2:{ unfold big_dedup_file_body.
        erewrite bind_ok.
        2:{ apply fill_bins_spec; [exact Hn|exact Hin|]. intros k Hk. now apply Hne. }
        fold lines. fold fs1.
        erewrite bind_ok.
        2:{ unfold drain_bins. erewrite bind_ok by reflexivity.
            rewrite files_set_files. fold w2. exact E3. }
        reflexivity. }
    reflexivity.
  - intros k Hk. simpl. rewrite F3. unfold w2. rewrite files_set_files.
    rewrite !lookup_insert_ne by (now apply Hne).
    now apply fill_bins_files.
  - simpl. rewrite F3. now rewrite lookup_insert_eq.
  - unfold range in P3. rewrite Nat2Z.id in P3.
    apply (Forall2_fmap_r Z.of_nat) in P3.
    eapply Forall2_impl; [exact P3|]. intros L k HP. simpl in HP.
    rewrite Nat2Z.id in HP.
    rewrite translate_newlines_id in HP; [exact HP|].
    apply bucket_no_cr, translate_newlines_no_cr.
Qed.

(** C1. With at least one bucket, [big_dedup_file] gives the line of
    index [i] to the temporary file [i mod n_bins]: temporary file [k]
    holds, in order, the lines whose index has [i mod n_bins = k].  What
    bucket [k] then contributes to the output is the set of the lines of
    that file, each once, in some order.  For two buckets and the lines
    a, b, a, c, bucket 0 receives the two lines a and a, bucket 1 the
    lines b and c (each line with its line feed, as the file object
    yields it); after the deduplication bucket 0 contributes a once, and
    the empty string that follows the last line feed of its file, and
    bucket 1 contributes b and c. *)
Theorem big_dedup_file_round_robin
    (in_fname out_fname content : str) (n : nat) (w : World) :
  1 <= n ->
  files w !! in_fname = Some content ->
  (forall k, k < n -> in_fname <> temp_name (Z.of_nat k)
                      /\ out_fname <> temp_name (Z.of_nat k)) ->
  let lines := iter_lines (translate_newlines content) in
  exists Ls w',
    big_dedup_file in_fname out_fname (Z.of_nat n) w = (Ok tt, w')
    /\ (forall k, k < n ->
         files w' !! temp_name (Z.of_nat k)
         = Some (concat (map snd (filter (fun il => fst il mod n = k)
                                   (zip (seq 0 (length lines)) lines)))))
    /\ files w' !! out_fname = Some (concat (map (join [NL]) Ls))
    /\ Forall2 (fun L k =>
                  L ≡ₚ elements (list_to_set
                         (split NL (concat (bucket_lines n k lines))) : gset str))
         Ls (seq 0 n)
    /\ (n = 2 ->
        split NL (translate_newlines content) = [u "a"; u "b"; u "a"; u "c"] ->
        bucket_lines 2 0 lines = [u ("a" ++ nl); u ("a" ++ nl)]
        /\ bucket_lines 2 1 lines = [u ("b" ++ nl); u "c"]
        /\ exists L0 L1, Ls = [L0; L1]
            /\ L0 ≡ₚ [u "a"; []]
            /\ L1 ≡ₚ [u "b"; u "c"]
            /\ length (filter (fun l => l = u "a") L0) = 1).
Proof.
  intros Hn Hin Hne lines.
  destruct (big_dedup_file_spec in_fname out_fname content n w Hn Hin Hne)
    as (Ls & w' & E & Htemp & Hout & P).
  exists Ls, w'. split; [exact E|]. split; [exact Htemp|]. split; [exact Hout|].
  split; [exact P|].
  intros -> Hs.
  assert (Hc : translate_newlines content = abac).
  { rewrite <- (join_split NL (translate_newlines content)), Hs. reflexivity. }
  fold lines in P. unfold lines in *. rewrite Hc in *.
  split; [reflexivity|]. split; [reflexivity|].
  inversion P as [|L0 k0 Ls' ks' P0 P' EL Ek]; subst.
  inversion P' as [|L1 k1 Ls'' ks'' P1 P'' EL Ek]; subst.
  inversion P''; subst.
  exists L0, L1. split; [reflexivity|].
  split; [|split].
  - rewrite P0, elements_list_to_set_dups. reflexivity.
  - rewrite P1, elements_list_to_set_dups. reflexivity.
  - rewrite P0, elements_list_to_set_dups. reflexivity.
Qed.

(** C9. The output of [big_dedup_file] is what the buckets give, bucket
    after bucket, each the lines of its set in some order joined by line
    feeds, with nothing written between two buckets.  So the last line of
    one bucket and the first line of the next can come out as one line: on
    the input a, line feed, b with two buckets and the draw 0, bucket 0
    gives the empty line and then a, bucket 1 gives b, and the output is
    the empty line followed by the line ab. *)
Theorem big_dedup_file_concat :
  (forall (in_fname out_fname content : str) (n : nat) (w : World),
    1 <= n ->
    files w !! in_fname = Some content ->
    (forall k, k < n -> in_fname <> temp_name (Z.of_nat k)
                        /\ out_fname <> temp_name (Z.of_nat k)) ->
    let lines := iter_lines (translate_newlines content) in
    exists Ls w',
      big_dedup_file in_fname out_fname (Z.of_nat n) w = (Ok tt, w')
      /\ files w' !! out_fname = Some (concat (map (join [NL]) Ls))
      /\ Forall2 (fun L k =>
                    L ≡ₚ elements (list_to_set
                           (split NL (concat (bucket_lines n k lines))) : gset str))
           Ls (seq 0 n))
  /\ (exists (w w' : World) (L0 L1 : list str),
        files w !! u "in.txt" = Some (u ("a" ++ nl ++ "b"))
        /\ @big_dedup_file elements_order (u "in.txt") (u "out.txt") 2 w = (Ok tt, w')
        /\ files w' !! temp_name 0 = Some (u ("a" ++ nl))
        /\ files w' !! temp_name 1 = Some (u "b")
        /\ L0 ≡ₚ elements (list_to_set (split NL (u ("a" ++ nl))) : gset str)
        /\ L1 ≡ₚ elements (list_to_set (split NL (u "b")) : gset str)
        /\ files w' !! u "out.txt" = Some (join [NL] L0 ++ join [NL] L1)
        /\ split NL (join [NL] L0 ++ join [NL] L1) = [[]; u "a" ++ u "b"]
        /\ last L0 = Some (u "a") /\ head L1 = Some (u "b")).
Proof.
  split.
  - intros in_fname out_fname content n w Hn Hin Hne lines.
    destruct (big_dedup_file_spec in_fname out_fname content n w Hn Hin Hne)
      as (Ls & w' & E & Htemp & Hout & P).
    exists Ls, w'. split; [exact E|]. split; [exact Hout|exact P].
  - exists (world_with_rng (u "in.txt") (u ("a" ++ nl ++ "b")) [0]).
    eexists. exists [[]; u "a"], [u "b"].
    split; [vm_compute; reflexivity|].
    split; [vm_compute; reflexivity|].
    split; [vm_compute; reflexivity|].
    split; [vm_compute; reflexivity|].
    split.
    { rewrite elements_list_to_set_dups.
      replace (remove_dups (split NL (u ("a" ++ nl)))) with [u "a"; []]
        by (vm_compute; reflexivity).
      apply perm_swap. }
    split.
    { rewrite elements_list_to_set_dups. reflexivity. }
    split; [vm_compute; reflexivity|].
    split; [vm_compute; reflexivity|].
    split; reflexivity.
Qed.

(** C2. On a file whose content splits into the lines a, b, a, c,
    [dedup_file] returns 4 lines and 1 duplicate, and the output file is
    a, b and c, each once, in some order, joined by line feeds. *)
Theorem dedup_file_abac (in_fname out_fname content : str) (w : World) :
  in_fname <> out_fname ->
  files w !! in_fname = Some content ->
  split NL (translate_newlines content) = [u "a"; u "b"; u "a"; u "c"] ->
  exists out w',
    dedup_file in_fname out_fname w = (Ok (4, 1)%Z, w')
    /\ files w' !! out_fname = Some (join [NL] out)
    /\ out ≡ₚ [u "a"; u "b"; u "c"].
Proof.
  intros Hne Hin Hsplit.
  destruct (dedup_file_spec in_fname out_fname content w Hne Hin)
    as (out & w' & E & Hout & P).
  rewrite Hsplit in E, P.
  exists out, w'. split; [|split]; [|exact Hout|].
  - rewrite E. rewrite size_list_to_set_dups. reflexivity.
  - rewrite P. rewrite elements_list_to_set_dups.
    replace (remove_dups [u "a"; u "b"; u "a"; u "c"])
      with [u "b"; u "a"; u "c"] by (vm_compute; reflexivity).
    apply perm_swap.
Qed.

(** The set of a list with one more element at its end. *)
Lemma size_list_to_set_snoc (l : list str) (x : str) :
  size (list_to_set (l ++ [x]) : gset str)
  = size (list_to_set l : gset str) + (if bool_decide (x ∈ l) then 0 else 1).
Proof.
  rewrite list_to_set_app_L. cbn [list_to_set foldr].
  rewrite (right_id_L ∅ (∪) {[x]}).
  destruct (bool_decide_reflect (x ∈ l)) as [Hx|Hx].
  - replace (list_to_set l ∪ {[x]} : gset str) with (list_to_set l : gset str);
      [lia|].
    apply set_eq. intros y. rewrite elem_of_union, elem_of_singleton.
    split; [now left|]. intros [Hy| ->]; [exact Hy|].
    now apply elem_of_list_to_set.
  - rewrite size_union, size_singleton; [reflexivity|].
    intros y Hy Hy'. apply elem_of_singleton in Hy' as ->.
    now apply elem_of_list_to_set in Hy.
Qed.

(** C10. [get_lines] splits on the line feed, so a content that ends in
    one has a last, empty line: it is counted in the total and takes
    part in the deduplication like any other line.  The lines written are
    the lines of the content and the empty line, each once, in some
    order; the number of duplicates is the total less the lines written:
    the duplicates among the lines before the last line feed, and one
    more when an empty line is among them.  For the content "a" followed
    by a line feed, [dedup_file] reports 2 lines and 0 duplicates and
    writes the two lines "a" and the empty line in some order; for the
    content that is one line feed it reports 2 lines and 1 duplicate and
    writes the empty line alone. *)
Theorem dedup_file_trailing_newline (in_fname out_fname content s : str) (w : World) :
  in_fname <> out_fname ->
  files w !! in_fname = Some content ->
  translate_newlines content = s ++ [NL] ->
  exists out w' n d,
    dedup_file in_fname out_fname w = (Ok (n, d), w')
    /\ n = (Z.of_nat (length (split NL s)) + 1)%Z
    /\ out ≡ₚ elements (list_to_set (split NL s ++ [[]]) : gset str)
    /\ NoDup out
    /\ [] ∈ out
    /\ d = (n - Z.of_nat (length out))%Z
    /\ d = (Z.of_nat (length (split NL s))
            - Z.of_nat (size (list_to_set (split NL s) : gset str))
            + (if bool_decide ([] ∈ split NL s) then 1 else 0))%Z
    /\ files w' !! out_fname = Some (join [NL] out)
    /\ (s = u "a" -> n = 2%Z /\ d = 0%Z /\ out ≡ₚ [u "a"; []])
    /\ (s = [] -> n = 2%Z /\ d = 1%Z /\ out = [[]]).
Proof.
  intros Hne Hin Hs.
  destruct (dedup_file_spec in_fname out_fname content w Hne Hin)
    as (out & w' & E & Hout & P).
  rewrite Hs, split_app_sep in E, P.
  assert (Hlen : length out = size (list_to_set (split NL s ++ [[]]) : gset str)).
  { rewrite P. reflexivity. }
  eexists out, w', _, _. split; [exact E|].
  split; [rewrite length_app; simpl; lia|].
  split; [exact P|].
  split; [rewrite P; apply NoDup_elements|].
  split.
  { rewrite P. apply elem_of_elements, elem_of_list_to_set.
    apply elem_of_app. right. apply list_elem_of_singleton. reflexivity. }
  split; [now rewrite Hlen|].
  split.
  { rewrite size_list_to_set_snoc, length_app. cbn [length].
    destruct (bool_decide _); lia. }
  split; [exact Hout|].
  split.
  - intros ->. split; [reflexivity|]. split.
    + rewrite size_list_to_set_dups. reflexivity.
    + rewrite P, elements_list_to_set_dups. reflexivity.
  - intros ->. split; [reflexivity|]. split.
    + rewrite size_list_to_set_dups. reflexivity.
    + apply Permutation_singleton_r.
      rewrite P, elements_list_to_set_dups. reflexivity.
Qed.

End DeduplicateFacts.

Lemma dedup_file_abac_witness :
  u "in.txt" <> u "out.txt"
  /\ files (world_with (u "in.txt") abac) !! u "in.txt" = Some abac
  /\ split NL (translate_newlines abac) = [u "a"; u "b"; u "a"; u "c"]
  /\ exists out w',
      @dedup_file elements_order (u "in.txt") (u "out.txt")
        (world_with (u "in.txt") abac) = (Ok (4, 1)%Z, w')
      /\ files w' !! u "out.txt" = Some (join [NL] out)
      /\ out ≡ₚ [u "a"; u "b"; u "c"].
Proof.
  assert (Hne : u "in.txt" <> u "out.txt") by (vm_compute; discriminate).
  assert (Hin : files (world_with (u "in.txt") abac) !! u "in.txt" = Some abac)
    by (vm_compute; reflexivity).
  assert (Hs : split NL (translate_newlines abac) = [u "a"; u "b"; u "a"; u "c"])
    by (vm_compute; reflexivity).
  split; [exact Hne|]. split; [exact Hin|]. split; [exact Hs|].
  exact (@dedup_file_abac elements_order _ _ _ _ Hne Hin Hs).
Defined.

Lemma dedup_file_trailing_newline_witness :
  u "in.txt" <> u "out.txt"
  /\ files (world_with (u "in.txt") (u ("a" ++ nl))) !! u "in.txt" = Some (u ("a" ++ nl))
  /\ translate_newlines (u ("a" ++ nl)) = u "a" ++ [NL]
  /\ exists out w',
      @dedup_file elements_order (u "in.txt") (u "out.txt")
        (world_with (u "in.txt") (u ("a" ++ nl))) = (Ok (2, 0)%Z, w')
      /\ NoDup out
      /\ [] ∈ out
      /\ files w' !! u "out.txt" = Some (join [NL] out)
      /\ out ≡ₚ [u "a"; []].
Proof.
  assert (Hne : u "in.txt" <> u "out.txt") by (vm_compute; discriminate).
  assert (Hin : files (world_with (u "in.txt") (u ("a" ++ nl))) !! u "in.txt"
                = Some (u ("a" ++ nl))) by (vm_compute; reflexivity).
  assert (Hs : translate_newlines (u ("a" ++ nl)) = u "a" ++ [NL])
    by (vm_compute; reflexivity).
  split; [exact Hne|]. split; [exact Hin|]. split; [exact Hs|].
  destruct (@dedup_file_trailing_newline elements_order _ _ _ _ _ Hne Hin Hs)
    as (out & w' & n & d & E & _ & _ & Hnd & Hmem & _ & _ & Hout & Ha & _).
  destruct (Ha eq_refl) as (-> & -> & Hperm).
  exists out, w'. split; [exact E|]. split; [exact Hnd|]. split; [exact Hmem|].
  split; [exact Hout|exact Hperm].
Defined.

Lemma big_dedup_file_round_robin_witness :
  1 <= 2
  /\ files (world_with (u "in.txt") abac) !! u "in.txt" = Some abac
  /\ (forall k, k < 2 -> u "in.txt" <> temp_name (Z.of_nat k)
                         /\ u "out.txt" <> temp_name (Z.of_nat k))
  /\ exists Ls w',
      @big_dedup_file elements_order (u "in.txt") (u "out.txt") (Z.of_nat 2)
        (world_with (u "in.txt") abac) = (Ok tt, w')
      /\ files w' !! temp_name 0 = Some (u ("a" ++ nl ++ "a" ++ nl))
      /\ files w' !! temp_name 1 = Some (u ("b" ++ nl ++ "c"))
      /\ files w' !! u "out.txt" = Some (concat (map (join [NL]) Ls))
      /\ exists L0 L1, Ls = [L0; L1]
          /\ L0 ≡ₚ [u "a"; []]
          /\ L1 ≡ₚ [u "b"; u "c"]
          /\ length (filter (fun l => l = u "a") L0) = 1.
Proof.
  assert (Hn : 1 <= 2) by lia.
  assert (Hin : files (world_with (u "in.txt") abac) !! u "in.txt" = Some abac)
    by (vm_compute; reflexivity).
  assert (Hne : forall k, k < 2 -> u "in.txt" <> temp_name (Z.of_nat k)
                                   /\ u "out.txt" <> temp_name (Z.of_nat k)).
  { intros [|[|k]] Hk; [split; vm_compute; discriminate ..|lia]. }
  split; [exact Hn|]. split; [exact Hin|]. split; [exact Hne|].
  destruct (@big_dedup_file_round_robin elements_order _ _ _ _ _ Hn Hin Hne)
    as (Ls & w' & E & Htemp & Hout & _ & Hex).
  exists Ls, w'. split; [exact E|].
  split; [exact (Htemp 0 ltac:(lia))|].
  split; [exact (Htemp 1 ltac:(lia))|].
  split; [exact Hout|].
  exact (proj2 (proj2 (Hex eq_refl eq_refl))).
Defined.

Lemma big_dedup_file_concat_witness :
  1 <= 2
  /\ files (world_with (u "in.txt") abac) !! u "in.txt" = Some abac
  /\ (forall k, k < 2 -> u "in.txt" <> temp_name (Z.of_nat k)
                         /\ u "out.txt" <> temp_name (Z.of_nat k))
  /\ exists Ls w',
      @big_dedup_file elements_order (u "in.txt") (u "out.txt") (Z.of_nat 2)
        (world_with (u "in.txt") abac) = (Ok tt, w')
      /\ files w' !! u "out.txt" = Some (concat (map (join [NL]) Ls))
      /\ Forall2 (fun L k =>
                    L ≡ₚ elements (list_to_set
                           (split NL (concat (bucket_lines 2 k
                              (iter_lines (translate_newlines abac))))) : gset str))
           Ls (seq 0 2).
Proof.
  assert (Hn : 1 <= 2) by lia.
  assert (Hin : files (world_with (u "in.txt") abac) !! u "in.txt" = Some abac)
    by (vm_compute; reflexivity).
  assert (Hne : forall k, k < 2 -> u "in.txt" <> temp_name (Z.of_nat k)
                                   /\ u "out.txt" <> temp_name (Z.of_nat k)).
  { intros [|[|k]] Hk; [split; vm_compute; discriminate ..|lia]. }
  split; [exact Hn|]. split; [exact Hin|]. split; [exact Hne|].
  exact (proj1 (@big_dedup_file_concat elements_order) _ _ _ _ _ Hn Hin Hne).
Defined.

(** ** clean_subs.py: the strippers *)

Lemma replace_from_char (a : char) (new s : str) :
  replace_from [a] new 0 s
  = flat_map (fun c => if N.eqb a c then new else [c]) s.
Proof.
  induction s as [|c s IH]; simpl; [reflexivity|].
  destruct (N.eqb a c); simpl; now rewrite IH.
Qed.

Lemma normalize_timestamp_spec (value : str) :
  normalize_timestamp value
  = flat_map (fun c => if N.eqb c 58 then [] else if N.eqb c 44 then [46%N] else [c])
      value.
Proof.
  unfold normalize_timestamp.
  change (u ",") with [44%N]. change (u ".") with [46%N]. change (u ":") with [58%N].
  unfold replace. rewrite !replace_from_char.
  induction value as [|c v IH]; [reflexivity|].
  cbn [flat_map].
  destruct (N.eqb_spec 58 c) as [E|E], (N.eqb_spec c 58) as [E'|E']; try congruence.
  - exact IH.
  - cbn [app flat_map]. rewrite IH.
    destruct (N.eqb_spec 44 c) as [F|F], (N.eqb_spec c 44) as [F'|F']; try congruence;
      reflexivity.
Qed.

Lemma join_nil (l : list str) : join [] l = concat l.
Proof.
  induction l as [|x l IH]; [reflexivity|].
  simpl. destruct l; [now rewrite app_nil_r|]. now rewrite <- IH.
Qed.

Lemma iter_children (e : Element) : iter e = e :: flat_map iter (children e).
Proof.
  destruct e as [t a tx cs tl]. reflexivity.
Qed.

Lemma append_if_app cond x (stripped : list str) :
  append_if cond x stripped = stripped ++ (if cond then [x] else []).
Proof. destruct cond; [reflexivity|]. now rewrite app_nil_r. Qed.

Lemma foldl_emit {A} (emit : A -> list str) (step : list str -> A -> list str)
    (nodes : list A) :
  (forall acc node, step acc node = acc ++ emit node) ->
  forall acc, foldl step acc nodes = acc ++ flat_map emit nodes.
Proof.
  intros Hstep. induction nodes as [|n nodes IH]; intros acc; simpl.
  - now rewrite app_nil_r.
  - now rewrite IH, Hstep, <- app_assoc.
Qed.

Section Emit.
Variable fw : Element -> str.

Lemma emit_sentence (words : list (str * str * str)) :
  flat_map (emit fw) (iter (sentence_of words))
  = [NL] :: map (fun w => fw (word (fst (fst w)) (snd (fst w)) (snd w) None)) words.
Proof.
  rewrite iter_children. cbn [flat_map]. unfold emit at 1.
  change (tag_is (sentence_of words) (u "s")) with true.
  change (tag_is (sentence_of words) (u "w")) with false.
  cbn [app]. f_equal. unfold sentence_of. cbn [children].
  induction words as [|w words IH]; [reflexivity|].
  cbn [map flat_map]. rewrite flat_map_app, IH. reflexivity.
Qed.

Lemma emit_document (sentences : list (list (str * str * str))) :
  concat (flat_map (emit fw) (iter (document_of sentences)))
  = flat_map (fun words =>
                [NL] ++ flat_map (fun w => fw (word (fst (fst w)) (snd (fst w)) (snd w) None))
                          words) sentences.
Proof.
  rewrite iter_children. cbn [flat_map]. unfold emit at 1.
  change (tag_is (document_of sentences) (u "s")) with false.
  change (tag_is (document_of sentences) (u "w")) with false.
  cbn [app]. unfold document_of. cbn [children].
  induction sentences as [|ws sentences IH]; [reflexivity|].
  cbn [map flat_map]. rewrite flat_map_app, concat_app, IH. f_equal.
  rewrite emit_sentence. cbn [concat app]. f_equal.
  clear. induction ws as [|w ws IH]; [reflexivity|].
  cbn [map concat flat_map]. now rewrite IH.
Qed.

End Emit.

(** What the two strippers give for a document of sentences of words:
    for every sentence a line feed, then its words, each followed by an
    underscore, its tag and a space. *)
Lemma strip_upos_document (sentences : list (list (str * str * str))) :
  strip_upos (document_of sentences)
  = flat_map (fun words =>
                [NL] ++ flat_map (fun w => fst (fst w) ++ u "_" ++ snd (fst w) ++ u " ")
                          words) sentences.
Proof.
  unfold strip_upos. rewrite join_nil.
  rewrite (foldl_emit (emit (fun node =>
             fmt_opt (text node) ++ u "_" ++ fmt_opt (get node (u "upos")) ++ u " "))).
  2:{ intros acc node. unfold emit. now rewrite !append_if_app, <- app_assoc. }
  cbn [app]. rewrite emit_document.
  apply flat_map_ext. intros ws. reflexivity.
Qed.

Lemma strip_lemma_document (sentences : list (list (str * str * str))) :
  strip_lemma (document_of sentences)
  = flat_map (fun words =>
                [NL] ++ flat_map (fun w => snd w ++ u "_" ++ snd (fst w) ++ u " ")
                          words) sentences.
Proof.
  unfold strip_lemma. rewrite join_nil.
  rewrite (foldl_emit (emit (fun node =>
             fmt_opt (get node (u "lemma")) ++ u "_" ++ fmt_opt (get node (u "upos"))
             ++ u " "))).
  2:{ intros acc node. unfold emit. now rewrite !append_if_app, <- app_assoc. }
  cbn [app]. rewrite emit_document.
  apply flat_map_ext. intros ws. reflexivity.
Qed.

(** C4, as the code has it.  For the sentence element with the two words
    cat (NOUN, lemma cat) and sat (VERB, lemma sit), alone or as the only
    child of a document element, [strip_upos] gives a line feed and then
    "cat_NOUN sat_VERB ", [strip_lemma] a line feed and then
    "cat_NOUN sit_VERB ": the line break of a sentence comes before its
    words.  In general, for a document of sentences of words, every
    sentence gives a line feed followed by its words, each as
    word_POSTAG (or lemma_POSTAG) and a space. *)
Theorem strip_upos_lemma_cat_sat :
  (forall (t0 t1 t2 t3 : option str),
     let doc := Elem (Some (u "document")) ∅ None [cat_sat t0 t1 t2 t3] None in
     strip_upos (cat_sat t0 t1 t2 t3) = [NL] ++ u "cat_NOUN sat_VERB "
     /\ strip_lemma (cat_sat t0 t1 t2 t3) = [NL] ++ u "cat_NOUN sit_VERB "
     /\ strip_upos doc = [NL] ++ u "cat_NOUN sat_VERB "
     /\ strip_lemma doc = [NL] ++ u "cat_NOUN sit_VERB ")
  /\ (forall sentences : list (list (str * str * str)),
       strip_upos (document_of sentences)
       = flat_map (fun words =>
           [NL] ++ flat_map (fun w => fst (fst w) ++ u "_" ++ snd (fst w) ++ u " ")
                     words) sentences
       /\ strip_lemma (document_of sentences)
         = flat_map (fun words =>
             [NL] ++ flat_map (fun w => snd w ++ u "_" ++ snd (fst w) ++ u " ")
                       words) sentences).
Proof.
  split.
  - intros. repeat split; vm_compute; reflexivity.
  - intros sentences. split; [apply strip_upos_document|apply strip_lemma_document].
Qed.

(** C4 as stated fails: the output of [strip_upos] is not
    "cat_NOUN sat_VERB " (it starts with the line feed of the sentence). *)
Lemma strip_upos_lemma_cat_sat_counterexample :
  ~ (strip_upos (cat_sat None None None None) = u "cat_NOUN sat_VERB "
     /\ strip_lemma (cat_sat None None None None) = u "cat_NOUN sit_VERB ").
Proof. intros [E _]. vm_compute in E. discriminate E. Qed.

(** C6. The timestamp of the timestamped encoding: "00:01:02,345" becomes
    "000102.345"; in general every colon is dropped and every comma
    becomes a point, the other characters stay as they are.  On a
    sentence that starts with a time element of that value, [strip_viz]
    gives the line "[000102.345] " followed by the text of the sentence. *)
Theorem strip_viz_timestamp :
  normalize_timestamp (u "00:01:02,345") = u "000102.345"
  /\ (forall value,
        normalize_timestamp value
        = flat_map (fun c => if N.eqb c 58 then []
                             else if N.eqb c 44 then [46%N] else [c]) value)
  /\ strip_viz (timed_sentence (u "00:01:02,345") (u "Hello there"))
     = Ok (u "[000102.345] Hello there").
Proof.
  split; [vm_compute; reflexivity|].
  split; [exact normalize_timestamp_spec|].
  vm_compute; reflexivity.
Qed.

(** ** clean_subs.py: punctuation *)

Section RegexFacts.
Context `{Unicode}.

(** How the matcher unfolds. *)
Lemma rep_nil {T} a g min (k : str -> option T) :
  rep a g min [] k
  = match min with
    | S _ => None
    | O => if g then k [] else or_else (k []) None
    end.
Proof. destruct min; [|reflexivity]. now destruct g. Qed.

Lemma rep_cons {T} a g min c s (k : str -> option T) :
  rep a g min (c :: s) k
  = let more := if atom_matches a c then rep a g (pred min) s k else None in
    match min with
    | S _ => more
    | O => if g then or_else more (k (c :: s)) else or_else (k (c :: s)) more
    end.
Proof. now destruct min. Qed.

(** When the rest of the pattern fails wherever it is tried, the repeat
    fails. *)
Lemma rep_none {T} a g (k : str -> option T) (s : str) : forall min,
  (forall j, k (drop j s) = None) -> rep a g min s k = None.
Proof.
  induction s as [|c s IH]; intros min Hk.
  - rewrite rep_nil. specialize (Hk 0). simpl in Hk. rewrite Hk.
    destruct min; [now destruct g|reflexivity].
  - rewrite rep_cons.
    assert (Hmore : (if atom_matches a c then rep a g (pred min) s k else None) = None).
    { destruct (atom_matches a c); [|reflexivity].
      apply IH. intros j. exact (Hk (S j)). }
    cbv zeta. rewrite Hmore. pose proof (Hk 0) as H0. simpl in H0. rewrite H0.
    destruct min; [now destruct g|reflexivity].
Qed.

(** Where the pattern matches nowhere, [sub] changes nothing. *)
Lemma sub_no_match (Q : str -> Prop) (r : regex) (template : list template_item) :
  (forall c s, Q (c :: s) -> Q s) ->
  (forall s, Q s -> match_here r false s = None) ->
  forall s, Q s -> sub r template s = s.
Proof.
  intros Htail Hnone. unfold sub.
  induction s as [|c s IH]; intros Hs; simpl.
  - now rewrite (Hnone [] Hs).
  - rewrite (Hnone _ Hs). f_equal. apply IH. exact (Htail _ _ Hs).
Qed.

(** What the filter keeps is a letter, a digit, a space or the
    underscore, and none of the characters the rewrites look for. *)
Lemma keeps_plain ioformat c :
  keeps ioformat c = true -> isalnum c || isspace c || N.eqb c (ch "_") = true.
Proof.
  unfold keeps.
  destruct (bool_decide (ioformat = u "txt")); [intros ->; reflexivity|].
  destruct (bool_decide (ioformat = u "lemma") || bool_decide (ioformat = u "upos"));
    [easy|intros ->; reflexivity].
Qed.

Lemma plain_not_special c x :
  isalnum c || isspace c || N.eqb c (ch "_") = true ->
  x ∈ [60; 62; 40; 41; 46; 33; 63; 58; 59; 45; 47; 39; 93; 8211; 8212]%N ->
  N.eqb c x = false.
Proof.
  intros Hp Hx. apply N.eqb_neq. intros ->.
  unfold isalnum, isspace in Hp.
  repeat (apply elem_of_cons in Hx as [->|Hx]);
    try (vm_compute in Hp; discriminate Hp);
    try (inversion Hx; fail).
  - destruct (uc_dashes 8211%N (or_introl eq_refl)) as [Ea Es].
    cbn in Hp. rewrite Ea, Es in Hp. discriminate Hp.
  - destruct (uc_dashes 8212%N (or_intror eq_refl)) as [Ea Es].
    cbn in Hp. rewrite Ea, Es in Hp. discriminate Hp.
Qed.

Lemma lit_not_letter c x :
  (x < 65 \/ 122 < x \/ 90 < x < 97)%N ->
  atom_matches (Lit x) c = N.eqb c x.
Proof.
  intros Hx. unfold atom_matches, ascii_lower, in_range.
  destruct (N.leb_spec 65 c), (N.leb_spec c 90), (N.leb_spec 65 x), (N.leb_spec x 90);
    simpl; try lia;
    destruct (N.eqb_spec c x), (N.eqb_spec (c + 32) x); try lia; try reflexivity.
Qed.

Lemma space_not_plain_newline c : N.eqb c NL = true -> isspace c = true.
Proof. intros ->%N.eqb_eq. reflexivity. Qed.

Lemma Forall_plain_tail c s : Forall plain (c :: s) -> Forall plain s.
Proof. intros Hs. now inversion Hs. Qed.

Lemma rmatch_atom_fails {T} a (s : str) g (k : str -> gmap nat str -> option T) :
  (forall c s', s = c :: s' -> atom_matches a c = false) ->
  rmatch (Atom a) s g k = None.
Proof.
  destruct s as [|c s']; intros Hc; simpl; [reflexivity|].
  now rewrite (Hc c s' eq_refl).
Qed.

Lemma rmatch_first_atom_fails {T} a r (s : str) g (k : str -> gmap nat str -> option T) :
  (forall c s', s = c :: s' -> atom_matches a c = false) ->
  rmatch (Seq (Atom a) r) s g k = None.
Proof.
  destruct s as [|c s']; intros Hc; simpl; [reflexivity|].
  now rewrite (Hc c s' eq_refl).
Qed.

Lemma rmatch_second_atom_fails {T} a1 a2 r (s : str) g
    (k : str -> gmap nat str -> option T) :
  (forall c, c ∈ s -> atom_matches a2 c = false) ->
  rmatch (Seq (Atom a1) (Seq (Atom a2) r)) s g k = None.
Proof.
  intros Hc. destruct s as [|c1 s']; [reflexivity|].
  change (rmatch (Seq (Atom a1) (Seq (Atom a2) r)) (c1 :: s') g k)
    with (if atom_matches a1 c1 then rmatch (Seq (Atom a2) r) s' g k else None).
  destruct (atom_matches a1 c1); [|reflexivity].
  apply rmatch_first_atom_fails. intros c s'' ->. apply Hc. right. left.
Qed.

(** The rewrites that find nothing in a clean text. *)
Lemma sub_tags_plain s : Forall plain s -> sub re_tags [] s = s.
Proof.
  apply (sub_no_match (Forall plain)); [apply Forall_plain_tail|].
  intros s' Hs'. apply rmatch_first_atom_fails. intros c s'' ->.
  rewrite lit_not_letter by (vm_compute; left; reflexivity).
  apply plain_not_special; [now inversion Hs'|]. set_solver.
Qed.

Lemma sub_parentheses_plain s : Forall plain s -> sub re_parentheses [] s = s.
Proof.
  apply (sub_no_match (Forall plain)); [apply Forall_plain_tail|].
  intros s' Hs'. apply rmatch_second_atom_fails. intros c Hc.
  rewrite lit_not_letter by (vm_compute; left; reflexivity).
  rewrite Forall_forall in Hs'.
  apply plain_not_special; [now apply Hs'|]. set_solver.
Qed.

Lemma hyphen_plain c : plain c -> atom_matches
    (OneOf [Chr (ch "-"); Chr 8211%N; Chr 8212%N; Chr (ch "/"); Chr (ch "'")]) c = false.
Proof.
  intros Hc. cbn [atom_matches existsb item_matches].
  rewrite !(plain_not_special c) by (exact Hc || (vm_compute; set_solver)).
  reflexivity.
Qed.

Lemma sub_hyphens_plain template s : Forall plain s -> sub re_hyphens template s = s.
Proof.
  apply (sub_no_match (Forall plain)); [apply Forall_plain_tail|].
  intros s' Hs'. apply rmatch_atom_fails. intros c s'' ->.
  apply hyphen_plain. now inversion Hs'.
Qed.

Lemma no_http_tail c s : no_http (c :: s) = true -> no_http s = true.
Proof. simpl. now intros [_ Hs]%andb_true_iff. Qed.

Lemma sub_links_no_http s : no_http s = true -> sub re_links [] s = s.
Proof.
  apply (sub_no_match (fun s => no_http s = true)); [apply no_http_tail|].
  intros s' Hs'.
  assert (Hst : starts_http s' = false).
  { destruct s' as [|c s'']; [reflexivity|].
    simpl in Hs'. apply andb_true_iff in Hs' as [Hn _]. now apply negb_true_iff in Hn. }
  unfold match_here, re_links. cbn [seq_list].
  destruct s' as [|c1 [|c2 [|c3 [|c4 s'']]]]; cbn [rmatch];
    repeat match goal with
           | |- context [if atom_matches ?a ?c then _ else _] =>
               destruct (atom_matches a c) eqn:?
           end; try reflexivity.
  unfold starts_http in Hst.
  repeat match goal with E : atom_matches _ _ = true |- _ => rewrite E in Hst; clear E end.
  discriminate Hst.
Qed.

Lemma no_adjacent_spaces_tail c s :
  no_adjacent_spaces (c :: s) = true -> no_adjacent_spaces s = true.
Proof. destruct s as [|b s']; [reflexivity|]. simpl. now intros [_ Hs]%andb_true_iff. Qed.

Lemma no_adjacent_spaces_head a b s :
  no_adjacent_spaces (a :: b :: s) = true -> isspace a && isspace b = false.
Proof. simpl. intros [Hn _]%andb_true_iff. now apply negb_true_iff in Hn. Qed.

Lemma space_atom c : atom_matches (OneOf [Space]) c = isspace c.
Proof. cbn. apply orb_false_r. Qed.

Lemma sub_spaces_no_adjacent template s :
  no_adjacent_spaces s = true -> sub re_spaces template s = s.
Proof.
  apply (sub_no_match (fun s => no_adjacent_spaces s = true));
    [apply no_adjacent_spaces_tail|].
  intros s' Hs'. unfold match_here, re_spaces. cbn [rmatch].
  destruct s' as [|c1 [|c2 s'']].
  - now rewrite rep_nil.
  - rewrite rep_cons. cbv zeta. cbn [pred]. rewrite rep_nil.
    now destruct (atom_matches _ c1).
  - apply no_adjacent_spaces_head in Hs'.
    rewrite rep_cons. cbv zeta. cbn [pred]. rewrite rep_cons. cbv zeta.
    rewrite !space_atom.
    destruct (isspace c1); [|reflexivity].
    destruct (isspace c2); [discriminate Hs'|reflexivity].
Qed.

Lemma plain_newlines n : Forall plain (replicate n NL).
Proof. induction n; constructor; [reflexivity|assumption]. Qed.

Lemma sub_from_cons0 r template c s :
  sub_from r template 0 (c :: s)
  = match match_here r false (c :: s) with
    | Some (S n, groups) => expand template groups ++ sub_from r template n s
    | Some (O, groups) =>
        expand template groups ++
        match match_here r true (c :: s) with
        | Some (S n, groups') => expand template groups' ++ sub_from r template n s
        | _ => c :: sub_from r template 0 s
        end
    | None => c :: sub_from r template 0 s
    end.
Proof. reflexivity. Qed.

(** The sentence rule on a clean text: there is no punctuation to break
    at, so only the [$] branch matches, before the last line feed and at
    the end. *)
Lemma punctuation_plain c :
  plain c -> atom_matches (OneOf (chrs ".!?:;")) c = false.
Proof.
  intros Hc. cbn [atom_matches existsb item_matches chrs u map list_ascii_of_string].
  change (N_of_ascii ".") with 46%N. change (N_of_ascii "!") with 33%N.
  change (N_of_ascii "?") with 63%N. change (N_of_ascii ":") with 58%N.
  change (N_of_ascii ";") with 59%N.
  rewrite !(plain_not_special c) by (exact Hc || set_solver).
  reflexivity.
Qed.

Lemma match_sentences_plain must_advance s :
  Forall plain s ->
  match_here re_sentences must_advance s
  = if (bool_decide (s = []) || bool_decide (s = [NL])) && negb must_advance
    then Some (0, ∅) else None.
Proof.
  intros Hs. unfold match_here, re_sentences. cbn [seq_list rmatch].
  rewrite rep_none.
  - cbn [or_else]. rewrite Nat.sub_diag.
    destruct (bool_decide (s = []) || bool_decide (s = [NL])); [|reflexivity].
    now destruct must_advance.
  - intros j. rewrite Forall_forall in Hs.
    destruct (drop j s) as [|c s'] eqn:Ed.
    + now rewrite rep_nil.
    + rewrite rep_cons. cbv zeta. rewrite punctuation_plain; [reflexivity|].
      apply Hs. apply (subseteq_drop j). rewrite Ed. left.
Qed.

Lemma sub_sentences_plain s0 :
  Forall plain s0 ->
  sub re_sentences [Ref 1; Txt [NL]] (s0 ++ [NL]) = s0 ++ [NL; NL; NL].
Proof.
  unfold sub. induction s0 as [|c s0 IH]; intros Hs.
  - vm_compute. reflexivity.
  - cbn [app]. rewrite sub_from_cons0.
    rewrite match_sentences_plain.
    2:{ apply (Forall_app _ (c :: s0) [NL]). split; [exact Hs|].
        apply (plain_newlines 1). }
    replace (bool_decide (c :: s0 ++ [NL] = [NL])) with false.
    2:{ symmetry. apply bool_decide_eq_false. intros E.
        apply (f_equal length) in E. rewrite length_cons, length_app in E.
        simpl in E. lia. }
    cbn. f_equal. apply IH. now inversion Hs.
Qed.

(** The empty-line rule where no two spaces touch: a lone line feed is
    replaced by itself, and the three line feeds the sentence rule left
    at the end become one. *)
Lemma newline_atom c : atom_matches (Lit NL) c = N.eqb c NL.
Proof. apply lit_not_letter. vm_compute. left. reflexivity. Qed.

Lemma not_space_not_newline c : isspace c = false -> N.eqb c NL = false.
Proof.
  intros Hc. destruct (N.eqb_spec c NL) as [->|]; [|reflexivity].
  discriminate Hc.
Qed.

Lemma match_empty_lines_not_space must_advance c s :
  isspace c = false ->
  match_here re_empty_lines must_advance (c :: s) = None.
Proof.
  intros Hc. unfold match_here, re_empty_lines. cbn [seq_list rmatch].
  rewrite rep_cons. cbv zeta. rewrite space_atom, Hc. cbn [or_else].
  now rewrite newline_atom, not_space_not_newline.
Qed.

Lemma match_empty_lines_space must_advance c d s :
  N.eqb c NL = false -> isspace d = false ->
  match_here re_empty_lines must_advance (c :: d :: s) = None.
Proof.
  intros Hc Hd. unfold match_here, re_empty_lines. cbn [seq_list rmatch].
  rewrite rep_cons. cbv zeta. cbn [pred].
  rewrite (rep_cons _ _ _ d). cbv zeta. rewrite (space_atom d), Hd. cbn [or_else].
  rewrite (newline_atom d), (not_space_not_newline d Hd).
  rewrite (newline_atom c), Hc.
  now destruct (atom_matches (OneOf [Space]) c).
Qed.

Lemma match_empty_lines_newline must_advance d s :
  isspace d = false ->
  match_here re_empty_lines must_advance (NL :: d :: s) = Some (1, ∅).
Proof.
  intros Hd. unfold match_here, re_empty_lines. cbn [seq_list rmatch].
  rewrite rep_cons. cbv zeta. cbn [pred].
  rewrite (rep_cons _ _ _ d). cbv zeta. rewrite (space_atom d), Hd. cbn [or_else].
  rewrite (newline_atom d), (not_space_not_newline d Hd).
  replace (atom_matches (OneOf [Space]) NL) with true by reflexivity.
  cbn [or_else]. rewrite newline_atom. cbn [N.eqb NL Pos.eqb].
  rewrite (rep_cons _ _ _ d). cbv zeta. rewrite (space_atom d), Hd. cbn [or_else].
  replace (length (NL :: d :: s) - length (d :: s)) with 1 by (simpl; lia).
  now rewrite andb_false_r.
Qed.

Lemma sub_empty_lines_no_adjacent s0 :
  no_adjacent_spaces (s0 ++ [NL]) = true ->
  sub re_empty_lines [Txt [NL]] (s0 ++ [NL; NL; NL]) = s0 ++ [NL].
Proof.
  unfold sub. induction s0 as [|c s0 IH]; intros Hs.
  - vm_compute. reflexivity.
  - cbn [app] in *. rewrite sub_from_cons0.
    pose proof (no_adjacent_spaces_tail _ _ Hs) as Hs'.
    destruct (isspace c) eqn:Ec.
    + destruct s0 as [|d s0].
      { apply no_adjacent_spaces_head in Hs. rewrite Ec in Hs. discriminate Hs. }
      cbn [app] in *.
      pose proof (no_adjacent_spaces_head _ _ _ Hs) as Hd.
      rewrite Ec in Hd. cbn in Hd.
      destruct (N.eqb_spec c NL) as [->|Hne].
      * rewrite match_empty_lines_newline by exact Hd.
        cbn [expand map concat app]. f_equal. now apply IH.
      * rewrite match_empty_lines_space; [|now apply N.eqb_neq|exact Hd].
        f_equal. now apply IH.
    + rewrite match_empty_lines_not_space by exact Ec.
      f_equal. now apply IH.
Qed.

(** A clean text is left as it is by the seven rewrites and by the
    filter. *)
Lemma clean_parts ioformat s :
  clean ioformat s = true ->
  Forall plain s /\ no_adjacent_spaces s = true /\ no_http s = true
  /\ List.filter (keeps ioformat) s = s
  /\ exists s0, s = s0 ++ [NL].
Proof.
  unfold clean. rewrite !andb_true_iff. intros [[[Hk Ha] Hh] He].
  rewrite forallb_forall in Hk.
  split; [|split; [exact Ha|split; [exact Hh|split]]].
  - apply Forall_forall. intros c Hc. apply (keeps_plain ioformat).
    apply Hk. now apply list_elem_of_In.
  - clear -Hk. induction s as [|c s IH]; [reflexivity|]. simpl.
    rewrite (Hk c) by now left. f_equal. apply IH. intros x Hx. apply Hk. now right.
  - unfold ends_with_newline in He.
    destruct (last s) as [c|] eqn:El; [|discriminate He].
    apply N.eqb_eq in He. subst c.
    apply last_Some in El as [s0 ->]. now exists s0.
Qed.

Lemma apply_regeces_clean ioformat s :
  clean ioformat s = true -> apply_regeces s = s.
Proof.
  intros (Hp & Ha & Hh & _ & s0 & ->)%clean_parts.
  assert (Hp0 : Forall plain s0) by (now apply Forall_app in Hp).
  unfold apply_regeces, regeces. cbn [foldl fst snd].
  rewrite sub_tags_plain by exact Hp.
  rewrite sub_links_no_http by exact Hh.
  rewrite sub_parentheses_plain by exact Hp.
  rewrite sub_sentences_plain by exact Hp0.
  rewrite sub_hyphens_plain.
  2:{ apply Forall_app. split; [exact Hp0|]. apply (plain_newlines 3). }
  rewrite sub_empty_lines_no_adjacent by exact Ha.
  now apply sub_spaces_no_adjacent.
Qed.

End RegexFacts.

Lemma filter_filter_same {A} (p : A -> bool) (l : list A) :
  List.filter p (List.filter p l) = List.filter p l.
Proof.
  induction l as [|x l IH]; simpl; [reflexivity|].
  destruct (p x) eqn:E; simpl; [rewrite E; now f_equal|exact IH].
Qed.

(** A clean text is a fixed point of [strip_punctuation]. *)
Lemma strip_punctuation_clean `{Unicode} (s ioformat : str) :
  clean ioformat s = true -> strip_punctuation s ioformat = s.
Proof.
  intros Hc. unfold strip_punctuation.
  rewrite (apply_regeces_clean ioformat s Hc).
  now apply clean_parts in Hc as (_ & _ & _ & Hf & _).
Qed.

(** C3, as the code has it.  A second run of [strip_punctuation] gives
    the result of the first whenever that result has no two whitespace
    characters side by side, has no http in it (in whatever case) and ends
    with a line feed.  (Without the first two conditions the second run
    can change the text: see the counterexample.) *)
Theorem strip_punctuation_twice `{Unicode} (txt ioformat : str) :
  no_adjacent_spaces (strip_punctuation txt ioformat) = true ->
  no_http (strip_punctuation txt ioformat) = true ->
  ends_with_newline (strip_punctuation txt ioformat) = true ->
  strip_punctuation (strip_punctuation txt ioformat) ioformat
  = strip_punctuation txt ioformat.
Proof.
  intros Ha Hh He. apply strip_punctuation_clean.
  unfold clean. rewrite Ha, Hh, He, !andb_true_r.
  apply forallb_forall. intros c Hc.
  unfold strip_punctuation in Hc. now apply filter_In in Hc.
Qed.

Lemma strip_punctuation_twice_witness :
  @no_adjacent_spaces ascii_only
    (@strip_punctuation ascii_only (u "Hello there. How are you?") (u "txt")) = true
  /\ @no_http ascii_only (@strip_punctuation ascii_only (u "Hello there. How are you?") (u "txt"))
     = true
  /\ ends_with_newline
       (@strip_punctuation ascii_only (u "Hello there. How are you?") (u "txt")) = true
  /\ @strip_punctuation ascii_only
       (@strip_punctuation ascii_only (u "Hello there. How are you?") (u "txt")) (u "txt")
     = @strip_punctuation ascii_only (u "Hello there. How are you?") (u "txt").
Proof.
  assert (Ha : @no_adjacent_spaces ascii_only
                 (@strip_punctuation ascii_only (u "Hello there. How are you?") (u "txt"))
               = true) by (vm_compute; reflexivity).
  assert (Hh : @no_http ascii_only (@strip_punctuation ascii_only (u "Hello there. How are you?")
                          (u "txt")) = true) by (vm_compute; reflexivity).
  assert (He : ends_with_newline
                 (@strip_punctuation ascii_only (u "Hello there. How are you?") (u "txt"))
               = true) by (vm_compute; reflexivity).
  split; [exact Ha|]. split; [exact Hh|]. split; [exact He|].
  exact (@strip_punctuation_twice ascii_only (u "Hello there. How are you?") (u "txt")
           Ha Hh He).
Defined.

Example strip_punctuation_hello :
  @strip_punctuation ascii_only (u "Hello there. How are you?") (u "txt")
  = u ("Hello there" ++ nl ++ "How are you" ++ nl).
Proof. vm_compute. reflexivity. Qed.

(** C3 as stated fails.  On "a . b" the first run ends by dropping the
    full stop, which leaves two spaces: "a  b" and a line feed.  The
    second run finds the two spaces and makes them one. *)
Lemma strip_punctuation_not_idempotent :
  ~ (forall (U : Unicode) (txt ioformat : str),
       @strip_punctuation U (@strip_punctuation U txt ioformat) ioformat
       = @strip_punctuation U txt ioformat).
Proof.
  intros Hidem.
  specialize (Hidem ascii_only (u "a . b") (u "txt")).
  vm_compute in Hidem. discriminate Hidem.
Qed.

Example strip_punctuation_a_dot_b :
  @strip_punctuation ascii_only (u "a . b") (u "txt") = u ("a  b" ++ nl)
  /\ @strip_punctuation ascii_only (u ("a  b" ++ nl)) (u "txt") = u ("a b" ++ nl).
Proof. split; vm_compute; reflexivity. Qed.

(** The same with a link that only the filter puts together. *)
Example strip_punctuation_http :
  @strip_punctuation ascii_only (u "ht.tp") (u "txt") = u ("http" ++ nl)
  /\ @strip_punctuation ascii_only (u ("http" ++ nl)) (u "txt") = u nl.
Proof. split; vm_compute; reflexivity. Qed.

(** ** utensils.py *)

(** C7. When the wrapped function raises, [timer] and [log_timer] raise
    the same exception and give no result: whatever world the wrapper
    hands to the function (after it has read the clock), the exception and
    the world the function leaves are those of the wrapped call. *)
Theorem timers_propagate_exceptions {A B} (func : A -> M B) (args : A) (e : exn) :
  (forall w w',
      func args (set_clock (tl (clock (set_wall (tl (wall w)) w)))
                   (set_wall (tl (wall w)) w)) = (Raise e, w') ->
      timer func args w = (Raise e, w'))
  /\ (forall w w',
        func args (set_clock (tl (clock w)) w) = (Raise e, w') ->
        log_timer func args w = (Raise e, w')).
Proof.
  split; intros w w' Hraise.
  - unfold timer.
    erewrite bind_ok by reflexivity.
    erewrite bind_ok by reflexivity.
    now apply bind_raise.
  - unfold log_timer.
    erewrite bind_ok by reflexivity.
    now apply bind_raise.
Qed.

Lemma timers_propagate_exceptions_witness :
  @dedup_file_body elements_order (u "missing.txt", u "out.txt")
     (set_clock (tl (clock (set_wall (tl (wall empty_world)) empty_world)))
        (set_wall (tl (wall empty_world)) empty_world))
  = (Raise (FileNotFoundError (u "missing.txt")), empty_world)
  /\ @dedup_file_body elements_order (u "missing.txt", u "out.txt")
       (set_clock (tl (clock empty_world)) empty_world)
     = (Raise (FileNotFoundError (u "missing.txt")), empty_world)
  /\ timer (@dedup_file_body elements_order) (u "missing.txt", u "out.txt") empty_world
     = (Raise (FileNotFoundError (u "missing.txt")), empty_world)
  /\ log_timer (@dedup_file_body elements_order) (u "missing.txt", u "out.txt") empty_world
     = (Raise (FileNotFoundError (u "missing.txt")), empty_world).
Proof.
  assert (H1 : @dedup_file_body elements_order (u "missing.txt", u "out.txt")
                 (set_clock (tl (clock (set_wall (tl (wall empty_world)) empty_world)))
                    (set_wall (tl (wall empty_world)) empty_world))
               = (Raise (FileNotFoundError (u "missing.txt")), empty_world))
    by (vm_compute; reflexivity).
  assert (H2 : @dedup_file_body elements_order (u "missing.txt", u "out.txt")
                 (set_clock (tl (clock empty_world)) empty_world)
               = (Raise (FileNotFoundError (u "missing.txt")), empty_world))
    by (vm_compute; reflexivity).
  split; [exact H1|]. split; [exact H2|].
  split.
  - exact (proj1 (timers_propagate_exceptions (@dedup_file_body elements_order)
                    (u "missing.txt", u "out.txt")
                    (FileNotFoundError (u "missing.txt"))) empty_world empty_world H1).
  - exact (proj2 (timers_propagate_exceptions (@dedup_file_body elements_order)
                    (u "missing.txt", u "out.txt")
                    (FileNotFoundError (u "missing.txt"))) empty_world empty_world H2).
Defined.

(** ** clean_subs.py: the archives *)

Section OpensOnly.
Context (P : str * str -> Prop).

Lemma opens_pure {A} (Q : A -> Prop) (m : M A) :
  (forall w, opened (snd (m w)) = opened w) ->
  (forall w a, fst (m w) = Ok a -> Q a) ->
  opens_only P Q m.
Proof.
  intros Ho Hq w. split.
  - exists []. rewrite app_nil_r. split; [apply Ho|constructor].
  - destruct (fst (m w)) eqn:E; [|exact I]. now apply (Hq w).
Qed.

Lemma opens_ret {A} (Q : A -> Prop) (a : A) : Q a -> opens_only P Q (ret a).
Proof. intros Ha. apply opens_pure; [reflexivity|]. intros w a' [= <-]. exact Ha. Qed.

Lemma opens_raise {A} (Q : A -> Prop) (e : exn) : opens_only P Q (raise e).
Proof. apply opens_pure; [reflexivity|]. intros w a [=]. Qed.

Lemma opens_lift {A} (Q : A -> Prop) (r : res A) :
  (forall a, r = Ok a -> Q a) -> opens_only P Q (lift r).
Proof. intros Hr. apply opens_pure; [reflexivity|]. intros w a. apply Hr. Qed.

Lemma opens_bind {A B} (Q : A -> Prop) (Q' : B -> Prop) (m : M A) (k : A -> M B) :
  opens_only P Q m ->
  (forall a, Q a -> opens_only P Q' (k a)) ->
  opens_only P Q' (bind m k).
Proof.
  intros Hm Hk w. unfold bind.
  destruct (Hm w) as [(new & Ho & Hnew) Hq].
  destruct (m w) as [[a|e] w1]; simpl in *.
  - destruct (Hk a Hq w1) as [(new' & Ho' & Hnew') Hq'].
    split; [|exact Hq'].
    exists (new ++ new'). rewrite Ho', Ho, app_assoc. split; [reflexivity|].
    now apply Forall_app.
  - split; [|exact I]. exists new. now split.
Qed.

Lemma opens_weaken {A} (Q Q' : A -> Prop) (m : M A) :
  opens_only P Q m -> (forall a, Q a -> Q' a) -> opens_only P Q' m.
Proof.
  intros Hm Hq w. destruct (Hm w) as [Ho Ha]. split; [exact Ho|].
  destruct (fst (m w)); [now apply Hq|exact I].
Qed.

Lemma opens_for_each {A} (l : list A) (body : A -> M unit) :
  (forall x, x ∈ l -> opens_only P (fun _ => True) (body x)) ->
  opens_only P (fun _ => True) (for_each l body).
Proof.
  induction l as [|x l IH]; intros Hb; simpl.
  - now apply opens_ret.
  - eapply opens_bind; [apply Hb; left|].
    intros _ _. apply IH. intros y Hy. apply Hb. now right.
Qed.

Lemma opens_for_fold {A S} (I : S -> Prop) (l : list A) (body : S -> A -> M S) :
  (forall s x, I s -> x ∈ l -> opens_only P I (body s x)) ->
  forall s, I s -> opens_only P I (for_fold l body s).
Proof.
  induction l as [|x l IH]; intros Hb s Hs; simpl.
  - now apply opens_ret.
  - eapply opens_bind; [apply Hb; [exact Hs|left]|].
    intros s' Hs'. apply IH; [|exact Hs'].
    intros s0 y Hs0 Hy. apply Hb; [exact Hs0|now right].
Qed.

Lemma opens_zip_read (fname name : str) :
  P (fname, name) -> opens_only P (fun _ => True) (zip_read fname name).
Proof.
  intros Hp w. unfold zip_read.
  destruct (last_entry name (default [] (zips w !! fname))); simpl.
  - split; [|exact I]. exists [(fname, name)]. split; [reflexivity|].
    now constructor.
  - split; [|exact I]. exists []. rewrite app_nil_r. split; [reflexivity|constructor].
Qed.

Lemma opens_log_timer {A B} (Q : B -> Prop) (func : A -> M B) (args : A) :
  opens_only P Q (func args) -> opens_only P Q (log_timer func args).
Proof.
  intros Hf. unfold log_timer.
  eapply opens_bind; [apply (opens_pure (fun _ => True)); [reflexivity|done]|].
  intros t0 _. eapply opens_bind; [exact Hf|].
  intros r Hr.
  eapply opens_bind; [apply (opens_pure (fun _ => True)); [reflexivity|done]|].
  intros t1 _.
  eapply opens_bind; [apply (opens_pure (fun _ => True)); [reflexivity|done]|].
  intros _ _. now apply opens_ret.
Qed.

End OpensOnly.

Lemma elem_of_insert_sorted (x y : str) (l : list str) :
  y ∈ insert_sorted x l -> y = x \/ y ∈ l.
Proof.
  induction l as [|z l IH]; simpl.
  - intros Hy%list_elem_of_singleton. now left.
  - destruct (str_le x z).
    + intros [->|Hy]%elem_of_cons; [now left|now right].
    + intros [->|Hy]%elem_of_cons; [right; left|].
      destruct (IH Hy) as [->|Hl]; [now left|right; now right].
Qed.

Lemma elem_of_sorted (y : str) (l : list str) : y ∈ sorted l -> y ∈ l.
Proof.
  induction l as [|x l IH]; simpl; [easy|].
  intros [->|Hy]%elem_of_insert_sorted; [left|right; now apply IH].
Qed.

Lemma in_range2_spec (x a b : Z) : in_range2 x a b = true <-> (a <= x < b)%Z.
Proof. unfold in_range2. rewrite andb_true_iff, Z.leb_le, Z.ltb_lt. reflexivity. Qed.

Section ArchiveFacts.
Context `{Unicode} `{Lxml}.

(** A round of the selection loop opens nothing and adds only a selected
    path. *)
Lemma select_path_opens (P : str * str -> Prop) (ext ioformat lang : str)
    (years : Z * Z) (filepaths : list str) (filepath : str) :
  Forall (selected ext ioformat lang years) filepaths ->
  opens_only P (Forall (selected ext ioformat lang years))
    (select_path ext (dirpath_of ioformat) lang years filepaths filepath).
Proof.
  intros Hsel. unfold select_path.
  destruct (endswith filepath ext) eqn:Eext; [|now apply opens_ret].
  destruct (dirpath_of ioformat) as [dirpath|] eqn:Edir; [|apply opens_raise].
  destruct (startswith filepath (os_path_join dirpath lang)) eqn:Epre;
    [|now apply opens_ret].
  destruct (split (ch "/") filepath !! 3) as [segment|] eqn:Eseg; [|apply opens_raise].
  destruct (py_int segment) as [year|] eqn:Eyear; [|apply opens_raise].
  destruct (in_range2 year (fst years) (snd years)) eqn:Erange; [|now apply opens_ret].
  apply opens_ret. apply Forall_app. split; [exact Hsel|].
  constructor; [|constructor].
  split; [exact Eext|]. split; [now exists dirpath|].
  exists year. split; [unfold year_of; now rewrite Eseg|].
  now apply in_range2_spec.
Qed.

Lemma select_loop_opens (P : str * str -> Prop) (ext ioformat lang : str)
    (years : Z * Z) (names : list str) :
  opens_only P (Forall (selected ext ioformat lang years))
    (for_fold names (select_path ext (dirpath_of ioformat) lang years) []).
Proof.
  apply opens_for_fold; [|constructor].
  intros fps p Hfps _. now apply select_path_opens.
Qed.

Lemma strip_archive_opens (lang ioformat : str) (years : Z * Z) :
  opens_only (fun ap => selected (u "xml") ioformat lang years (snd ap))
    (fun _ => True) (strip_archive lang ioformat years).
Proof.
  unfold strip_archive. apply opens_log_timer. unfold strip_archive_body.
  eapply opens_bind.
  { apply (opens_pure _ (fun _ => True)); [|done].
    intros w. unfold zip_open_r. now destruct (zips w !! _). }
  intros _ _. eapply opens_bind.
  { apply (opens_pure _ (fun _ => True)); [reflexivity|done]. }
  intros _ _. eapply opens_bind.
  { apply (opens_pure _ (fun _ => True)); [reflexivity|done]. }
  intros names _. eapply opens_bind; [apply select_loop_opens|].
  intros filepaths Hsel. eapply opens_bind.
  { apply (opens_pure _ (fun _ => True)); [reflexivity|done]. }
  intros _ _. apply opens_for_each. intros p Hp%elem_of_sorted.
  unfold strip_entry. eapply opens_bind.
  { apply opens_zip_read. simpl. rewrite Forall_forall in Hsel. now apply Hsel. }
  intros data _. eapply opens_bind; [now apply (opens_lift _ (fun _ => True))|].
  intros [s|] _; [|apply opens_raise].
  apply (opens_pure _ (fun _ => True)); [|done].
  intros w. unfold writestr. now destruct (encode_utf8 s).
Qed.

Lemma join_archive_opens (lang ioformat : str) (years : Z * Z) (verbose : bool) :
  opens_only (fun ap => selected ioformat ioformat lang years (snd ap))
    (fun _ => True) (join_archive lang ioformat years verbose).
Proof.
  unfold join_archive. apply opens_log_timer. unfold join_archive_body.
  eapply opens_bind.
  { apply (opens_pure _ (fun _ => True)); [|done].
    intros w. unfold zip_open_r. now destruct (zips w !! _). }
  intros _ _. eapply opens_bind.
  { apply (opens_pure _ (fun _ => True)); [reflexivity|done]. }
  intros names _. eapply opens_bind; [apply select_loop_opens|].
  intros filepaths Hsel. eapply opens_bind.
  { apply (opens_pure _ (fun _ => True)); [reflexivity|done]. }
  intros _ _. eapply opens_bind.
  { apply (opens_pure _ (fun _ => True)); [reflexivity|done]. }
  intros _ _. eapply opens_bind.
  { apply (opens_for_fold _ (fun _ => True)); [|done].
    intros i p _ Hp. unfold join_entry. eapply opens_bind.
    { apply opens_zip_read. simpl. rewrite Forall_forall in Hsel. now apply Hsel. }
    intros data _. eapply opens_bind; [now apply (opens_lift _ (fun _ => True))|].
    intros txt _. eapply opens_bind.
    { apply (opens_pure _ (fun _ => True)); [reflexivity|done]. }
    intros _ _. destruct verbose; [|now apply opens_ret].
    eapply opens_bind; [apply (opens_pure _ (fun _ => True)); [reflexivity|done]|].
    intros _ _. now apply opens_ret. }
  intros _ _. eapply opens_bind.
  { destruct verbose; [apply (opens_pure _ (fun _ => True)); [reflexivity|done]|].
    now apply opens_ret. }
  intros _ _. now apply opens_ret.
Qed.

Lemma opens_only_newly_opened {A} (P : str * str -> Prop) (Q : A -> Prop)
    (m : M A) (w : World) :
  opens_only P Q m -> Forall P (newly_opened w (snd (m w))).
Proof.
  intros Hm. destruct (Hm w) as [(new & Ho & Hnew) _].
  unfold newly_opened. rewrite Ho, drop_app_length. exact Hnew.
Qed.

(** C5. An entry whose fourth path segment is a year outside
    [years[0], years[1]) is opened neither by [strip_archive] nor by
    [join_archive]; the entries they open all have the ending asked for
    (xml, or the format), the directory of the format and the language in
    front, and a year in the range. *)
Theorem archives_skip_years_out_of_range
    (lang ioformat : str) (years : Z * Z) (verbose : bool) (w : World)
    (filepath : str) (year : Z) :
  year_of filepath = Some year ->
  ~ (fst years <= year < snd years)%Z ->
  (forall archive,
      (archive, filepath) ∉ newly_opened w (snd (strip_archive lang ioformat years w)))
  /\ (forall archive,
        (archive, filepath)
        ∉ newly_opened w (snd (join_archive lang ioformat years verbose w)))
  /\ (forall archive q,
        (archive, q) ∈ newly_opened w (snd (strip_archive lang ioformat years w)) ->
        selected (u "xml") ioformat lang years q)
  /\ (forall archive q,
        (archive, q) ∈ newly_opened w (snd (join_archive lang ioformat years verbose w)) ->
        selected ioformat ioformat lang years q).
Proof.
  intros Hyear Hout.
  pose proof (opens_only_newly_opened _ _ _ w (strip_archive_opens lang ioformat years))
    as Hs.
  pose proof (opens_only_newly_opened _ _ _ w
                (join_archive_opens lang ioformat years verbose)) as Hj.
  rewrite Forall_forall in Hs, Hj.
  assert (Hno : forall ext, ~ selected ext ioformat lang years filepath).
  { intros ext (_ & _ & y & Hy & Hr). rewrite Hyear in Hy. now injection Hy as <-. }
  split; [|split; [|split]].
  - intros archive Hin. exact (Hno _ (Hs _ Hin)).
  - intros archive Hin. exact (Hno _ (Hj _ Hin)).
  - intros archive q Hin. exact (Hs _ Hin).
  - intros archive q Hin. exact (Hj _ Hin).
Qed.

End ArchiveFacts.

Lemma archives_skip_years_out_of_range_witness :
  @year_of ascii_only (u "OpenSubtitles/raw/en/1890/1/a.xml") = Some 1890%Z
  /\ ~ (fst (1900, 2050) <= 1890 < snd (1900, 2050))%Z
  /\ (forall archive,
        (archive, u "OpenSubtitles/raw/en/1890/1/a.xml")
        ∉ newly_opened sample_archives
            (snd (@strip_archive ascii_only one_document (u "en") (u "txt")
                    (1900, 2050)%Z sample_archives)))
  /\ newly_opened sample_archives
       (snd (@strip_archive ascii_only one_document (u "en") (u "txt")
               (1900, 2050)%Z sample_archives))
     = [(u "corpora/en.zip", u "OpenSubtitles/raw/en/2000/1/b.xml")]
  /\ newly_opened sample_archives
       (snd (@join_archive ascii_only (u "en") (u "txt")
               (1900, 2050)%Z true sample_archives))
     = [(u "corpora/en_stripped.zip", u "OpenSubtitles/raw/en/2000/1/b.txt")].
Proof.
  assert (Hy : @year_of ascii_only (u "OpenSubtitles/raw/en/1890/1/a.xml") = Some 1890%Z)
    by (vm_compute; reflexivity).
  assert (Hout : ~ (fst (1900, 2050) <= 1890 < snd (1900, 2050))%Z) by (simpl; lia).
  split; [exact Hy|]. split; [exact Hout|].
  split.
  - exact (proj1 (@archives_skip_years_out_of_range ascii_only one_document
                    (u "en") (u "txt") (1900, 2050)%Z true sample_archives
                    (u "OpenSubtitles/raw/en/1890/1/a.xml") 1890%Z Hy Hout)).
  - split; vm_compute; reflexivity.
Defined.

(** ** clean_subs.py: the progress indicator *)

Lemma set_console_set_console c c' w :
  set_console c (set_console c' w) = set_console c w.
Proof. reflexivity. Qed.

Lemma set_console_id w : set_console (console w) w = w.
Proof. now destruct w. Qed.

Section QuietVersion.

(** A computation that neither reads nor writes the console is its own
    quiet version. *)
Lemma quiet_blind {A} (m : M A) :
  (forall c w, m (set_console c w) = (fst (m w), set_console c (snd (m w)))) ->
  quiet_version eq m m.
Proof.
  intros Hm c w. rewrite Hm. simpl. split; [|reflexivity].
  now destruct (fst (m w)).
Qed.

Lemma quiet_ret {A B} (R : A -> B -> Prop) a b :
  R a b -> quiet_version R (ret a) (ret b).
Proof. intros Hr c w. now split. Qed.

Lemma quiet_raise {A B} (R : A -> B -> Prop) e : quiet_version R (raise e) (raise e).
Proof. intros c w. now split. Qed.

Lemma quiet_lift {A} (r : res A) : quiet_version eq (lift r) (lift r).
Proof. apply quiet_blind. reflexivity. Qed.

Lemma quiet_print {B} (R : unit -> B -> Prop) (e : console_event) (b : B) :
  R tt b -> quiet_version R (print e) (ret b).
Proof. intros Hr c w. now split. Qed.

Lemma quiet_bind {A A' B B'} (R : A -> A' -> Prop) (R' : B -> B' -> Prop)
    (m1 : M A) (m2 : M A') (k1 : A -> M B) (k2 : A' -> M B') :
  quiet_version R m1 m2 ->
  (forall a a', R a a' -> quiet_version R' (k1 a) (k2 a')) ->
  quiet_version R' (bind m1 k1) (bind m2 k2).
Proof.
  intros Hm Hk c w. unfold bind.
  destruct (Hm c w) as [Hr Hw].
  destruct (m1 w) as [[a|e] w1], (m2 (set_console c w)) as [[a'|e'] w2];
    simpl in *; try contradiction.
  - subst w2. exact (Hk a a' Hr c w1).
  - now subst.
Qed.

Lemma quiet_weaken {A B} (R R' : A -> B -> Prop) (m1 : M A) (m2 : M B) :
  quiet_version R m1 m2 -> (forall a b, R a b -> R' a b) -> quiet_version R' m1 m2.
Proof.
  intros Hm Hr c w. destruct (Hm c w) as [H1 H2]. split; [|exact H2].
  destruct (fst (m1 w)), (fst (m2 (set_console c w))); simpl in *; auto.
Qed.

Lemma quiet_for_fold {A S S'} (R : S -> S' -> Prop) (l : list A)
    (body1 : S -> A -> M S) (body2 : S' -> A -> M S') :
  (forall s s' x, R s s' -> quiet_version R (body1 s x) (body2 s' x)) ->
  forall s s', R s s' -> quiet_version R (for_fold l body1 s) (for_fold l body2 s').
Proof.
  induction l as [|x l IH]; intros Hb s s' Hs; simpl.
  - now apply quiet_ret.
  - eapply quiet_bind; [now apply Hb|].
    intros a a' Ha. now apply IH.
Qed.

End QuietVersion.

Section VerboseFacts.
Context `{Unicode}.

Lemma quiet_select_path ext dirpath lang years filepaths filepath :
  quiet_version eq (select_path ext dirpath lang years filepaths filepath)
    (select_path ext dirpath lang years filepaths filepath).
Proof.
  unfold select_path.
  repeat match goal with
         | |- context [if ?b then _ else _] => destruct b
         | |- context [match ?o with Some _ => _ | None => _ end] => destruct o
         end;
    (now apply quiet_ret) || apply quiet_raise.
Qed.

Lemma quiet_join_entry read_zip out_fname ioformat total i i' filepath :
  quiet_version (fun _ _ => True)
    (join_entry read_zip out_fname ioformat true total i filepath)
    (join_entry read_zip out_fname ioformat false total i' filepath).
Proof.
  unfold join_entry.
  eapply quiet_bind.
  { apply quiet_blind. intros c w. unfold zip_read. simpl.
    now destruct (last_entry _ _). }
  intros data ? <-. eapply quiet_bind; [apply quiet_lift|].
  intros txt ? <-. eapply quiet_bind; [apply quiet_blind; reflexivity|].
  intros _ _ _ c w. now split.
Qed.

Lemma quiet_join_archive_body lang ioformat years :
  quiet_version eq (join_archive_body (lang, ioformat, years, true))
    (join_archive_body (lang, ioformat, years, false)).
Proof.
  unfold join_archive_body.
  eapply quiet_bind.
  { apply quiet_blind. intros c w. unfold zip_open_r. simpl.
    now destruct (zips w !! _). }
  intros _ _ _. eapply quiet_bind; [apply quiet_blind; reflexivity|].
  intros names ? <-. eapply quiet_bind.
  { apply (quiet_for_fold eq); [|reflexivity].
    intros s ? x <-. apply quiet_select_path. }
  intros filepaths ? <-. eapply quiet_bind; [apply quiet_blind; reflexivity|].
  intros _ _ _. eapply quiet_bind; [apply quiet_blind; reflexivity|].
  intros _ _ _. eapply quiet_bind.
  { apply (quiet_for_fold (fun _ _ => True)); [|exact I].
    intros i i' x _. apply quiet_join_entry. }
  intros _ _ _. eapply quiet_bind.
  { apply (quiet_print (fun _ _ => True)). exact I. }
  intros _ _ _. now apply quiet_ret.
Qed.

Lemma quiet_log_timer {A B} (func1 func2 : A -> M B) (args1 args2 : A) :
  quiet_version eq (func1 args1) (func2 args2) ->
  quiet_version eq (log_timer func1 args1) (log_timer func2 args2).
Proof.
  intros Hf. unfold log_timer.
  eapply quiet_bind; [apply quiet_blind; reflexivity|].
  intros t0 ? <-. eapply quiet_bind; [exact Hf|].
  intros r ? <-. eapply quiet_bind; [apply quiet_blind; reflexivity|].
  intros t1 ? <-. eapply quiet_bind; [apply quiet_blind; reflexivity|].
  intros _ _ _. now apply quiet_ret.
Qed.

(** C8. [join_archive] with and without [verbose], from the same world:
    the same count is returned (or the same exception raised), the files
    are the same, and so is all the rest of the world but the console,
    which the run without [verbose] leaves as it was. *)
Theorem join_archive_verbose_output (lang ioformat : str) (years : Z * Z) (w : World) :
  let loud := join_archive lang ioformat years true w in
  let quiet := join_archive lang ioformat years false w in
  fst loud = fst quiet
  /\ files (snd loud) = files (snd quiet)
  /\ snd quiet = set_console (console w) (snd loud)
  /\ console (snd quiet) = console w.
Proof.
  intros loud quiet.
  destruct (quiet_log_timer join_archive_body join_archive_body _ _
              (quiet_join_archive_body lang ioformat years) (console w) w) as [Hr Hw].
  rewrite set_console_id in Hr, Hw.
  fold (join_archive lang ioformat years true) in Hr, Hw.
  fold (join_archive lang ioformat years false) in Hr, Hw.
  fold loud in Hr, Hw. fold quiet in Hr, Hw.
  split; [|split; [|split]].
  - destruct (fst loud), (fst quiet); simpl in Hr; try contradiction; congruence.
  - now rewrite Hw.
  - exact Hw.
  - now rewrite Hw.
Qed.

End VerboseFacts.

(** * Further properties *)

(** ** deduplicate.py *)

Lemma split_no_sep sep s : forall l, l ∈ split sep s -> sep ∉ l.
Proof.
  induction s as [|c s IH]; simpl; intros l Hl.
  - apply list_elem_of_singleton in Hl as ->. apply not_elem_of_nil.
  - destruct (N.eqb c sep) eqn:Ec.
    + apply elem_of_cons in Hl as [->|Hl]; [apply not_elem_of_nil|now apply IH].
    + pose proof (split_nonempty sep s) as Hne.
      destruct (split sep s) as [|l0 ls]; [contradiction|].
      apply elem_of_cons in Hl as [->|Hl].
      * apply not_elem_of_cons. split; [|apply IH; left].
        intros ->. now rewrite N.eqb_refl in Ec.
      * apply IH. now right.
Qed.

Lemma split_app_cons sep l s :
  sep ∉ l -> split sep (l ++ sep :: s) = l :: split sep s.
Proof.
  induction l as [|c l IH]; simpl; intros Hl.
  - now rewrite N.eqb_refl.
  - apply not_elem_of_cons in Hl as [Hc Hl].
    destruct (N.eqb_spec c sep) as [->|_]; [contradiction|].
    now rewrite IH.
Qed.

Lemma split_no_sep_id sep l : sep ∉ l -> split sep l = [l].
Proof.
  induction l as [|c l IH]; simpl; intros Hl; [reflexivity|].
  apply not_elem_of_cons in Hl as [Hc Hl].
  destruct (N.eqb_spec c sep) as [->|_]; [contradiction|].
  now rewrite IH.
Qed.

(** Splitting what [join] put together gives the parts back. *)
Lemma split_join sep (parts : list str) :
  parts <> [] -> (forall l, l ∈ parts -> sep ∉ l) ->
  split sep (join [sep] parts) = parts.
Proof.
  induction parts as [|p ps IH]; intros Hne Hsep; [contradiction|].
  destruct ps as [|p' ps].
  - simpl. apply split_no_sep_id, Hsep. left.
  - change (join [sep] (p :: p' :: ps)) with (p ++ sep :: join [sep] (p' :: ps)).
    rewrite split_app_cons by (apply Hsep; left).
    f_equal. apply IH; [discriminate|]. intros l Hl. apply Hsep. now right.
Qed.

Lemma no_cr_join (parts : list str) :
  (forall l, l ∈ parts -> CR ∉ l) -> CR ∉ join [NL] parts.
Proof.
  induction parts as [|p ps IH]; intros Hp; [apply not_elem_of_nil|].
  destruct ps as [|p' ps]; [apply Hp; left|].
  change (join [NL] (p :: p' :: ps)) with (p ++ NL :: join [NL] (p' :: ps)).
  rewrite elem_of_app, elem_of_cons. intros [H1|[H2|H3]].
  - revert H1. apply Hp. left.
  - discriminate H2.
  - revert H3. apply IH. intros l Hl. apply Hp. now right.
Qed.

Lemma split_no_cr s : CR ∉ s -> forall l, l ∈ split NL s -> CR ∉ l.
Proof.
  intros Hs l Hl Hc. apply Hs.
  rewrite <- (join_split NL s).
  clear Hs. revert Hl. generalize (split NL s). intros parts.
  induction parts as [|p ps IH]; intros Hl; [inversion Hl|].
  destruct ps as [|p' ps].
  - apply list_elem_of_singleton in Hl as ->. exact Hc.
  - change (join [NL] (p :: p' :: ps)) with (p ++ NL :: join [NL] (p' :: ps)).
    apply elem_of_app. apply elem_of_cons in Hl as [->|Hl]; [now left|].
    right. right. now apply IH.
Qed.

(** *** What a computation leaves alone *)

Section Respects.
Context (R : World -> World -> Prop) `{!Reflexive R} `{!Transitive R}.

Lemma respects_ret {A} (a : A) : respects R (ret a).
Proof. intros w. reflexivity. Qed.

Lemma respects_raise {A} (e : exn) : respects R (raise (A := A) e).
Proof. intros w. reflexivity. Qed.

Lemma respects_lift {A} (r : res A) : respects R (lift r).
Proof. intros w. reflexivity. Qed.

Lemma respects_bind {A B} (m : M A) (k : A -> M B) :
  respects R m -> (forall a, respects R (k a)) -> respects R (bind m k).
Proof.
  intros Hm Hk w. unfold bind. specialize (Hm w).
  destruct (m w) as [[a|e] w1]; simpl in *; [|exact Hm].
  etransitivity; [exact Hm|apply Hk].
Qed.

Lemma respects_for_each {A} (l : list A) (body : A -> M unit) :
  (forall x, x ∈ l -> respects R (body x)) -> respects R (for_each l body).
Proof.
  induction l as [|x l IH]; intros Hb; simpl; [apply respects_ret|].
  apply respects_bind; [apply Hb; left|]. intros _. apply IH.
  intros y Hy. apply Hb. now right.
Qed.

Lemma respects_for_fold {A S} (l : list A) (body : S -> A -> M S) :
  (forall s x, x ∈ l -> respects R (body s x)) ->
  forall s, respects R (for_fold l body s).
Proof.
  induction l as [|x l IH]; intros Hb s; simpl; [apply respects_ret|].
  apply respects_bind; [apply Hb; left|]. intros s'. apply IH.
  intros s0 y Hy. apply Hb. now right.
Qed.

(** The steps that change one part of the world. *)
Lemma respects_time : (forall w c, R w (set_clock c w)) -> respects R time.
Proof. intros HR w. apply HR. Qed.

Lemma respects_strftime : (forall w c, R w (set_wall c w)) -> respects R strftime_now.
Proof. intros HR w. apply HR. Qed.

Lemma respects_logging_info r :
  (forall w l, R w (set_log (log w ++ l) w)) -> respects R (logging_info r).
Proof. intros HR w. apply HR. Qed.

Lemma respects_print e :
  (forall w c, R w (set_console c w)) -> respects R (print e).
Proof. intros HR w. apply HR. Qed.

Lemma respects_shuffle {A} (x : list A) :
  (forall w g, R w (set_rng g w)) -> respects R (shuffle x).
Proof.
  intros HR w. destruct (shuffle_spec x w) as (x' & E & _). rewrite E. apply HR.
Qed.

Lemma respects_open_r fname : respects R (open_r fname).
Proof. intros w. unfold open_r. destruct (files w !! fname); reflexivity. Qed.

Lemma respects_fread fname : respects R (fread fname).
Proof. intros w. reflexivity. Qed.

Lemma respects_zip_open_r fname : respects R (zip_open_r fname).
Proof. intros w. unfold zip_open_r. destruct (zips w !! fname); reflexivity. Qed.

Lemma respects_namelist fname : respects R (namelist fname).
Proof. intros w. reflexivity. Qed.

Lemma respects_zip_read fname name :
  (forall w o, R w (set_opened (opened w ++ o) w)) -> respects R (zip_read fname name).
Proof.
  intros HR w. unfold zip_read.
  destruct (last_entry _ _); [apply HR|reflexivity].
Qed.

Lemma respects_log_timer {A B} (func : A -> M B) (args : A) :
  (forall w c, R w (set_clock c w)) ->
  (forall w l, R w (set_log (log w ++ l) w)) ->
  respects R (func args) -> respects R (log_timer func args).
Proof.
  intros Hc Hl Hf. unfold log_timer.
  apply respects_bind; [now apply respects_time|]. intros t0.
  apply respects_bind; [exact Hf|]. intros r.
  apply respects_bind; [now apply respects_time|]. intros t1.
  apply respects_bind; [now apply respects_logging_info|]. intros _.
  apply respects_ret.
Qed.

End Respects.

(** Apply a lemma about [respects], with the instances it asks for. *)
Ltac rapply lem := apply lem; try typeclasses eauto.

(** Text files: a step that writes touches the file it writes. *)
Global Instance same_files_but_refl P : Reflexive (same_files_but P).
Proof. intros w f _. reflexivity. Qed.

Global Instance same_files_but_trans P : Transitive (same_files_but P).
Proof. intros w1 w2 w3 H12 H23 f Hf. rewrite (H23 f Hf). now apply H12. Qed.

Lemma same_files_but_open_w (P : str -> Prop) fname :
  P fname -> respects (same_files_but P) (open_w fname).
Proof.
  intros Hp w f Hf. simpl. apply lookup_insert_ne. intros ->. contradiction.
Qed.

Lemma same_files_but_fwrite (P : str -> Prop) fname data :
  P fname -> respects (same_files_but P) (fwrite fname data).
Proof.
  intros Hp w f Hf. simpl. apply lookup_insert_ne. intros ->. contradiction.
Qed.

Section DeduplicateMore.
Context `{SetOrder}.

(** [dedup_file] writes no file but the output. *)
Lemma dedup_file_same_files (in_fname out_fname : str) :
  respects (same_files_but (fun f => f = out_fname)) (dedup_file in_fname out_fname).
Proof.
  unfold dedup_file.
  rapply @respects_log_timer; [intros w c f _; reflexivity|intros w l f _; reflexivity|].
  unfold dedup_file_body.
  rapply @respects_bind; [rapply respects_open_r|]. intros _.
  rapply @respects_bind; [now apply same_files_but_open_w|]. intros _.
  rapply @respects_bind.
  { unfold get_lines. rapply @respects_bind; [rapply respects_fread|].
    intros c. rapply @respects_ret. }
  intros [[lines n] d].
  rapply @respects_bind.
  { rapply @respects_shuffle. intros w g f _. reflexivity. }
  intros out. rapply @respects_bind; [now apply same_files_but_fwrite|]. intros _.
  rapply @respects_bind.
  { rapply respects_logging_info. intros w l f _. reflexivity. }
  intros _. rapply @respects_ret.
Qed.

Lemma dedup_file_readback (in_fname out_fname content : str) (w : World) :
  in_fname <> out_fname ->
  files w !! in_fname = Some content ->
  exists n d written w',
    dedup_file in_fname out_fname w = (Ok (n, d), w')
    /\ files w' !! out_fname = Some written
    /\ files w' !! in_fname = Some content
    /\ NoDup (split NL (translate_newlines written))
    /\ (forall l, l ∈ split NL (translate_newlines written)
                  <-> l ∈ split NL (translate_newlines content))
    /\ n = Z.of_nat (length (split NL (translate_newlines content)))
    /\ (1 <= n)%Z /\ (0 <= d)%Z
    /\ n = (d + Z.of_nat (length (split NL (translate_newlines written))))%Z.
Proof.
  intros Hne Hin.
  destruct (dedup_file_spec in_fname out_fname content w Hne Hin)
    as (out & w' & E & Hout & P).
  set (lines := split NL (translate_newlines content)) in *.
  assert (Hmem : forall l, l ∈ out <-> l ∈ lines).
  { intros l. rewrite P, elem_of_elements, elem_of_list_to_set. reflexivity. }
  assert (Hout_ne : out <> []).
  { intros ->. pose proof (split_nonempty NL (translate_newlines content)) as Hs.
    fold lines in Hs. destruct lines as [|l0 ls]; [contradiction|].
    apply (not_elem_of_nil l0), Hmem. left. }
  assert (Hnl : forall l, l ∈ out -> NL ∉ l).
  { intros l Hl%Hmem. now apply (split_no_sep NL (translate_newlines content)). }
  assert (Hcr : CR ∉ join [NL] out).
  { apply no_cr_join. intros l Hl%Hmem.
    apply (split_no_cr (translate_newlines content)); [|exact Hl].
    apply translate_newlines_no_cr. }
  assert (Hback : split NL (translate_newlines (join [NL] out)) = out).
  { rewrite translate_newlines_id by exact Hcr. now apply split_join. }
  assert (Hsize : size (list_to_set lines : gset str) = length out).
  { unfold size, set_size. simpl. now rewrite P. }
  assert (Hle : size (list_to_set lines : gset str) <= length lines).
  { rewrite Hsize. apply NoDup_incl_length.
    - apply NoDup_ListNoDup. rewrite P. apply NoDup_elements.
    - intros l Hl. apply list_elem_of_In, Hmem, list_elem_of_In, Hl. }
  exists (Z.of_nat (length lines)),
         (Z.of_nat (length lines) - Z.of_nat (size (list_to_set lines : gset str)))%Z,
         (join [NL] out), w'.
  split; [exact E|]. split; [exact Hout|].
  split.
  { pose proof (dedup_file_same_files in_fname out_fname w in_fname Hne) as Hsame.
    rewrite E in Hsame. simpl in Hsame. now rewrite Hsame. }
  rewrite Hback.
  split; [rewrite P; apply NoDup_elements|].
  split; [exact Hmem|].
  split; [reflexivity|].
  pose proof (split_nonempty NL (translate_newlines content)) as Hs. fold lines in Hs.
  destruct lines as [|l0 ls] eqn:El; [contradiction|]. rewrite <- El in *.
  assert (1 <= length lines) by (rewrite El; simpl; lia).
  repeat split; lia.
Qed.

(** X1. [dedup_file] on an input that is there and is not the output
    file.  The output, read back and split into lines, has no line twice
    and has exactly the lines of the input; the input is left as it was.
    The counts: at least one line (an empty file is one empty line), no
    negative number of duplicates, and lines = duplicates + lines
    written. *)
Theorem dedup_file_unique_lines (in_fname out_fname content : str) (w : World) :
  in_fname <> out_fname ->
  files w !! in_fname = Some content ->
  exists n d written w',
    dedup_file in_fname out_fname w = (Ok (n, d), w')
    /\ files w' !! out_fname = Some written
    /\ files w' !! in_fname = Some content
    /\ NoDup (split NL (translate_newlines written))
    /\ (forall l, l ∈ split NL (translate_newlines written)
                  <-> l ∈ split NL (translate_newlines content))
    /\ n = Z.of_nat (length (split NL (translate_newlines content)))
    /\ (1 <= n)%Z /\ (0 <= d)%Z
    /\ n = (d + Z.of_nat (length (split NL (translate_newlines written))))%Z.
Proof. apply dedup_file_readback. Qed.

(** X2. [dedup_file] on an input that is not there raises
    [FileNotFoundError] for it; the output file is not created, no file is
    changed and nothing is logged: the world is as before but for the one
    reading of the clock. *)
Theorem dedup_file_missing_input (in_fname out_fname : str) (w : World) :
  files w !! in_fname = None ->
  dedup_file in_fname out_fname w
  = (Raise (FileNotFoundError in_fname), set_clock (tl (clock w)) w).
Proof.
  intros Hin. unfold dedup_file, log_timer.
  erewrite bind_ok by reflexivity.
  apply bind_raise. unfold dedup_file_body. apply bind_raise.
  unfold open_r. simpl. now rewrite Hin.
Qed.

Lemma set_iter_singleton (x : str) : set_iter (list_to_set [x]) = [x].
Proof.
  apply Permutation_singleton_r.
  rewrite set_iter_perm, elements_list_to_set; [reflexivity|].
  apply NoDup_singleton.
Qed.

(** X3. [dedup_file] with one name for input and output: the file is
    emptied when it is opened for writing, before it is read, so the run
    sees one empty line, reports 1 line and 0 duplicates and leaves the
    file empty. *)
Theorem dedup_file_in_place (fname content : str) (w : World) :
  files w !! fname = Some content ->
  exists w',
    dedup_file fname fname w = (Ok (1, 0)%Z, w')
    /\ files w' !! fname = Some [].
Proof.
  intros Hin. eexists. split.
  - unfold dedup_file, log_timer.
    erewrite bind_ok by reflexivity.
    erewrite bind_ok.
    2:{ unfold dedup_file_body.
        erewrite bind_ok by (unfold open_r; simpl; rewrite Hin; reflexivity).
        erewrite bind_ok by reflexivity.
        erewrite bind_ok.
        2:{ unfold get_lines. erewrite bind_ok.
            2:{ unfold fread. simpl. rewrite lookup_insert_eq. reflexivity. }
            reflexivity. }
        change (split NL (translate_newlines (default [] (Some [])))) with [[] : str].
        cbv beta iota zeta.
        rewrite set_iter_singleton.
        erewrite bind_ok by reflexivity.
        erewrite bind_ok by reflexivity.
        erewrite bind_ok by reflexivity.
        rewrite size_list_to_set by apply NoDup_singleton.
        reflexivity. }
    reflexivity.
  - simpl. now rewrite !lookup_insert_eq.
Qed.

(** X4. Deduplicating the output of [dedup_file] once more finds
    nothing to remove: the second run counts the lines the first one wrote
    and reports 0 duplicates. *)
Theorem dedup_file_twice (in_fname out_fname out2_fname content : str) (w : World) :
  in_fname <> out_fname ->
  out_fname <> out2_fname ->
  files w !! in_fname = Some content ->
  exists n d w1 w2,
    dedup_file in_fname out_fname w = (Ok (n, d), w1)
    /\ dedup_file out_fname out2_fname w1 = (Ok ((n - d)%Z, 0%Z), w2).
Proof.
  intros Hne Hne2 Hin.
  destruct (dedup_file_readback in_fname out_fname content w Hne Hin)
    as (n & d & written & w1 & E1 & Hout & _ & Hnd & _ & _ & _ & _ & Hn).
  destruct (dedup_file_spec out_fname out2_fname written w1 Hne2 Hout)
    as (out2 & w2 & E2 & _ & _).
  exists n, d, w1, w2. split; [exact E1|].
  rewrite E2. rewrite size_list_to_set by exact Hnd.
  do 2 f_equal. f_equal; lia.
Qed.

End DeduplicateMore.

Lemma dedup_file_unique_lines_witness :
  u "in.txt" <> u "out.txt"
  /\ files (world_with (u "in.txt") abac) !! u "in.txt" = Some abac
  /\ exists n d written w',
      @dedup_file elements_order (u "in.txt") (u "out.txt")
        (world_with (u "in.txt") abac) = (Ok (n, d), w')
      /\ files w' !! u "out.txt" = Some written
      /\ NoDup (split NL (translate_newlines written))
      /\ n = (d + Z.of_nat (length (split NL (translate_newlines written))))%Z.
Proof.
  assert (Hne : u "in.txt" <> u "out.txt") by (vm_compute; discriminate).
  assert (Hin : files (world_with (u "in.txt") abac) !! u "in.txt" = Some abac)
    by (vm_compute; reflexivity).
  split; [exact Hne|]. split; [exact Hin|].
  destruct (@dedup_file_unique_lines elements_order _ _ _ _ Hne Hin)
    as (n & d & written & w' & E & Hout & _ & Hnd & _ & _ & _ & _ & Hn).
  exists n, d, written, w'. repeat split; assumption.
Defined.

Lemma dedup_file_missing_input_witness :
  files empty_world !! u "missing.txt" = None
  /\ @dedup_file elements_order (u "missing.txt") (u "out.txt") empty_world
     = (Raise (FileNotFoundError (u "missing.txt")),
        set_clock (tl (clock empty_world)) empty_world).
Proof.
  assert (Hin : files empty_world !! u "missing.txt" = None) by reflexivity.
  split; [exact Hin|].
  exact (@dedup_file_missing_input elements_order _ (u "out.txt") _ Hin).
Defined.

Lemma dedup_file_in_place_witness :
  files (world_with (u "in.txt") abac) !! u "in.txt" = Some abac
  /\ exists w',
      @dedup_file elements_order (u "in.txt") (u "in.txt") (world_with (u "in.txt") abac)
      = (Ok (1, 0)%Z, w')
      /\ files w' !! u "in.txt" = Some [].
Proof.
  assert (Hin : files (world_with (u "in.txt") abac) !! u "in.txt" = Some abac)
    by (vm_compute; reflexivity).
  split; [exact Hin|].
  exact (@dedup_file_in_place elements_order _ _ _ Hin).
Defined.

Lemma dedup_file_twice_witness :
  u "in.txt" <> u "out.txt"
  /\ u "out.txt" <> u "out2.txt"
  /\ files (world_with (u "in.txt") abac) !! u "in.txt" = Some abac
  /\ exists n d w1 w2,
      @dedup_file elements_order (u "in.txt") (u "out.txt")
        (world_with (u "in.txt") abac) = (Ok (n, d), w1)
      /\ @dedup_file elements_order (u "out.txt") (u "out2.txt") w1
         = (Ok ((n - d)%Z, 0%Z), w2).
Proof.
  assert (Hne : u "in.txt" <> u "out.txt") by (vm_compute; discriminate).
  assert (Hne2 : u "out.txt" <> u "out2.txt") by (vm_compute; discriminate).
  assert (Hin : files (world_with (u "in.txt") abac) !! u "in.txt" = Some abac)
    by (vm_compute; reflexivity).
  split; [exact Hne|]. split; [exact Hne2|]. split; [exact Hin|].
  exact (@dedup_file_twice elements_order _ _ _ _ _ Hne Hne2 Hin).
Defined.

(** *** Lines and buckets *)

Lemma line_text_terminated x : line_text (x ++ [NL]) = x.
Proof.
  unfold line_text. rewrite last_snoc. simpl.
  rewrite length_app. simpl. replace (length x + 1 - 1) with (length x) by lia.
  apply take_app_length.
Qed.

Lemma line_text_unterminated l : NL ∉ l -> line_text l = l.
Proof.
  intros Hl. unfold line_text. destruct (last l) as [c|] eqn:El; [|reflexivity].
  destruct (N.eqb_spec c NL) as [->|]; [|reflexivity].
  exfalso. apply Hl. apply last_Some in El as [l' ->].
  apply elem_of_app. right. left.
Qed.

Lemma iter_lines_ok s : lines_ok (iter_lines s).
Proof.
  induction s as [|c s IH]; simpl; [constructor|].
  destruct (N.eqb_spec c NL) as [->|Hc].
  - apply (lines_ok_cons []); [apply not_elem_of_nil|exact IH].
  - destruct (iter_lines s) as [|l ls].
    + apply lines_ok_last; [discriminate|].
      apply not_elem_of_cons. split; [congruence|apply not_elem_of_nil].
    + inversion IH as [|l' Hne Hnl|x ls' Hx Hls]; subst.
      * apply lines_ok_last; [discriminate|].
        apply not_elem_of_cons. split; [congruence|exact Hnl].
      * apply (lines_ok_cons (c :: x)); [|exact Hls].
        apply not_elem_of_cons. split; [congruence|exact Hx].
Qed.

Lemma lines_ok_sublist (B ls : list str) : sublist B ls -> lines_ok ls -> lines_ok B.
Proof.
  intros Hsub. induction Hsub as [|l B ls Hsub IH|l B ls Hsub IH]; intros Hok.
  - constructor.
  - inversion Hok as [|l' Hne Hnl|x ls' Hx Hls]; subst.
    + apply sublist_nil_r in Hsub. subst B. now constructor.
    + constructor; [exact Hx|now apply IH].
  - apply IH. inversion Hok; subst; [constructor|assumption].
Qed.

Lemma trailing_cons x ls : trailing ((x ++ [NL]) :: ls) = trailing ls.
Proof.
  unfold trailing. destruct ls as [|l ls]; [|reflexivity].
  simpl. rewrite last_snoc. now rewrite bool_decide_eq_true_2.
Qed.

(** Splitting the concatenation of well-shaped lines gives their texts,
    and an empty string when the last line has its line feed. *)
Lemma split_concat_lines (B : list str) :
  lines_ok B -> split NL (concat B) = map line_text B ++ trailing B.
Proof.
  induction 1 as [|l Hne Hnl|x ls Hx Hls IH].
  - reflexivity.
  - simpl. rewrite app_nil_r, split_no_sep_id, line_text_unterminated by exact Hnl.
    unfold trailing. simpl. rewrite bool_decide_eq_false_2; [reflexivity|].
    intros El. apply Hnl. apply last_Some in El as [l' ->].
    apply elem_of_app. right. left.
  - cbn [concat map]. rewrite trailing_cons, line_text_terminated.
    rewrite <- app_assoc. cbn [app].
    rewrite split_app_cons by exact Hx. now rewrite IH.
Qed.

Lemma bucket_lines_from_sublist n k (lines : list str) : forall j,
  sublist (bucket_lines_from n k j lines) lines.
Proof.
  induction lines as [|l lines IH]; intros j.
  - unfold bucket_lines_from. simpl. constructor.
  - rewrite bucket_lines_from_cons.
    destruct (decide (j mod n = k)); simpl.
    + now apply sublist_skip.
    + now apply sublist_cons.
Qed.

Lemma bucket_lines_from_lookup n (lines : list str) : forall j i l,
  lines !! i = Some l -> l ∈ bucket_lines_from n ((j + i) mod n) j lines.
Proof.
  induction lines as [|l0 lines IH]; intros j i l Hl; [discriminate|].
  rewrite bucket_lines_from_cons. destruct i as [|i]; simpl in Hl.
  - injection Hl as ->. rewrite Nat.add_0_r.
    rewrite decide_True by reflexivity. left.
  - apply elem_of_app. right.
    replace (j + S i) with (S j + i) by lia. now apply IH.
Qed.

Lemma bucket_lines_one (lines : list str) : forall j,
  bucket_lines_from 1 0 j lines = lines.
Proof.
  induction lines as [|l lines IH]; intros j; [reflexivity|].
  rewrite bucket_lines_from_cons, IH.
  rewrite decide_True by apply Nat.mod_1_r. reflexivity.
Qed.

Lemma filter_eq_absent (x : str) (L : list str) :
  x ∉ L -> filter (fun l => l = x) L = [].
Proof.
  induction L as [|y L IH]; intros Hx; [reflexivity|].
  apply not_elem_of_cons in Hx as [Hxy Hx].
  rewrite filter_cons, decide_False by congruence. now apply IH.
Qed.

Lemma filter_eq_NoDup (x : str) (L : list str) :
  NoDup L -> length (filter (fun l => l = x) L) <= 1.
Proof.
  induction 1 as [|y L Hy HL IH]; [simpl; lia|].
  rewrite filter_cons. destruct (decide (y = x)) as [->|]; [|exact IH].
  simpl. rewrite filter_eq_absent by exact Hy. simpl. lia.
Qed.

Lemma filter_concat_length (x : str) (Ls : list (list str)) :
  Forall (@NoDup str) Ls ->
  length (filter (fun l => l = x) (concat Ls)) <= length Ls.
Proof.
  induction 1 as [|L Ls HL HLs IH]; [simpl; lia|].
  simpl. rewrite filter_app, length_app.
  pose proof (filter_eq_NoDup x L HL). lia.
Qed.

Section BigDedupMore.
Context `{SetOrder}.

(** The first half of [big_dedup_file], for whatever the input holds once
    the temporary files have been opened. *)
Lemma fill_bins_created (in_fname content : str) (n : nat) (w : World) :
  0 < n ->
  create_temps (range (Z.of_nat n)) (files w) !! in_fname = Some content ->
  fill_bins in_fname (Z.of_nat n) w
  = (Ok (map temp_name (range (Z.of_nat n))),
     set_files (deal n 0 (iter_lines (translate_newlines content))
                  (create_temps (range (Z.of_nat n)) (files w))) w).
Proof.
  intros Hn Hin. unfold fill_bins.
  erewrite bind_ok by apply create_loop. simpl app.
  erewrite bind_ok.
  2:{ unfold open_r. rewrite files_set_files, Hin. reflexivity. }
  erewrite bind_ok.
  2:{ unfold fread. rewrite files_set_files, Hin. reflexivity. }
  simpl default. erewrite bind_ok.
  2:{ pose proof (deal_loop n (iter_lines (translate_newlines content)) 0
                    (set_files (create_temps (range (Z.of_nat n)) (files w)) w) Hn) as E.
      rewrite Nat.Div0.mod_0_l in E. exact E. }
  unfold ret. now rewrite files_set_files, set_files_set_files.
Qed.

Lemma big_dedup_file_created (in_fname out_fname content : str) (n : nat) (w : World) :
  0 < n ->
  create_temps (range (Z.of_nat n)) (files w) !! in_fname = Some content ->
  (forall k, k < n -> out_fname <> temp_name (Z.of_nat k)) ->
  let lines := iter_lines (translate_newlines content) in
  exists Ls w',
    big_dedup_file in_fname out_fname (Z.of_nat n) w = (Ok tt, w')
    /\ (forall k, k < n ->
         files w' !! temp_name (Z.of_nat k) = Some (concat (bucket_lines n k lines)))
    /\ files w' !! out_fname = Some (concat (map (join [NL]) Ls))
    /\ Forall2 (fun L k =>
                  L ≡ₚ elements (list_to_set
                         (split NL (concat (bucket_lines n k lines))) : gset str))
         Ls (seq 0 n).
Proof.
  intros Hn Hin Hne lines.
  set (w0 := set_clock (tl (clock w)) w).
  set (fs1 := deal n 0 lines (create_temps (range (Z.of_nat n)) (files w0))).
  set (w2 := set_files (<[out_fname := []]> fs1) (set_files fs1 w0)).
  destruct (drain_loop out_fname
              (fun i => concat (bucket_lines n (Z.to_nat i) lines))
              (range (Z.of_nat n)) [] w2) as (Ls & w3 & E3 & F3 & P3).
  { apply lookup_insert_eq. }
  { intros i (k & Hk & ->)%elem_of_range. split; [now apply Hne|].
    unfold w2. rewrite files_set_files, Nat2Z.id.
    rewrite lookup_insert_ne by (now apply Hne).
    now apply fill_bins_files. }
  exists Ls. eexists. split; [|split; [|split]].
  - unfold big_dedup_file, log_timer.
    erewrite bind_ok by reflexivity. fold w0.
    erewrite bind_ok.
    2:{ unfold big_dedup_file_body.
        erewrite bind_ok by (apply fill_bins_created; [exact Hn|exact Hin]).
        fold lines. fold fs1.
        erewrite bind_ok.
        2:{ unfold drain_bins. erewrite bind_ok by reflexivity.
            rewrite files_set_files. fold w2. exact E3. }
        reflexivity. }
    reflexivity.
  - intros k Hk. simpl. rewrite F3. unfold w2. rewrite files_set_files.
    rewrite !lookup_insert_ne by (now apply Hne).
    now apply fill_bins_files.
  - simpl. rewrite F3. now rewrite lookup_insert_eq.
  - unfold range in P3. rewrite Nat2Z.id in P3.
    apply (Forall2_fmap_r Z.of_nat) in P3.
    eapply Forall2_impl; [exact P3|]. intros L k HP. simpl in HP.
    rewrite Nat2Z.id in HP.
    rewrite translate_newlines_id in HP; [exact HP|].
    apply bucket_no_cr, translate_newlines_no_cr.
Qed.

Lemma range_nonpositive (n : Z) : (n <= 0)%Z -> range n = [].
Proof. intros Hn. unfold range. now replace (Z.to_nat n) with 0 by lia. Qed.

Lemma iter_lines_nil s : iter_lines s = [] -> s = [].
Proof.
  destruct s as [|c s]; [reflexivity|]. simpl.
  destruct (N.eqb c NL); [discriminate|]. now destruct (iter_lines s).
Qed.

(** X5. [big_dedup_file] with no bucket ([n_bins <= 0]): [range] is
    empty, no temporary file is opened and the cycle over the handles has
    nothing to give.  If the input has a line, the first [next] raises
    [StopIteration], before the output file is opened: no file is created
    or changed.  If the input is empty, the run ends well and leaves an
    empty output file. *)
Theorem big_dedup_file_no_bins (in_fname out_fname content : str) (n_bins : Z)
    (w : World) :
  (n_bins <= 0)%Z ->
  files w !! in_fname = Some content ->
  (translate_newlines content <> [] ->
     fst (big_dedup_file in_fname out_fname n_bins w) = Raise StopIteration
     /\ files (snd (big_dedup_file in_fname out_fname n_bins w)) = files w)
  /\ (translate_newlines content = [] ->
       fst (big_dedup_file in_fname out_fname n_bins w) = Ok tt
       /\ files (snd (big_dedup_file in_fname out_fname n_bins w))
          = <[out_fname := []]> (files w)).
Proof.
  intros Hn Hin.
  assert (Hfill : forall w0, files w0 = files w ->
            fill_bins in_fname n_bins w0
            = match iter_lines (translate_newlines content) with
              | [] => (Ok [], w0)
              | _ :: _ => (Raise StopIteration, w0)
              end).
  { intros w0 Hw0. unfold fill_bins. rewrite range_nonpositive by exact Hn.
    erewrite bind_ok by reflexivity.
    erewrite bind_ok by (unfold open_r; rewrite Hw0, Hin; reflexivity).
    erewrite bind_ok by (unfold fread; rewrite Hw0, Hin; reflexivity).
    simpl default.
    destruct (iter_lines (translate_newlines content)) as [|l ls]; reflexivity. }
  destruct (iter_lines (translate_newlines content)) as [|l ls] eqn:El.
  - assert (E : big_dedup_file in_fname out_fname n_bins w
                = (Ok tt,
                   set_log (log w ++ [Info (u "pseudodeduplicated " ++ in_fname ++ u ", "
                                            ++ out_fname ++ u " is also pseudorandomized");
                                      Ran (hd 0%Q (tl (clock w)) - hd 0%Q (clock w))%Q])
                     (set_clock (tl (tl (clock w)))
                        (set_files (<[out_fname := []]> (files w)) w)))).
    { unfold big_dedup_file, log_timer.
      erewrite bind_ok by reflexivity.
      erewrite bind_ok.
      2:{ unfold big_dedup_file_body.
          erewrite bind_ok by (apply Hfill; reflexivity).
          erewrite bind_ok.
          2:{ unfold drain_bins. rewrite range_nonpositive by exact Hn. reflexivity. }
          reflexivity. }
      unfold bind, time, logging_info, ret. simpl. now rewrite <- app_assoc. }
    rewrite E. split; [|now split].
    intros Hne. apply iter_lines_nil in El. contradiction.
  - assert (E : big_dedup_file in_fname out_fname n_bins w
                = (Raise StopIteration, set_clock (tl (clock w)) w)).
    { unfold big_dedup_file, log_timer.
      erewrite bind_ok by reflexivity.
      apply bind_raise. unfold big_dedup_file_body. apply bind_raise.
      apply Hfill. reflexivity. }
    rewrite E. split; [now split|].
    intros Hnil. rewrite Hnil in El. discriminate El.
Qed.

(** X6. [big_dedup_file] on an input that is not there: the temporary
    files are opened first, so when [FileNotFoundError] is raised they
    have been created (or emptied) and stay behind, empty.  The output file
    is not touched. *)
Theorem big_dedup_file_missing_input (in_fname out_fname : str) (n : nat) (w : World) :
  files w !! in_fname = None ->
  (forall k, k < n -> in_fname <> temp_name (Z.of_nat k)
                      /\ out_fname <> temp_name (Z.of_nat k)) ->
  fst (big_dedup_file in_fname out_fname (Z.of_nat n) w)
  = Raise (FileNotFoundError in_fname)
  /\ (forall k, k < n ->
        files (snd (big_dedup_file in_fname out_fname (Z.of_nat n) w))
        !! temp_name (Z.of_nat k) = Some [])
  /\ files (snd (big_dedup_file in_fname out_fname (Z.of_nat n) w)) !! out_fname
     = files w !! out_fname.
Proof.
  intros Hin Hne.
  assert (E : big_dedup_file in_fname out_fname (Z.of_nat n) w
              = (Raise (FileNotFoundError in_fname),
                 set_files (create_temps (range (Z.of_nat n)) (files w))
                   (set_clock (tl (clock w)) w))).
  { unfold big_dedup_file, log_timer.
    erewrite bind_ok by reflexivity.
    apply bind_raise. unfold big_dedup_file_body. apply bind_raise.
    unfold fill_bins. erewrite bind_ok by apply create_loop.
    apply bind_raise. unfold open_r. rewrite files_set_files.
    rewrite create_temps_other.
    - simpl. rewrite Hin. reflexivity.
    - intros i (k & Hk & ->)%elem_of_range. now apply Hne. }
  rewrite E. simpl. split; [reflexivity|]. split.
  - intros k Hk. apply create_temps_temp.
    + apply elem_of_range. eauto.
    + intros j (k' & _ & ->)%elem_of_range Ej. f_equal. now apply temp_name_inj.
  - apply create_temps_other.
    intros i (k & Hk & ->)%elem_of_range. now apply Hne.
Qed.

(** X7. What the buckets of [big_dedup_file] keep and remove.  What
    bucket [k] contributes to the output is the set of the lines of its
    temporary file, each once, in some order.  So every line of the
    input is found, as its text, in what bucket [i mod n_bins]
    contributes; a contribution has no string twice and holds nothing
    but texts of input lines and the empty string; and a text is
    contributed at most [n_bins] times in all.  This is about the
    contributions, not about the lines of the output file: they are
    written with nothing between them, so lines merge where two
    contributions meet.  With two buckets on the lines ab, b, a, ab the
    file holds the line ab three times for one run of the draws, and not
    at all for another. *)
Theorem big_dedup_file_keeps_lines :
  (forall (in_fname out_fname content : str) (n : nat) (w : World),
    1 <= n ->
    files w !! in_fname = Some content ->
    (forall k, k < n -> in_fname <> temp_name (Z.of_nat k)
                        /\ out_fname <> temp_name (Z.of_nat k)) ->
    let lines := iter_lines (translate_newlines content) in
    exists Ls w',
      big_dedup_file in_fname out_fname (Z.of_nat n) w = (Ok tt, w')
      /\ files w' !! out_fname = Some (concat (map (join [NL]) Ls))
      /\ Forall2 (fun L k =>
                    L ≡ₚ elements (list_to_set
                           (split NL (concat (bucket_lines n k lines))) : gset str))
           Ls (seq 0 n)
      /\ length Ls = n
      /\ (forall i l, lines !! i = Some l ->
            exists L, Ls !! (i mod n) = Some L /\ line_text l ∈ L)
      /\ (forall L t, L ∈ Ls -> t ∈ L ->
            t = [] \/ exists l, l ∈ lines /\ t = line_text l)
      /\ Forall (@NoDup str) Ls
      /\ (forall x, length (filter (fun l => l = x) (concat Ls)) <= n))
  /\ (exists (w3 w0 : World) (out3 out0 : str),
        content_of w3 (u "in.txt") = Some ab_b_a_ab
        /\ content_of w0 (u "in.txt") = Some ab_b_a_ab
        /\ content_of (snd (@big_dedup_file elements_order (u "in.txt") (u "out.txt") 2 w3))
             (u "out.txt") = Some out3
        /\ content_of (snd (@big_dedup_file elements_order (u "in.txt") (u "out.txt") 2 w0))
             (u "out.txt") = Some out0
        /\ length (filter (fun l => l = u "ab") (split NL out3)) = 3
        /\ u "ab" ∉ split NL out0).
Proof.
  split.
  { intros in_fname out_fname content n w.
      intros Hn Hin Hne lines.
      destruct (big_dedup_file_spec in_fname out_fname content n w Hn Hin Hne)
        as (Ls & w' & E & _ & Hout & P). fold lines in P.
      assert (Hlen : length Ls = n).
      { apply Forall2_length in P. now rewrite length_seq in P. }
      assert (Hmem : forall k L t, Ls !! k = Some L ->
                (t ∈ L <-> t ∈ map line_text (bucket_lines n k lines)
                           \/ t ∈ trailing (bucket_lines n k lines))).
      { intros k L t HL.
        assert (Hk : seq 0 n !! k = Some k).
        { apply lookup_seq. split; [reflexivity|].
          apply lookup_lt_Some in HL. lia. }
        pose proof (Forall2_lookup_lr _ _ _ _ _ _ P HL Hk) as HP. simpl in HP.
        rewrite HP, elem_of_elements, elem_of_list_to_set.
        rewrite split_concat_lines, elem_of_app; [reflexivity|].
        eapply lines_ok_sublist; [apply bucket_lines_from_sublist|apply iter_lines_ok]. }
      assert (Hnd : Forall (@NoDup str) Ls).
      { apply Forall_forall. intros L HL.
        apply list_elem_of_lookup in HL as [k HL].
        assert (Hk : seq 0 n !! k = Some k).
        { apply lookup_seq. split; [reflexivity|].
          apply lookup_lt_Some in HL. lia. }
        pose proof (Forall2_lookup_lr _ _ _ _ _ _ P HL Hk) as HP. simpl in HP.
        rewrite HP. apply NoDup_elements. }
      exists Ls, w'. split; [exact E|]. split; [exact Hout|]. split; [exact P|].
      split; [exact Hlen|].
      split; [|split; [|split; [exact Hnd|]]].
      - intros i l Hl.
        assert (Hk : i mod n < length Ls) by (rewrite Hlen; apply Nat.mod_upper_bound; lia).
        apply lookup_lt_is_Some in Hk as [L HL].
        exists L. split; [exact HL|].
        apply (Hmem _ _ _ HL). left. apply list_elem_of_fmap. exists l. split; [reflexivity|].
        exact (bucket_lines_from_lookup n lines 0 i l Hl).
      - intros L t HL Ht. apply list_elem_of_lookup in HL as [k HL].
        apply (Hmem _ _ _ HL) in Ht as [Ht|Ht].
        + right. apply list_elem_of_fmap in Ht as (l & -> & Hl). exists l.
          split; [|reflexivity].
          eapply sublist_subseteq; [apply (bucket_lines_from_sublist n k lines 0)|exact Hl].
        + left. unfold trailing in Ht.
          destruct (last _) as [l|]; [destruct (bool_decide _)|].
          * now apply list_elem_of_singleton in Ht.
          * inversion Ht.
          * now apply list_elem_of_singleton in Ht.
      - intros x. rewrite <- Hlen. now apply filter_concat_length. }
  exists (world_with_rng (u "in.txt") ab_b_a_ab [1; 0; 0; 0]),
         (world_with_rng (u "in.txt") ab_b_a_ab [0; 0; 1; 1]).
  eexists. eexists.
  split; [vm_compute; reflexivity|].
  split; [vm_compute; reflexivity|].
  split; [vm_compute; reflexivity|].
  split; [vm_compute; reflexivity|].
  split; [vm_compute; reflexivity|].
  rewrite list_elem_of_In. vm_compute. intuition discriminate.
Qed.

(** X8. With one bucket [big_dedup_file] removes every duplicate: its
    output, read back and split into lines, has no line twice and has
    exactly the lines of the input, as the output of [dedup_file] has. *)
Theorem big_dedup_file_one_bin (in_fname out_fname content : str) (w : World) :
  files w !! in_fname = Some content ->
  in_fname <> temp_name 0 ->
  out_fname <> temp_name 0 ->
  exists written w',
    big_dedup_file in_fname out_fname 1 w = (Ok tt, w')
    /\ files w' !! out_fname = Some written
    /\ NoDup (split NL (translate_newlines written))
    /\ (forall l, l ∈ split NL (translate_newlines written)
                  <-> l ∈ split NL (translate_newlines content)).
Proof.
  intros Hin Hi Ho.
  destruct (big_dedup_file_spec in_fname out_fname content 1 w) as
    (Ls & w' & E & _ & Hout & P); [lia|exact Hin| |].
  { intros k Hk. replace k with 0 by lia. now split. }
  inversion P as [|L k0 Ls' ks' PL P' EL Ek]; subst.
  inversion P'; subst. clear P P'.
  unfold bucket_lines in PL. rewrite bucket_lines_one, concat_iter_lines in PL.
  simpl in Hout. rewrite app_nil_r in Hout.
  set (lines := split NL (translate_newlines content)) in *.
  assert (Hmem : forall l, l ∈ L <-> l ∈ lines).
  { intros l. rewrite PL, elem_of_elements, elem_of_list_to_set. reflexivity. }
  assert (HL : L <> []).
  { intros ->. pose proof (split_nonempty NL (translate_newlines content)) as Hs.
    fold lines in Hs. destruct lines as [|l0 ls]; [contradiction|].
    apply (not_elem_of_nil l0), Hmem. left. }
  assert (Hback : split NL (translate_newlines (join [NL] L)) = L).
  { rewrite translate_newlines_id.
    - apply split_join; [exact HL|]. intros l Hl%Hmem.
      now apply (split_no_sep NL (translate_newlines content)).
    - apply no_cr_join. intros l Hl%Hmem.
      apply (split_no_cr (translate_newlines content)); [|exact Hl].
      apply translate_newlines_no_cr. }
  exists (join [NL] L), w'. split; [exact E|]. split; [exact Hout|].
  rewrite Hback. split; [rewrite PL; apply NoDup_elements|exact Hmem].
Qed.

(** X9. [big_dedup_file] on an input that bears the name of one of its
    temporary files: the file is emptied when the temporary files are
    opened, before it is read (and is created if it was not there), so no
    line is dealt out and the input and the output both end up empty. *)
Theorem big_dedup_file_temp_input (out_fname : str) (n k : nat) (w : World) :
  k < n ->
  (forall j, j < n -> out_fname <> temp_name (Z.of_nat j)) ->
  exists w',
    big_dedup_file (temp_name (Z.of_nat k)) out_fname (Z.of_nat n) w = (Ok tt, w')
    /\ files w' !! temp_name (Z.of_nat k) = Some []
    /\ files w' !! out_fname = Some [].
Proof.
  intros Hk Hne.
  assert (Hin : create_temps (range (Z.of_nat n)) (files w) !! temp_name (Z.of_nat k)
                = Some []).
  { apply create_temps_temp.
    - apply elem_of_range. eauto.
    - intros j (k' & _ & ->)%elem_of_range Ej. f_equal. now apply temp_name_inj. }
  destruct (big_dedup_file_created (temp_name (Z.of_nat k)) out_fname [] n w)
    as (Ls & w' & E & Htemp & Hout & P); [lia|exact Hin|exact Hne|].
  exists w'. split; [exact E|]. split; [exact (Htemp k Hk)|].
  rewrite Hout. f_equal.
  clear -P. revert P. generalize (seq 0 n). intros ks P.
  induction P as [|L j Ls ks PL P IH]; [reflexivity|].
  simpl. rewrite IH, app_nil_r.
  change (concat (bucket_lines n j (iter_lines (translate_newlines [])))) with (@nil N)
    in PL.
  change (split NL []) with [[] : str] in PL.
  rewrite elements_list_to_set in PL by apply NoDup_singleton.
  apply Permutation_singleton_r in PL. now subst L.
Qed.

End BigDedupMore.

Lemma big_dedup_file_no_bins_witness :
  (0 <= 0)%Z
  /\ files (world_with (u "in.txt") abac) !! u "in.txt" = Some abac
  /\ fst (@big_dedup_file elements_order (u "in.txt") (u "out.txt") 0
            (world_with (u "in.txt") abac)) = Raise StopIteration
  /\ files (snd (@big_dedup_file elements_order (u "in.txt") (u "out.txt") 0
                   (world_with (u "in.txt") abac)))
     = files (world_with (u "in.txt") abac).
Proof.
  assert (Hn : (0 <= 0)%Z) by lia.
  assert (Hin : files (world_with (u "in.txt") abac) !! u "in.txt" = Some abac)
    by (vm_compute; reflexivity).
  split; [exact Hn|]. split; [exact Hin|].
  apply (proj1 (@big_dedup_file_no_bins elements_order _ (u "out.txt") _ _ _ Hn Hin)).
  vm_compute; discriminate.
Defined.

Lemma big_dedup_file_missing_input_witness :
  files empty_world !! u "missing.txt" = None
  /\ (forall k, k < 2 -> u "missing.txt" <> temp_name (Z.of_nat k)
                         /\ u "out.txt" <> temp_name (Z.of_nat k))
  /\ fst (@big_dedup_file elements_order (u "missing.txt") (u "out.txt") (Z.of_nat 2)
            empty_world) = Raise (FileNotFoundError (u "missing.txt"))
  /\ files (snd (@big_dedup_file elements_order (u "missing.txt") (u "out.txt")
                   (Z.of_nat 2) empty_world)) !! temp_name 1 = Some [].
Proof.
  assert (Hin : files empty_world !! u "missing.txt" = None) by reflexivity.
  assert (Hne : forall k, k < 2 -> u "missing.txt" <> temp_name (Z.of_nat k)
                                   /\ u "out.txt" <> temp_name (Z.of_nat k)).
  { intros [|[|k]] Hk; [split; vm_compute; discriminate ..|lia]. }
  split; [exact Hin|]. split; [exact Hne|].
  destruct (@big_dedup_file_missing_input elements_order _ _ _ _ Hin Hne)
    as (E & Htemp & _).
  split; [exact E|]. exact (Htemp 1 ltac:(lia)).
Defined.

Lemma big_dedup_file_keeps_lines_witness :
  1 <= 2
  /\ files (world_with (u "in.txt") abac) !! u "in.txt" = Some abac
  /\ (forall k, k < 2 -> u "in.txt" <> temp_name (Z.of_nat k)
                         /\ u "out.txt" <> temp_name (Z.of_nat k))
  /\ exists Ls w',
      @big_dedup_file elements_order (u "in.txt") (u "out.txt") (Z.of_nat 2)
        (world_with (u "in.txt") abac) = (Ok tt, w')
      /\ length Ls = 2
      /\ length (filter (fun l => l = u "a") (concat Ls)) <= 2.
Proof.
  assert (Hn : 1 <= 2) by lia.
  assert (Hin : files (world_with (u "in.txt") abac) !! u "in.txt" = Some abac)
    by (vm_compute; reflexivity).
  assert (Hne : forall k, k < 2 -> u "in.txt" <> temp_name (Z.of_nat k)
                                   /\ u "out.txt" <> temp_name (Z.of_nat k)).
  { intros [|[|k]] Hk; [split; vm_compute; discriminate ..|lia]. }
  split; [exact Hn|]. split; [exact Hin|]. split; [exact Hne|].
  destruct (proj1 (@big_dedup_file_keeps_lines elements_order) _ _ _ _ _ Hn Hin Hne)
    as (Ls & w' & E & _ & _ & Hlen & _ & _ & _ & Hcount).
  exists Ls, w'. split; [exact E|]. split; [exact Hlen|]. apply Hcount.
Defined.

Lemma big_dedup_file_one_bin_witness :
  files (world_with (u "in.txt") abac) !! u "in.txt" = Some abac
  /\ u "in.txt" <> temp_name 0
  /\ u "out.txt" <> temp_name 0
  /\ exists written w',
      @big_dedup_file elements_order (u "in.txt") (u "out.txt") 1
        (world_with (u "in.txt") abac) = (Ok tt, w')
      /\ files w' !! u "out.txt" = Some written
      /\ NoDup (split NL (translate_newlines written)).
Proof.
  assert (Hin : files (world_with (u "in.txt") abac) !! u "in.txt" = Some abac)
    by (vm_compute; reflexivity).
  assert (Hi : u "in.txt" <> temp_name 0) by (vm_compute; discriminate).
  assert (Ho : u "out.txt" <> temp_name 0) by (vm_compute; discriminate).
  split; [exact Hin|]. split; [exact Hi|]. split; [exact Ho|].
  destruct (@big_dedup_file_one_bin elements_order _ _ _ _ Hin Hi Ho)
    as (written & w' & E & Hout & Hnd & _).
  exists written, w'. split; [exact E|]. split; [exact Hout|]. exact Hnd.
Defined.

Lemma big_dedup_file_temp_input_witness :
  0 < 2
  /\ (forall j, j < 2 -> u "out.txt" <> temp_name (Z.of_nat j))
  /\ exists w',
      @big_dedup_file elements_order (temp_name (Z.of_nat 0)) (u "out.txt") (Z.of_nat 2)
        (world_with (temp_name 0) abac) = (Ok tt, w')
      /\ files w' !! temp_name (Z.of_nat 0) = Some []
      /\ files w' !! u "out.txt" = Some [].
Proof.
  assert (Hk : 0 < 2) by lia.
  assert (Hne : forall j, j < 2 -> u "out.txt" <> temp_name (Z.of_nat j)).
  { intros [|[|k]] Hj; [vm_compute; discriminate ..|lia]. }
  split; [exact Hk|]. split; [exact Hne|].
  exact (@big_dedup_file_temp_input elements_order _ _ _ (world_with (temp_name 0) abac)
           Hk Hne).
Defined.

(** *** The command line of deduplicate.py *)

Lemma join_last_suffix sep (parts : list str) :
  parts <> [] ->
  exists pre, join [sep] parts = pre ++ default [] (last parts)
              /\ (pre = [] \/ last pre = Some sep).
Proof.
  induction parts as [|p ps IH]; intros Hne; [contradiction|].
  destruct ps as [|p' ps].
  - exists []. split; [reflexivity|now left].
  - destruct IH as (pre & E & Hpre); [discriminate|].
    exists (p ++ sep :: pre). split.
    + change (join [sep] (p :: p' :: ps)) with (p ++ sep :: join [sep] (p' :: ps)).
      rewrite E. change (last (p :: p' :: ps)) with (last (p' :: ps)).
      now rewrite <- app_assoc.
    + right. destruct Hpre as [->|Hl].
      * now rewrite last_snoc.
      * rewrite last_app, last_cons, Hl. reflexivity.
Qed.

(** [os.path.split] cuts after the last slash. *)
Lemma os_path_split_spec (p : str) :
  exists pre, p = pre ++ snd (os_path_split p)
              /\ (pre = [] \/ last pre = Some (ch "/")).
Proof.
  destruct (join_last_suffix (ch "/") (split (ch "/") p) (split_nonempty _ _))
    as (pre & E & Hpre).
  rewrite join_split in E. exists pre. split; [exact E|exact Hpre].
Qed.

Lemma os_path_join_suffix (a b : str) :
  exists x, os_path_join a b = x ++ b.
Proof.
  unfold os_path_join. destruct (startswith b (u "/")); [now exists []|].
  destruct (_ || _); [now exists a|].
  exists (a ++ u "/"). now rewrite <- app_assoc.
Qed.

Lemma output_name_differs (filename prefix : str) :
  last prefix = Some (ch ".") ->
  os_path_join (fst (os_path_split filename)) (prefix ++ snd (os_path_split filename))
  <> filename.
Proof.
  intros Hdot E.
  destruct (os_path_split_spec filename) as (pre & Hp & Hpre).
  destruct (os_path_join_suffix (fst (os_path_split filename))
              (prefix ++ snd (os_path_split filename))) as (x & Hx).
  rewrite Hx in E. clear Hx.
  remember (snd (os_path_split filename)) as tl eqn:Htl. clear Htl.
  rewrite Hp in E. rewrite !app_assoc in E. apply app_inv_tail in E.
  apply (f_equal last) in E. rewrite last_app, Hdot in E.
  destruct Hpre as [->|Hl]; [discriminate E|].
  rewrite Hl in E. discriminate E.
Qed.

(** X10. The command line of deduplicate.py never names the input as
    its output: the name it builds, dedup. or pseudodedup. put before the
    last part of the path, is not the name given.  So with [--bins 1],
    where [dedup_file] runs, the input file is the same after the run as
    before, whether it is there or not. *)
Theorem deduplicate_main_keeps_input `{SetOrder} (filename : str) (w : World) :
  os_path_join (fst (os_path_split filename))
    (u "dedup." ++ snd (os_path_split filename)) <> filename
  /\ os_path_join (fst (os_path_split filename))
       (u "pseudodedup." ++ snd (os_path_split filename)) <> filename
  /\ files (snd (deduplicate_main filename 1 w)) !! filename = files w !! filename.
Proof.
  split; [now apply output_name_differs|]. split; [now apply output_name_differs|].
  unfold deduplicate_main.
  destruct (os_path_split filename) as [path fname] eqn:Es.
  change (Z.eqb 1 1) with true. cbv iota.
  pose proof (output_name_differs filename (u "dedup.") eq_refl) as Hne.
  rewrite Es in Hne. simpl fst in Hne. simpl snd in Hne.
  assert (Hr : respects (same_files_but (fun f => f = os_path_join path (u "dedup." ++ fname)))
                 (dedup_file filename (os_path_join path (u "dedup." ++ fname)) ;; ret tt)).
  { rapply @respects_bind; [apply dedup_file_same_files|].
    intros _. rapply @respects_ret. }
  apply Hr. congruence.
Qed.

(** ** clean_subs.py: the archives *)

(** [int] takes a number of 4300 digits and refuses one of 4301, so a
    path with such a year is a malformed path. *)
Example py_int_digit_limit `{Unicode} :
  py_int (replicate 4300 48%N) = Some 0%Z
  /\ py_int (replicate 4301 48%N) = None
  /\ py_int (49%N :: 95%N :: replicate 4299 48%N) <> None
  /\ malformed (u "xml") (u "OpenSubtitles/raw") (u "en")
       (u "OpenSubtitles/raw/en/" ++ replicate 4301 48%N ++ u "/1/a.xml") = true.
Proof.
  split; [vm_compute; reflexivity|]. split; [vm_compute; reflexivity|].
  split; [vm_compute; discriminate|]. vm_compute. reflexivity.
Qed.


Lemma log_timer_ok {A B} (func : A -> M B) (args : A) (w w1 : World) (r : B) :
  func args (set_clock (tl (clock w)) w) = (Ok r, w1) ->
  log_timer func args w
  = (Ok r, set_log (log w1 ++ [Ran (hd 0%Q (clock w1) - hd 0%Q (clock w))%Q])
             (set_clock (tl (clock w1)) w1)).
Proof.
  intros E. unfold log_timer.
  erewrite bind_ok by reflexivity.
  erewrite bind_ok by exact E.
  reflexivity.
Qed.

Lemma log_timer_raise {A B} (func : A -> M B) (args : A) (w w1 : World) (e : exn) :
  func args (set_clock (tl (clock w)) w) = (Raise e, w1) ->
  log_timer func args w = (Raise e, w1).
Proof.
  intros E. unfold log_timer.
  erewrite bind_ok by reflexivity.
  now apply bind_raise.
Qed.

Section Selection.
Context `{Unicode}.

Lemma select_path_world ext dirpath lang years filepaths filepath w :
  snd (select_path ext dirpath lang years filepaths filepath w) = w.
Proof.
  unfold select_path.
  destruct (endswith filepath ext); [|reflexivity].
  destruct dirpath as [d|]; [|reflexivity].
  destruct (startswith filepath (os_path_join d lang)); [|reflexivity].
  destruct (split (ch "/") filepath !! 3) as [segment|]; [|reflexivity].
  destruct (py_int segment) as [year|]; [|reflexivity].
  now destruct (in_range2 year (fst years) (snd years)).
Qed.

(** The selection loop never changes the world. *)
Lemma select_loop_world ext dirpath lang years names : forall filepaths w,
  snd (for_fold names (select_path ext dirpath lang years) filepaths w) = w.
Proof.
  induction names as [|p names IH]; intros filepaths w; [reflexivity|].
  simpl. unfold bind.
  pose proof (select_path_world ext dirpath lang years filepaths p w) as Hw.
  destruct (select_path ext dirpath lang years filepaths p w) as [[fps|e] w1];
    simpl in Hw; subst w1; [apply IH|reflexivity].
Qed.

(** With no directory for the format, the first name with the ending
    raises. *)
Lemma select_loop_unbound ext lang years names : forall filepaths w,
  for_fold names (select_path ext None lang years) filepaths w
  = (if existsb (fun p => endswith p ext) names
     then Raise UnboundLocalError else Ok filepaths, w).
Proof.
  induction names as [|p names IH]; intros filepaths w; [reflexivity|].
  simpl. unfold bind, select_path at 1.
  destruct (endswith p ext); simpl; [reflexivity|apply IH].
Qed.

Lemma malformed_false ext d lang p :
  malformed ext d lang p = false ->
  endswith p ext = true -> startswith p (os_path_join d lang) = true ->
  exists year, year_of p = Some year.
Proof.
  unfold malformed. intros Hm E1 E2. rewrite E1, E2 in Hm. simpl in Hm.
  apply negb_false_iff, bool_decide_eq_true in Hm. exact Hm.
Qed.

(** With no malformed name, the loop keeps the wanted names, in the order
    of the listing. *)
Lemma select_loop_ok ext d lang years names : forall filepaths w,
  (forall p, p ∈ names -> malformed ext d lang p = false) ->
  for_fold names (select_path ext (Some d) lang years) filepaths w
  = (Ok (filepaths ++ List.filter (wanted ext d lang years) names), w).
Proof.
  induction names as [|p names IH]; intros filepaths w Hm.
  - simpl. now rewrite app_nil_r.
  - assert (Hp := Hm p ltac:(left)).
    assert (Hrest : forall q, q ∈ names -> malformed ext d lang q = false)
      by (intros q Hq; apply Hm; now right).
    cbn [for_fold List.filter]. unfold bind, select_path at 1, wanted at 1.
    destruct (endswith p ext) eqn:Eext; [|simpl; now apply IH].
    destruct (startswith p (os_path_join d lang)) eqn:Epre; [|simpl; now apply IH].
    destruct (malformed_false _ _ _ _ Hp Eext Epre) as [year Ey].
    rewrite Ey. unfold year_of in Ey.
    destruct (split (ch "/") p !! 3) as [segment|]; [|discriminate Ey].
    rewrite Ey. simpl.
    destruct (in_range2 year (fst years) (snd years)); simpl.
    + rewrite IH by exact Hrest. now rewrite <- app_assoc.
    + now apply IH.
Qed.

(** A malformed name makes the loop raise, whatever the other names. *)
Lemma select_loop_malformed ext d lang years names p : forall filepaths w,
  p ∈ names -> malformed ext d lang p = true ->
  exists e, (e = IndexError \/ e = ValueError)
            /\ for_fold names (select_path ext (Some d) lang years) filepaths w
               = (Raise e, w).
Proof.
  induction names as [|q names IH]; intros filepaths w Hin Hm; [inversion Hin|].
  cbn [for_fold]. unfold bind.
  pose proof (select_path_world ext (Some d) lang years filepaths q w) as Hw.
  destruct (select_path ext (Some d) lang years filepaths q w) as [[fps|e] w1] eqn:E;
    simpl in Hw; subst w1.
  - apply elem_of_cons in Hin as [->|Hin]; [|now apply IH].
    exfalso. unfold malformed in Hm. unfold select_path in E.
    apply andb_true_iff in Hm as [[Eext Epre]%andb_true_iff Hy].
    rewrite Eext, Epre in E.
    apply negb_true_iff, bool_decide_eq_false in Hy. unfold year_of in Hy.
    destruct (split (ch "/") q !! 3) as [segment|]; [|discriminate E].
    destruct (py_int segment) as [year|]; [|discriminate E].
    apply Hy. now eexists.
  - exists e. split; [|reflexivity].
    unfold select_path in E.
    destruct (endswith q ext); [|discriminate E].
    destruct (startswith q (os_path_join d lang)); [|discriminate E].
    destruct (split (ch "/") q !! 3) as [segment|];
      [|injection E as <-; now left].
    destruct (py_int segment) as [year|]; [|injection E as <-; now right].
    destruct (in_range2 year (fst years) (snd years)); discriminate E.
Qed.

End Selection.

Lemma source_zip_not_stripped (lang : str) : source_zip lang <> stripped_zip lang.
Proof.
  unfold source_zip, stripped_zip. intros E.
  apply app_inv_head in E. apply app_inv_head in E. discriminate E.
Qed.

Lemma dirpath_of_unsupported (ioformat : str) :
  ioformat <> u "txt" -> ioformat <> u "upos" -> ioformat <> u "lemma" ->
  dirpath_of ioformat = None.
Proof.
  intros H1 H2 H3. unfold dirpath_of.
  now rewrite !bool_decide_eq_false_2 by assumption.
Qed.

Global Instance appends_to_refl z : Reflexive (appends_to z).
Proof.
  intros w. split; [reflexivity|]. split; [reflexivity|].
  exists []. now rewrite app_nil_r.
Qed.

Global Instance appends_to_trans z : Transitive (appends_to z).
Proof.
  intros w1 w2 w3 (Hf1 & Hz1 & m1 & Hm1) (Hf2 & Hz2 & m2 & Hm2).
  split; [congruence|]. split.
  - intros z' Hz'. rewrite Hz2, Hz1 by exact Hz'. reflexivity.
  - exists (m1 ++ m2). now rewrite Hm2, Hm1, app_assoc.
Qed.

(** A step that changes neither the text files nor the archives. *)
Lemma appends_to_same z (w w' : World) :
  files w' = files w -> zips w' = zips w -> appends_to z w w'.
Proof.
  intros Hf Hz. split; [exact Hf|]. split; [now rewrite Hz|].
  exists []. now rewrite Hz, app_nil_r.
Qed.

Global Instance writes_only_refl f : Reflexive (writes_only f).
Proof. intros w. split; reflexivity. Qed.

Global Instance writes_only_trans f : Transitive (writes_only f).
Proof.
  intros w1 w2 w3 [Hz1 Hf1] [Hz2 Hf2]. split; [congruence|].
  now transitivity w2.
Qed.

(** [sorted] gives the ascending arrangement of its argument. *)
Lemma str_le_total (a : str) : forall b, str_le a b = false -> str_le b a = true.
Proof.
  induction a as [|x a IH]; intros [|y b]; simpl; try easy.
  intros [Hlt Hr]%orb_false_iff. apply N.ltb_ge in Hlt.
  destruct (N.ltb_spec y x) as [Hyx|Hyx]; [reflexivity|]. simpl.
  assert (x = y) as -> by lia. rewrite N.eqb_refl in *. simpl in *. now apply IH.
Qed.

Lemma str_le_trans (a : str) : forall b c,
  str_le a b = true -> str_le b c = true -> str_le a c = true.
Proof.
  induction a as [|x a IH]; intros [|y b] [|z c]; simpl; try easy.
  intros [Hxy|[Hxy Hab]%andb_true_iff]%orb_true_iff
         [Hyz|[Hyz Hbc]%andb_true_iff]%orb_true_iff;
    rewrite ?N.ltb_lt, ?N.eqb_eq in *; subst.
  - apply orb_true_iff. left. apply N.ltb_lt. lia.
  - apply orb_true_iff. left. now apply N.ltb_lt.
  - apply orb_true_iff. left. now apply N.ltb_lt.
  - apply orb_true_iff. right. rewrite N.eqb_refl. simpl. now apply (IH b).
Qed.

Lemma insert_sorted_perm (x : str) (l : list str) : insert_sorted x l ≡ₚ x :: l.
Proof.
  induction l as [|y l IH]; simpl; [reflexivity|].
  destruct (str_le x y); [reflexivity|]. rewrite IH. apply perm_swap.
Qed.

Lemma sorted_perm (l : list str) : sorted l ≡ₚ l.
Proof.
  induction l as [|x l IH]; simpl; [reflexivity|].
  now rewrite insert_sorted_perm, IH.
Qed.

Lemma insert_sorted_sorted (x : str) (l : list str) :
  StronglySorted (fun a b => str_le a b = true) l ->
  StronglySorted (fun a b => str_le a b = true) (insert_sorted x l).
Proof.
  induction l as [|y l IH]; intros Hs; simpl.
  - repeat constructor.
  - apply StronglySorted_inv in Hs as [Hl Hy].
    destruct (str_le x y) eqn:Exy.
    + constructor; [now constructor|].
      constructor; [exact Exy|].
      eapply Forall_impl; [exact Hy|]. intros z Hz. now apply (str_le_trans x y).
    + constructor; [now apply IH|].
      apply Forall_forall. intros z Hz%elem_of_insert_sorted.
      destruct Hz as [->|Hz]; [now apply str_le_total|].
      rewrite Forall_forall in Hy. now apply Hy.
Qed.

Lemma sorted_sorted (l : list str) :
  StronglySorted (fun a b => str_le a b = true) (sorted l).
Proof.
  induction l as [|x l IH]; simpl; [constructor|]. now apply insert_sorted_sorted.
Qed.

Section ArchiveMore.
Context `{Unicode} `{Lxml}.

(** The start of [strip_archive] on a source archive that is there: the
    stripped archive is opened, and the selection loop runs on the names
    of the source archive. *)
Lemma strip_archive_body_start (lang ioformat : str) (years : Z * Z) (w : World)
    (entries : list (str * bytes)) :
  zips w !! source_zip lang = Some entries ->
  strip_archive_body (lang, ioformat, years) w
  = (filepaths <- for_fold (map fst entries)
                    (select_path (u "xml") (dirpath_of ioformat) lang years) [] ;;
     logging_info (Info (u "stripping xml from " ++ str_of_nat (length filepaths)
                         ++ u " subtitles in " ++ lang)) ;;
     for_each (sorted filepaths) (strip_entry (source_zip lang) (stripped_zip lang) ioformat))
      (set_zips (<[stripped_zip lang := default [] (zips w !! stripped_zip lang)]> (zips w)) w).
Proof.
  intros Hz. unfold strip_archive_body.
  erewrite bind_ok by (unfold zip_open_r; fold (source_zip lang); rewrite Hz; reflexivity).
  erewrite bind_ok by reflexivity.
  erewrite bind_ok.
  2:{ unfold namelist. cbn [zips set_zips].
      change (u "corpora/" ++ lang ++ u ".zip") with (source_zip lang).
      change (u "corpora/" ++ lang ++ u "_stripped.zip") with (stripped_zip lang).
      rewrite lookup_insert_ne by (apply not_eq_sym, source_zip_not_stripped).
      rewrite Hz. reflexivity. }
  reflexivity.
Qed.

(** The start of [join_archive] on a stripped archive that is there. *)
Lemma join_archive_body_start (lang ioformat : str) (years : Z * Z) (verbose : bool)
    (w : World) (entries : list (str * bytes)) :
  zips w !! stripped_zip lang = Some entries ->
  join_archive_body (lang, ioformat, years, verbose) w
  = (filepaths <- for_fold (map fst entries)
                    (select_path ioformat (dirpath_of ioformat) lang years) [] ;;
     let total := Z.of_nat (length filepaths) in
     logging_info (Info (u "joining " ++ str_of_nat (length filepaths)
                         ++ u " subtitles in " ++ lang ++ u " into a single file")) ;;
     open_w (joined_file lang ioformat) ;;
     for_fold filepaths
       (join_entry (stripped_zip lang) (joined_file lang ioformat) ioformat verbose total)
       0%Z ;;
     (if verbose then print EmptyLine else ret tt) ;;
     ret total) w.
Proof.
  intros Hz. unfold join_archive_body.
  erewrite bind_ok by (unfold zip_open_r; fold (stripped_zip lang); rewrite Hz; reflexivity).
  erewrite bind_ok.
  2:{ unfold namelist. fold (stripped_zip lang). rewrite Hz. reflexivity. }
  reflexivity.
Qed.

(** X11. [strip_archive] on a source archive that is not there raises
    [FileNotFoundError] for it before the stripped archive is opened: no
    archive is created, nothing is logged. *)
Theorem strip_archive_missing_archive (lang ioformat : str) (years : Z * Z) (w : World) :
  zips w !! source_zip lang = None ->
  strip_archive lang ioformat years w
  = (Raise (FileNotFoundError (source_zip lang)), set_clock (tl (clock w)) w).
Proof.
  intros Hz. unfold strip_archive. apply log_timer_raise.
  unfold strip_archive_body. apply bind_raise.
  unfold zip_open_r. fold (source_zip lang). simpl. now rewrite Hz.
Qed.

(** X12. [join_archive] on a stripped archive that is not there raises
    [FileNotFoundError] for it before the output file is opened: the file
    of the joined corpus is not created, nor emptied if it was there. *)
Theorem join_archive_missing_archive (lang ioformat : str) (years : Z * Z)
    (verbose : bool) (w : World) :
  zips w !! stripped_zip lang = None ->
  join_archive lang ioformat years verbose w
  = (Raise (FileNotFoundError (stripped_zip lang)), set_clock (tl (clock w)) w).
Proof.
  intros Hz. unfold join_archive. apply log_timer_raise.
  unfold join_archive_body. apply bind_raise.
  unfold zip_open_r. fold (stripped_zip lang). simpl. now rewrite Hz.
Qed.

(** X13. [strip_archive] with a format other than txt, upos and lemma
    (so with viz, which the command line accepts): [dirpath] is not bound,
    and the first name of the archive that ends with xml raises
    [UnboundLocalError].  Either way no entry is read and none is written;
    all that is left is the stripped archive, opened. *)
Theorem strip_archive_unsupported_format (lang ioformat : str) (years : Z * Z)
    (w : World) (entries : list (str * bytes)) :
  ioformat <> u "txt" -> ioformat <> u "upos" -> ioformat <> u "lemma" ->
  zips w !! source_zip lang = Some entries ->
  fst (strip_archive lang ioformat years w)
  = (if existsb (fun p => endswith p (u "xml")) (map fst entries)
     then Raise UnboundLocalError else Ok tt)
  /\ opened (snd (strip_archive lang ioformat years w)) = opened w
  /\ files (snd (strip_archive lang ioformat years w)) = files w
  /\ zips (snd (strip_archive lang ioformat years w))
     = <[stripped_zip lang := default [] (zips w !! stripped_zip lang)]> (zips w).
Proof.
  intros H1 H2 H3 Hz. unfold strip_archive.
  pose proof (strip_archive_body_start lang ioformat years
                (set_clock (tl (clock w)) w) entries Hz) as E.
  rewrite (dirpath_of_unsupported _ H1 H2 H3) in E.
  unfold bind at 1 in E. rewrite select_loop_unbound in E.
  destruct (existsb _ _).
  - rewrite (log_timer_raise _ _ _ _ _ E). repeat split.
  - cbn beta iota in E. change (sorted []) with (@nil str) in E.
    erewrite bind_ok in E by reflexivity. cbn [for_each] in E.
    rewrite (log_timer_ok _ _ _ _ _ E). repeat split.
Qed.

(** X14. [join_archive] with a format other than txt, upos and lemma:
    the first name of the stripped archive that ends with the format
    raises [UnboundLocalError], before the output file is opened, so no
    file is created or changed.  With no such name the run ends well,
    returns 0 and leaves an empty output file. *)
Theorem join_archive_unsupported_format (lang ioformat : str) (years : Z * Z)
    (verbose : bool) (w : World) (entries : list (str * bytes)) :
  ioformat <> u "txt" -> ioformat <> u "upos" -> ioformat <> u "lemma" ->
  zips w !! stripped_zip lang = Some entries ->
  zips (snd (join_archive lang ioformat years verbose w)) = zips w
  /\ opened (snd (join_archive lang ioformat years verbose w)) = opened w
  /\ if existsb (fun p => endswith p ioformat) (map fst entries)
     then fst (join_archive lang ioformat years verbose w) = Raise UnboundLocalError
          /\ files (snd (join_archive lang ioformat years verbose w)) = files w
     else fst (join_archive lang ioformat years verbose w) = Ok 0%Z
          /\ files (snd (join_archive lang ioformat years verbose w))
             = <[joined_file lang ioformat := []]> (files w).
Proof.
  intros H1 H2 H3 Hz. unfold join_archive.
  pose proof (join_archive_body_start lang ioformat years verbose
                (set_clock (tl (clock w)) w) entries Hz) as E.
  rewrite (dirpath_of_unsupported _ H1 H2 H3) in E.
  unfold bind at 1 in E. rewrite select_loop_unbound in E.
  destruct (existsb _ _).
  - rewrite (log_timer_raise _ _ _ _ _ E). repeat split.
  - cbn beta iota zeta in E.
    erewrite bind_ok in E by reflexivity.
    erewrite bind_ok in E by reflexivity.
    cbn [for_fold] in E.
    erewrite bind_ok in E by reflexivity.
    destruct verbose.
    + erewrite bind_ok in E by reflexivity.
      rewrite (log_timer_ok _ _ _ _ _ E). repeat split.
    + erewrite bind_ok in E by reflexivity.
      rewrite (log_timer_ok _ _ _ _ _ E). repeat split.
Qed.

(** X15. One malformed path stops [strip_archive] before anything is
    stripped: if a name of the source archive ends with xml and starts
    with the directory of the format and the language, but has no fourth
    segment or one that is no integer, the run raises [IndexError] or
    [ValueError] in the selection loop; no entry is read, none is written
    and nothing is logged, whatever the other entries are. *)
Theorem strip_archive_malformed_path (lang ioformat d : str) (years : Z * Z)
    (w : World) (entries : list (str * bytes)) (p : str) :
  dirpath_of ioformat = Some d ->
  zips w !! source_zip lang = Some entries ->
  p ∈ map fst entries ->
  malformed (u "xml") d lang p = true ->
  (fst (strip_archive lang ioformat years w) = Raise IndexError
   \/ fst (strip_archive lang ioformat years w) = Raise ValueError)
  /\ opened (snd (strip_archive lang ioformat years w)) = opened w
  /\ log (snd (strip_archive lang ioformat years w)) = log w
  /\ zips (snd (strip_archive lang ioformat years w))
     = <[stripped_zip lang := default [] (zips w !! stripped_zip lang)]> (zips w).
Proof.
  intros Hd Hz Hp Hm. unfold strip_archive.
  pose proof (strip_archive_body_start lang ioformat years
                (set_clock (tl (clock w)) w) entries Hz) as E.
  rewrite Hd in E.
  match type of E with _ = bind _ _ ?w1 =>
    destruct (select_loop_malformed (u "xml") d lang years _ p [] w1 Hp Hm)
      as (e & He & El)
  end.
  rewrite (bind_raise _ _ _ _ _ El) in E.
  rewrite (log_timer_raise _ _ _ _ _ E).
  split; [destruct He as [-> | ->]; [now left|now right]|]. repeat split.
Qed.

(** X16. One malformed path stops [join_archive] before anything is
    joined: the run raises [IndexError] or [ValueError] in the selection
    loop, before the output file is opened; no file is created or
    changed, no entry is read and nothing is logged. *)
Theorem join_archive_malformed_path (lang ioformat d : str) (years : Z * Z)
    (verbose : bool) (w : World) (entries : list (str * bytes)) (p : str) :
  dirpath_of ioformat = Some d ->
  zips w !! stripped_zip lang = Some entries ->
  p ∈ map fst entries ->
  malformed ioformat d lang p = true ->
  (fst (join_archive lang ioformat years verbose w) = Raise IndexError
   \/ fst (join_archive lang ioformat years verbose w) = Raise ValueError)
  /\ files (snd (join_archive lang ioformat years verbose w)) = files w
  /\ opened (snd (join_archive lang ioformat years verbose w)) = opened w
  /\ log (snd (join_archive lang ioformat years verbose w)) = log w
  /\ zips (snd (join_archive lang ioformat years verbose w)) = zips w.
Proof.
  intros Hd Hz Hp Hm. unfold join_archive.
  pose proof (join_archive_body_start lang ioformat years verbose
                (set_clock (tl (clock w)) w) entries Hz) as E.
  rewrite Hd in E.
  match type of E with _ = bind _ _ ?w1 =>
    destruct (select_loop_malformed ioformat d lang years _ p [] w1 Hp Hm)
      as (e & He & El)
  end.
  rewrite (bind_raise _ _ _ _ _ El) in E.
  rewrite (log_timer_raise _ _ _ _ _ E).
  split; [destruct He as [-> | ->]; [now left|now right]|]. repeat split.
Qed.

Lemma last_entry_is_Some (p : str) (entries : list (str * bytes)) :
  p ∈ map fst entries -> is_Some (last_entry p entries).
Proof.
  induction entries as [|[n data] rest IH]; simpl; [intros Hp; inversion Hp|].
  intros [->|Hin]%elem_of_cons.
  - destruct (last_entry n rest); [eauto|].
    rewrite bool_decide_eq_true_2 by reflexivity. eauto.
  - destruct (IH Hin) as [d0 ->]. eauto.
Qed.

Lemma for_fold_app {A S} (l1 l2 : list A) (body : S -> A -> M S) : forall s w,
  for_fold (l1 ++ l2) body s w
  = (s' <- for_fold l1 body s ;; for_fold l2 body s') w.
Proof.
  induction l1 as [|x l1 IH]; intros s w; [reflexivity|].
  simpl. unfold bind.
  destruct (body s x w) as [[s1|e] w1]; [|reflexivity].
  rewrite IH. reflexivity.
Qed.

(** One round of the loop of [join_archive] on an entry that decodes. *)
Lemma join_entry_ok read_zip out_fname ioformat verbose total i p w entries txt :
  zips w !! read_zip = Some entries ->
  entry_text entries p = Some txt ->
  exists w',
    join_entry read_zip out_fname ioformat verbose total i p w
    = (Ok (if verbose then (i + 1)%Z else i), w')
    /\ files w' = <[out_fname := default [] (files w !! out_fname)
                                 ++ strip_punctuation txt ioformat]> (files w)
    /\ zips w' = zips w
    /\ opened w' = opened w ++ [(read_zip, p)]
    /\ log w' = log w.
Proof.
  intros Hz Ht. unfold entry_text in Ht.
  destruct (last_entry p entries) as [data|] eqn:El; [|discriminate Ht].
  simpl in Ht. unfold join_entry.
  erewrite bind_ok by (unfold zip_read; rewrite Hz; simpl; rewrite El; reflexivity).
  rewrite Ht.
  erewrite bind_ok by reflexivity.
  erewrite bind_ok by reflexivity.
  destruct verbose.
  - erewrite bind_ok by reflexivity. eexists. split; [reflexivity|]. repeat split.
  - eexists. split; [reflexivity|]. repeat split.
Qed.

(** One round on an entry that is in the archive and does not decode. *)
Lemma join_entry_undecodable read_zip out_fname ioformat verbose total i p w entries :
  zips w !! read_zip = Some entries ->
  p ∈ map fst entries ->
  entry_text entries p = None ->
  join_entry read_zip out_fname ioformat verbose total i p w
  = (Raise UnicodeDecodeError, set_opened (opened w ++ [(read_zip, p)]) w).
Proof.
  intros Hz Hp Ht. unfold entry_text in Ht.
  destruct (last_entry_is_Some p entries Hp) as [data El].
  rewrite El in Ht. simpl in Ht. unfold join_entry.
  erewrite bind_ok by (unfold zip_read; rewrite Hz; simpl; rewrite El; reflexivity).
  rewrite Ht. reflexivity.
Qed.

Lemma join_loop_ok read_zip out_fname ioformat verbose total entries paths :
  forall i w content,
  zips w !! read_zip = Some entries ->
  files w !! out_fname = Some content ->
  Forall (fun p => is_Some (entry_text entries p)) paths ->
  exists i' w',
    for_fold paths (join_entry read_zip out_fname ioformat verbose total) i w
    = (Ok i', w')
    /\ files w' = <[out_fname := content ++ concat (map (cleaned entries ioformat) paths)]>
                    (files w)
    /\ zips w' = zips w
    /\ opened w' = opened w ++ map (pair read_zip) paths
    /\ log w' = log w.
Proof.
  induction paths as [|p paths IH]; intros i w content Hz Hf Hall.
  - exists i, w. split; [reflexivity|]. simpl. rewrite !app_nil_r.
    split; [|repeat split]. symmetry. now apply insert_id.
  - apply Forall_cons in Hall as [[txt Ht] Hall].
    destruct (join_entry_ok read_zip out_fname ioformat verbose total i p w entries txt
                Hz Ht) as (w1 & E1 & Hf1 & Hz1 & Ho1 & Hl1).
    rewrite Hf in Hf1. simpl in Hf1.
    destruct (IH (if verbose then (i + 1)%Z else i) w1
                (content ++ strip_punctuation txt ioformat))
      as (i' & w' & E & Hf' & Hz' & Ho' & Hl'); [congruence| |exact Hall|].
    { rewrite Hf1. apply lookup_insert_eq. }
    exists i', w'. cbn [for_fold]. rewrite (bind_ok _ _ _ _ _ E1).
    split; [exact E|].
    split.
    { rewrite Hf', Hf1, insert_insert_eq. f_equal. cbn [map concat].
      unfold cleaned at 2. rewrite Ht. simpl. now rewrite app_assoc. }
    split; [congruence|]. split; [|congruence].
    rewrite Ho', Ho1. cbn [map]. now rewrite <- app_assoc.
Qed.

(** [join_archive] up to its loop over the selected entries. *)
Lemma join_archive_body_loop (lang ioformat d : str) (years : Z * Z) (verbose : bool)
    (w : World) (entries : list (str * bytes)) :
  dirpath_of ioformat = Some d ->
  zips w !! stripped_zip lang = Some entries ->
  (forall p, p ∈ map fst entries -> malformed ioformat d lang p = false) ->
  let sel := List.filter (wanted ioformat d lang years) (map fst entries) in
  let total := Z.of_nat (length sel) in
  join_archive_body (lang, ioformat, years, verbose) w
  = (for_fold sel
       (join_entry (stripped_zip lang) (joined_file lang ioformat) ioformat verbose total)
       0%Z ;;
     (if verbose then print EmptyLine else ret tt) ;;
     ret total)
      (set_files (<[joined_file lang ioformat := []]> (files w))
         (set_log (log w ++ [Info (u "joining " ++ str_of_nat (length sel)
                                   ++ u " subtitles in " ++ lang
                                   ++ u " into a single file")]) w)).
Proof.
  intros Hd Hz Hm sel total.
  rewrite (join_archive_body_start _ _ _ _ _ _ Hz), Hd.
  erewrite bind_ok by (apply select_loop_ok; exact Hm).
  cbn [app]. fold sel. cbv zeta. fold total.
  erewrite bind_ok by reflexivity.
  erewrite bind_ok by reflexivity.
  reflexivity.
Qed.

(** What [join_archive] does on an archive it can read through. *)
Lemma join_archive_spec (lang ioformat d : str) (years : Z * Z) (verbose : bool)
    (w : World) (entries : list (str * bytes)) :
  dirpath_of ioformat = Some d ->
  zips w !! stripped_zip lang = Some entries ->
  (forall p, p ∈ map fst entries -> malformed ioformat d lang p = false) ->
  let sel := List.filter (wanted ioformat d lang years) (map fst entries) in
  (forall p, p ∈ sel -> is_Some (entry_text entries p)) ->
  exists w',
    join_archive lang ioformat years verbose w = (Ok (Z.of_nat (length sel)), w')
    /\ files w'
       = <[joined_file lang ioformat :=
             concat (map (fun p => strip_punctuation (default [] (entry_text entries p))
                                     ioformat) sel)]> (files w)
    /\ zips w' = zips w
    /\ opened w' = opened w ++ map (pair (stripped_zip lang)) sel.
Proof.
  intros Hd Hz Hm sel Hdec.
  pose proof (join_archive_body_loop lang ioformat d years verbose
                (set_clock (tl (clock w)) w) entries Hd Hz Hm) as E.
  cbv zeta in E. fold sel in E.
  match type of E with _ = bind _ _ ?w1 =>
    destruct (join_loop_ok (stripped_zip lang) (joined_file lang ioformat) ioformat verbose
                (Z.of_nat (length sel)) entries sel 0%Z w1 [])
      as (i' & w2 & El & Hf & Hz2 & Ho & Hl);
      [exact Hz|apply lookup_insert_eq|now apply Forall_forall|]
  end.
  rewrite (bind_ok _ _ _ _ _ El) in E.
  assert (exists w3, join_archive_body (lang, ioformat, years, verbose)
                       (set_clock (tl (clock w)) w) = (Ok (Z.of_nat (length sel)), w3)
                     /\ files w3 = files w2 /\ zips w3 = zips w2
                     /\ opened w3 = opened w2) as (w3 & E3 & Hf3 & Hz3 & Ho3).
  { destruct verbose.
    - erewrite bind_ok in E by reflexivity. eexists. split; [exact E|]. repeat split.
    - erewrite bind_ok in E by reflexivity. eexists. split; [exact E|]. repeat split. }
  eexists. unfold join_archive. split; [apply (log_timer_ok _ _ _ _ _ E3)|].
  cbn [files zips opened set_log set_clock].
  split; [|split].
  - rewrite Hf3, Hf. cbn [files set_files set_log set_clock].
    rewrite insert_insert_eq. reflexivity.
  - rewrite Hz3, Hz2. reflexivity.
  - rewrite Ho3, Ho. reflexivity.
Qed.

(** X17. What [join_archive] writes.  For a format that has a
    directory, an archive without malformed paths and selected entries
    that all decode as UTF-8: the run returns the number of selected
    entries, and the output file holds the cleaned texts of the selected
    entries, one after the other, in the order of the listing of the
    archive; what the file held before is gone.  The archive is not
    changed, and the entries read are the selected ones, in that order. *)
Theorem join_archive_joins (lang ioformat d : str) (years : Z * Z) (verbose : bool)
    (w : World) (entries : list (str * bytes)) :
  dirpath_of ioformat = Some d ->
  zips w !! stripped_zip lang = Some entries ->
  (forall p, p ∈ map fst entries -> malformed ioformat d lang p = false) ->
  let sel := List.filter (wanted ioformat d lang years) (map fst entries) in
  (forall p, p ∈ sel -> is_Some (entry_text entries p)) ->
  exists w',
    join_archive lang ioformat years verbose w = (Ok (Z.of_nat (length sel)), w')
    /\ files w'
       = <[joined_file lang ioformat :=
             concat (map (fun p => strip_punctuation (default [] (entry_text entries p))
                                     ioformat) sel)]> (files w)
    /\ zips w' = zips w
    /\ opened w' = opened w ++ map (pair (stripped_zip lang)) sel.
Proof. apply join_archive_spec. Qed.

(** X18. An entry that is not UTF-8 stops [join_archive] in the middle:
    the run raises [UnicodeDecodeError] and leaves an output file that
    holds the cleaned texts of the selected entries that come before the
    bad one, and nothing of those after. *)
Theorem join_archive_undecodable (lang ioformat d : str) (years : Z * Z) (verbose : bool)
    (w : World) (entries : list (str * bytes)) (good rest : list str) (bad : str) :
  dirpath_of ioformat = Some d ->
  zips w !! stripped_zip lang = Some entries ->
  (forall p, p ∈ map fst entries -> malformed ioformat d lang p = false) ->
  List.filter (wanted ioformat d lang years) (map fst entries) = good ++ bad :: rest ->
  (forall p, p ∈ good -> is_Some (entry_text entries p)) ->
  entry_text entries bad = None ->
  fst (join_archive lang ioformat years verbose w) = Raise UnicodeDecodeError
  /\ files (snd (join_archive lang ioformat years verbose w))
     = <[joined_file lang ioformat :=
           concat (map (fun p => strip_punctuation (default [] (entry_text entries p))
                                   ioformat) good)]> (files w).
Proof.
  intros Hd Hz Hm Hsel Hgood Hbad.
  pose proof (join_archive_body_loop lang ioformat d years verbose
                (set_clock (tl (clock w)) w) entries Hd Hz Hm) as E.
  cbv zeta in E. rewrite Hsel in E.
  assert (Hin : bad ∈ map fst entries).
  { assert (Hb : bad ∈ List.filter (wanted ioformat d lang years) (map fst entries))
      by (rewrite Hsel; apply elem_of_app; right; left).
    apply list_elem_of_In, filter_In in Hb as [Hb _]. now apply list_elem_of_In. }
  match type of E with _ = bind (for_fold _ ?body _) _ ?w1 =>
    destruct (join_loop_ok (stripped_zip lang) (joined_file lang ioformat) ioformat verbose
                (Z.of_nat (length (good ++ bad :: rest))) entries good 0%Z w1 [])
      as (i' & w2 & El & Hf & Hz2 & Ho & Hl);
      [exact Hz|apply lookup_insert_eq|now apply Forall_forall|];
    assert (E2 : for_fold (good ++ bad :: rest) body 0%Z w1
                 = (Raise UnicodeDecodeError,
                    set_opened (opened w2 ++ [(stripped_zip lang, bad)]) w2))
  end.
  { rewrite for_fold_app. rewrite (bind_ok _ _ _ _ _ El). cbn [for_fold].
    apply bind_raise. apply (join_entry_undecodable _ _ _ _ _ _ _ _ entries);
      [rewrite Hz2; exact Hz|exact Hin|exact Hbad]. }
  rewrite (bind_raise _ _ _ _ _ E2) in E.
  unfold join_archive. rewrite (log_timer_raise _ _ _ _ _ E).
  split; [reflexivity|]. cbn [snd files set_opened]. rewrite Hf.
  cbn [files set_files set_log set_clock]. now rewrite insert_insert_eq.
Qed.

(** One round of the loop of [strip_archive] on an entry that can be
    stripped and stored. *)
Lemma strip_entry_ok read_zip write_zip ioformat p w entries e :
  zips w !! read_zip = Some entries ->
  stripped_entry entries ioformat p = Some e ->
  exists w',
    strip_entry read_zip write_zip ioformat p w = (Ok tt, w')
    /\ zips w' = <[write_zip := default [] (zips w !! write_zip) ++ [e]]> (zips w)
    /\ files w' = files w
    /\ opened w' = opened w ++ [(read_zip, p)].
Proof.
  intros Hz He. unfold stripped_entry in He.
  destruct (last_entry p entries) as [data|] eqn:El; [|discriminate He].
  simpl in He.
  destruct (strip_xml data ioformat) as [[s|]|ex] eqn:Ex; try discriminate He.
  destruct (encode_utf8 s) as [b|] eqn:Eb; [|discriminate He].
  simpl in He. injection He as <-.
  unfold strip_entry.
  erewrite bind_ok by (unfold zip_read; rewrite Hz; simpl; rewrite El; reflexivity).
  rewrite Ex.
  erewrite bind_ok by reflexivity.
  unfold writestr. rewrite Eb.
  eexists. split; [reflexivity|]. repeat split.
Qed.

Lemma strip_loop_ok read_zip write_zip ioformat entries paths : forall w old,
  read_zip <> write_zip ->
  zips w !! read_zip = Some entries ->
  zips w !! write_zip = Some old ->
  Forall (fun p => is_Some (stripped_entry entries ioformat p)) paths ->
  exists w' new,
    for_each paths (strip_entry read_zip write_zip ioformat) w = (Ok tt, w')
    /\ Forall2 (fun p e => stripped_entry entries ioformat p = Some e) paths new
    /\ zips w' = <[write_zip := old ++ new]> (zips w)
    /\ files w' = files w
    /\ opened w' = opened w ++ map (pair read_zip) paths.
Proof.
  induction paths as [|p paths IH]; intros w old Hne Hz Ho Hall.
  - exists w, []. split; [reflexivity|]. split; [constructor|].
    rewrite !app_nil_r. split; [|now split]. symmetry. now apply insert_id.
  - apply Forall_cons in Hall as [[e He] Hall].
    destruct (strip_entry_ok read_zip write_zip ioformat p w entries e Hz He)
      as (w1 & E1 & Hz1 & Hf1 & Ho1).
    rewrite Ho in Hz1. simpl in Hz1.
    destruct (IH w1 (old ++ [e]) Hne) as (w' & new & E & HF & Hz' & Hf' & Ho');
      [rewrite Hz1, lookup_insert_ne by (now apply not_eq_sym); exact Hz
      |rewrite Hz1; apply lookup_insert_eq|exact Hall|].
    exists w', (e :: new). cbn [for_each]. rewrite (bind_ok _ _ _ _ _ E1).
    split; [exact E|]. split; [now constructor|].
    split; [|split].
    + rewrite Hz', Hz1, insert_insert_eq. now rewrite <- app_assoc.
    + congruence.
    + rewrite Ho', Ho1. cbn [map]. now rewrite <- app_assoc.
Qed.

(** What [strip_archive] does on an archive it can strip through. *)
Lemma strip_archive_spec (lang ioformat d : str) (years : Z * Z)
    (w : World) (entries : list (str * bytes)) :
  dirpath_of ioformat = Some d ->
  zips w !! source_zip lang = Some entries ->
  (forall p, p ∈ map fst entries -> malformed (u "xml") d lang p = false) ->
  let sel := List.filter (wanted (u "xml") d lang years) (map fst entries) in
  (forall p, p ∈ sel -> is_Some (stripped_entry entries ioformat p)) ->
  exists w' new,
    strip_archive lang ioformat years w = (Ok tt, w')
    /\ Forall2 (fun p e => stripped_entry entries ioformat p = Some e) (sorted sel) new
    /\ zips w' = <[stripped_zip lang := default [] (zips w !! stripped_zip lang) ++ new]>
                   (zips w)
    /\ files w' = files w
    /\ opened w' = opened w ++ map (pair (source_zip lang)) (sorted sel)
    /\ sorted sel ≡ₚ sel
    /\ StronglySorted (fun a b => str_le a b = true) (sorted sel).
Proof.
  intros Hd Hz Hm sel Hdec.
  pose proof (strip_archive_body_start lang ioformat years
                (set_clock (tl (clock w)) w) entries Hz) as E.
  rewrite Hd in E.
  erewrite bind_ok in E by (apply select_loop_ok; exact Hm).
  cbn [app] in E. fold sel in E.
  erewrite bind_ok in E by reflexivity.
  match type of E with _ = for_each _ _ ?w1 =>
    destruct (strip_loop_ok (source_zip lang) (stripped_zip lang) ioformat entries
                (sorted sel) w1 (default [] (zips w !! stripped_zip lang))
                (source_zip_not_stripped lang))
      as (w2 & new & El & HF & Hz2 & Hf2 & Ho2)
  end.
  { cbn [zips set_zips set_log set_clock].
    rewrite lookup_insert_ne by (apply not_eq_sym, source_zip_not_stripped). exact Hz. }
  { cbn [zips set_zips set_log set_clock]. apply lookup_insert_eq. }
  { apply Forall_forall. intros p Hp%elem_of_sorted. now apply Hdec. }
  rewrite El in E.
  exists (set_log (log w2 ++ [Ran (hd 0%Q (clock w2) - hd 0%Q (clock w))%Q])
            (set_clock (tl (clock w2)) w2)), new.
  unfold strip_archive. split; [apply (log_timer_ok _ _ _ _ _ E)|].
  split; [exact HF|].
  cbn [files zips opened set_log set_clock].
  split; [|split; [|split; [|split]]].
  - rewrite Hz2. cbn [zips set_zips set_log set_clock]. apply insert_insert_eq.
  - rewrite Hf2. reflexivity.
  - rewrite Ho2. reflexivity.
  - apply sorted_perm.
  - apply sorted_sorted.
Qed.

(** X19. What [strip_archive] writes.  For a format that has a
    directory, a source archive without malformed paths, and selected
    entries that can all be parsed, stripped and encoded: the run adds to
    the end of the stripped archive one entry for every selected path, in
    ascending order of the paths, whatever their order in the source
    archive; each is named by the path with every xml in it replaced by
    the format.  The entries the stripped archive held before are kept,
    the source archive and the text files are not changed. *)
Theorem strip_archive_strips (lang ioformat d : str) (years : Z * Z)
    (w : World) (entries : list (str * bytes)) :
  dirpath_of ioformat = Some d ->
  zips w !! source_zip lang = Some entries ->
  (forall p, p ∈ map fst entries -> malformed (u "xml") d lang p = false) ->
  let sel := List.filter (wanted (u "xml") d lang years) (map fst entries) in
  (forall p, p ∈ sel -> is_Some (stripped_entry entries ioformat p)) ->
  exists w' new,
    strip_archive lang ioformat years w = (Ok tt, w')
    /\ Forall2 (fun p e => stripped_entry entries ioformat p = Some e) (sorted sel) new
    /\ zips w' = <[stripped_zip lang := default [] (zips w !! stripped_zip lang) ++ new]>
                   (zips w)
    /\ files w' = files w
    /\ opened w' = opened w ++ map (pair (source_zip lang)) (sorted sel)
    /\ sorted sel ≡ₚ sel
    /\ StronglySorted (fun a b => str_le a b = true) (sorted sel).
Proof. apply strip_archive_spec. Qed.

Lemma strip_archive_appends (lang ioformat : str) (years : Z * Z) :
  respects (appends_to (stripped_zip lang)) (strip_archive lang ioformat years).
Proof.
  unfold strip_archive. rapply @respects_log_timer.
  { intros w0 c. apply appends_to_same; reflexivity. }
  { intros w0 l. apply appends_to_same; reflexivity. }
  unfold strip_archive_body.
  rapply @respects_bind; [rapply @respects_zip_open_r|]. intros _.
  rapply @respects_bind.
  { intros w0. unfold zip_open_a. fold (stripped_zip lang).
    split; [reflexivity|]. split.
    - intros z' Hz'. simpl. now rewrite lookup_insert_ne by (now apply not_eq_sym).
    - exists []. simpl. now rewrite lookup_insert_eq, app_nil_r. }
  intros _.
  rapply @respects_bind; [rapply @respects_namelist|]. intros names.
  rapply @respects_bind.
  { intros w0. rewrite select_loop_world. reflexivity. }
  intros filepaths.
  rapply @respects_bind.
  { rapply @respects_logging_info. intros w0 l. apply appends_to_same; reflexivity. }
  intros _. rapply @respects_for_each. intros p _.
  unfold strip_entry.
  rapply @respects_bind.
  { rapply @respects_zip_read. intros w0 o. apply appends_to_same; reflexivity. }
  intros data. rapply @respects_bind; [rapply @respects_lift|].
  intros [s|]; [|rapply @respects_raise].
  intros w0. unfold writestr. fold (stripped_zip lang).
  destruct (encode_utf8 s) as [b|]; [|reflexivity].
  split; [reflexivity|]. split.
  - intros z' Hz'. simpl. now rewrite lookup_insert_ne by (now apply not_eq_sym).
  - eexists. simpl. rewrite lookup_insert_eq. reflexivity.
Qed.

(** X20. Whatever its arguments and whatever the archives hold, also
    when it fails, [strip_archive] only adds entries at the end of the
    stripped archive: the text files, the source archive and every other
    archive are the same after the run, and the entries the stripped
    archive held before are still there, in front. *)
Theorem strip_archive_appends_only (lang ioformat : str) (years : Z * Z) (w : World) :
  files (snd (strip_archive lang ioformat years w)) = files w
  /\ zips (snd (strip_archive lang ioformat years w)) !! source_zip lang
     = zips w !! source_zip lang
  /\ (forall z, z <> stripped_zip lang ->
        zips (snd (strip_archive lang ioformat years w)) !! z = zips w !! z)
  /\ exists more,
       default [] (zips (snd (strip_archive lang ioformat years w)) !! stripped_zip lang)
       = default [] (zips w !! stripped_zip lang) ++ more.
Proof.
  destruct (strip_archive_appends lang ioformat years w) as (Hf & Hz & Hmore).
  split; [exact Hf|]. split; [apply Hz, source_zip_not_stripped|].
  split; [exact Hz|exact Hmore].
Qed.

(** A round of the selection loop keeps the list or adds the path to it,
    and raises nothing but the three exceptions of the loop. *)
Lemma select_path_result ext dirpath lang years filepaths p w :
  match fst (select_path ext dirpath lang years filepaths p w) with
  | Ok fps => fps = filepaths \/ fps = filepaths ++ [p]
  | Raise e => e = UnboundLocalError \/ e = IndexError \/ e = ValueError
  end.
Proof.
  unfold select_path.
  destruct (endswith p ext); [|now left].
  destruct dirpath as [d|]; [|now left].
  destruct (startswith p (os_path_join d lang)); [|now left].
  destruct (split (ch "/") p !! 3) as [segment|]; [|right; now left].
  destruct (py_int segment) as [year|]; [|right; now right].
  destruct (in_range2 year (fst years) (snd years)); [now right|now left].
Qed.

Lemma select_loop_result ext dirpath lang years names : forall filepaths w,
  match fst (for_fold names (select_path ext dirpath lang years) filepaths w) with
  | Ok fps => forall q, q ∈ fps -> q ∈ filepaths \/ q ∈ names
  | Raise e => e = UnboundLocalError \/ e = IndexError \/ e = ValueError
  end.
Proof.
  induction names as [|p names IH]; intros filepaths w; [simpl; now left|].
  cbn [for_fold]. unfold bind.
  pose proof (select_path_result ext dirpath lang years filepaths p w) as Hp.
  pose proof (select_path_world ext dirpath lang years filepaths p w) as Hw.
  destruct (select_path ext dirpath lang years filepaths p w) as [[fps|e] w1];
    simpl in Hp, Hw; [|exact Hp].
  specialize (IH fps w1).
  destruct (fst (for_fold names _ fps w1)) as [fps'|e]; [|exact IH].
  intros q Hq. destruct (IH q Hq) as [Hin|Hin]; [|right; now right].
  destruct Hp as [->| ->]; [now left|].
  apply elem_of_app in Hin as [Hin|Hin%list_elem_of_singleton]; [now left|].
  subst q. right. left.
Qed.

(** The loop of [join_archive] over names of the archive can fail only
    on an entry that does not decode. *)
Lemma join_loop_exn read_zip out_fname ioformat verbose total entries paths :
  forall i w e,
  zips w !! read_zip = Some entries ->
  (forall p, p ∈ paths -> p ∈ map fst entries) ->
  fst (for_fold paths (join_entry read_zip out_fname ioformat verbose total) i w)
  = Raise e ->
  e = UnicodeDecodeError.
Proof.
  induction paths as [|p paths IH]; intros i w e Hz Hin E; [discriminate E|].
  cbn [for_fold] in E.
  destruct (entry_text entries p) as [txt|] eqn:Et.
  - destruct (join_entry_ok read_zip out_fname ioformat verbose total i p w entries txt
                Hz Et) as (w1 & E1 & _ & Hz1 & _).
    rewrite (bind_ok _ _ _ _ _ E1) in E.
    apply IH in E; [exact E|congruence|]. intros q Hq. apply Hin. now right.
  - erewrite bind_raise in E.
    2:{ apply (join_entry_undecodable _ _ _ _ _ _ _ _ entries); [exact Hz| |exact Et].
        apply Hin. left. }
    now injection E as <-.
Qed.

Lemma join_archive_writes_only (lang ioformat : str) (years : Z * Z) (verbose : bool) :
  respects (writes_only (joined_file lang ioformat))
    (join_archive lang ioformat years verbose).
Proof.
  unfold join_archive. rapply @respects_log_timer.
  { intros w0 c. now split. }
  { intros w0 l. now split. }
  unfold join_archive_body.
  rapply @respects_bind; [rapply @respects_zip_open_r|]. intros _.
  rapply @respects_bind; [rapply @respects_namelist|]. intros names.
  rapply @respects_bind.
  { intros w0. rewrite select_loop_world. reflexivity. }
  intros filepaths.
  rapply @respects_bind; [rapply @respects_logging_info; intros w0 l; now split|].
  intros _. fold (joined_file lang ioformat).
  rapply @respects_bind.
  { intros w0. split; [reflexivity|]. now apply same_files_but_open_w. }
  intros _. rapply @respects_bind.
  { rapply @respects_for_fold. intros i p _. unfold join_entry.
    rapply @respects_bind; [rapply @respects_zip_read; intros w0 o; now split|].
    intros data. rapply @respects_bind; [rapply @respects_lift|]. intros txt.
    rapply @respects_bind.
    { intros w0. split; [reflexivity|]. now apply same_files_but_fwrite. }
    intros _. destruct verbose; [|rapply @respects_ret].
    rapply @respects_bind; [rapply @respects_print; intros w0 c; now split|].
    intros _. rapply @respects_ret. }
  intros _. rapply @respects_bind.
  { destruct verbose; [rapply @respects_print; intros w0 c; now split|].
    rapply @respects_ret. }
  intros _. rapply @respects_ret.
Qed.

(** X21. How [join_archive] can fail and what it can change, whatever
    its arguments and whatever the archives hold.  It changes no archive
    and no text file but its output file.  It raises nothing but
    [FileNotFoundError] for the stripped archive, the three exceptions of
    the selection loop ([UnboundLocalError], [IndexError], [ValueError])
    and [UnicodeDecodeError]; in particular an entry it selects is always
    found in the archive.  Of these only [UnicodeDecodeError] comes after
    the output file is opened: with the others no file has been created
    or changed. *)
Theorem join_archive_failures (lang ioformat : str) (years : Z * Z) (verbose : bool)
    (w : World) :
  zips (snd (join_archive lang ioformat years verbose w)) = zips w
  /\ (forall f, f <> joined_file lang ioformat ->
        files (snd (join_archive lang ioformat years verbose w)) !! f = files w !! f)
  /\ (forall e, fst (join_archive lang ioformat years verbose w) = Raise e ->
        e = UnicodeDecodeError
        \/ (e = FileNotFoundError (stripped_zip lang) /\ zips w !! stripped_zip lang = None
            \/ e = UnboundLocalError \/ e = IndexError \/ e = ValueError)
           /\ files (snd (join_archive lang ioformat years verbose w)) = files w).
Proof.
  destruct (join_archive_writes_only lang ioformat years verbose w) as [Hz Hf].
  split; [exact Hz|]. split; [exact Hf|].
  intros e. unfold join_archive.
  destruct (zips w !! stripped_zip lang) as [entries|] eqn:Ez.
  - pose proof (join_archive_body_start lang ioformat years verbose
                  (set_clock (tl (clock w)) w) entries Ez) as E.
    unfold bind at 1 in E.
    match type of E with context [for_fold ?names ?body ?acc ?w1] =>
      pose proof (select_loop_result ioformat (dirpath_of ioformat) lang years names acc w1)
        as Hres;
      pose proof (select_loop_world ioformat (dirpath_of ioformat) lang years names acc w1)
        as Hw;
      destruct (for_fold names body acc w1) as [[fps|e0] w2]
    end; simpl in Hres, Hw; subst w2.
    + cbv zeta in E.
      erewrite bind_ok in E by reflexivity.
      erewrite bind_ok in E by reflexivity.
      unfold bind at 1 in E.
      match type of E with context [for_fold fps ?body ?i ?w1] =>
        pose proof (fun e => join_loop_exn (stripped_zip lang) (joined_file lang ioformat)
                      ioformat verbose (Z.of_nat (length fps)) entries fps i w1 e Ez) as Hl;
        destruct (for_fold fps body i w1) as [[i'|e1] w3]
      end.
      * assert (exists w4, join_archive_body (lang, ioformat, years, verbose)
                             (set_clock (tl (clock w)) w)
                           = (Ok (Z.of_nat (length fps)), w4)) as [w4 E4].
        { cbv beta iota in E. destruct verbose.
          - erewrite bind_ok in E by reflexivity. eexists. exact E.
          - erewrite bind_ok in E by reflexivity. eexists. exact E. }
        rewrite (log_timer_ok _ _ _ _ _ E4). discriminate.
      * rewrite (log_timer_raise _ _ _ _ _ E). intros [= <-]. left.
        apply Hl; [|reflexivity].
        intros p Hp. destruct (Hres p Hp) as [Hn|Hn]; [inversion Hn|exact Hn].
    + rewrite (log_timer_raise _ _ _ _ _ E). intros [= <-]. right.
      split; [right; exact Hres|reflexivity].
  - erewrite log_timer_raise.
    2:{ unfold join_archive_body. apply bind_raise.
        unfold zip_open_r. fold (stripped_zip lang). simpl. now rewrite Ez. }
    intros [= <-]. right. split; [now left|reflexivity].
Qed.

End ArchiveMore.

(** *** Running twice *)

Lemma Forall2_functional {A B} (f : A -> option B) (l : list A) : forall k1 k2,
  Forall2 (fun a b => f a = Some b) l k1 ->
  Forall2 (fun a b => f a = Some b) l k2 ->
  k1 = k2.
Proof.
  induction l as [|a l IH]; intros k1 k2 H1 H2.
  - apply Forall2_nil_inv_l in H1, H2. congruence.
  - apply Forall2_cons_inv_l in H1 as (b1 & k1' & E1 & H1 & ->).
    apply Forall2_cons_inv_l in H2 as (b2 & k2' & E2 & H2 & ->).
    f_equal; [congruence|now apply IH].
Qed.

Section ArchiveTwice.
Context `{Unicode} `{Lxml}.

(** X28. [strip_archive] adds, it does not replace: a second run on
    the same source archive puts the same entries once more at the end of
    the stripped archive, which then holds every stripped subtitle
    twice, under the same name. *)
Theorem strip_archive_twice (lang ioformat d : str) (years : Z * Z)
    (w : World) (entries : list (str * bytes)) :
  dirpath_of ioformat = Some d ->
  zips w !! source_zip lang = Some entries ->
  (forall p, p ∈ map fst entries -> malformed (u "xml") d lang p = false) ->
  (forall p, p ∈ List.filter (wanted (u "xml") d lang years) (map fst entries) ->
             is_Some (stripped_entry entries ioformat p)) ->
  exists w1 w2 new,
    strip_archive lang ioformat years w = (Ok tt, w1)
    /\ strip_archive lang ioformat years w1 = (Ok tt, w2)
    /\ length new = length (List.filter (wanted (u "xml") d lang years) (map fst entries))
    /\ zips w1 !! stripped_zip lang
       = Some (default [] (zips w !! stripped_zip lang) ++ new)
    /\ zips w2 !! stripped_zip lang
       = Some (default [] (zips w !! stripped_zip lang) ++ new ++ new).
Proof.
  intros Hd Hz Hm Hdec.
  destruct (strip_archive_spec lang ioformat d years w entries Hd Hz Hm Hdec)
    as (w1 & new & E1 & HF1 & Hz1 & _ & _ & Hperm & _).
  assert (Hs1 : zips w1 !! stripped_zip lang
                = Some (default [] (zips w !! stripped_zip lang) ++ new))
    by (rewrite Hz1; apply lookup_insert_eq).
  assert (Hz' : zips w1 !! source_zip lang = Some entries).
  { rewrite Hz1, lookup_insert_ne by (apply not_eq_sym, source_zip_not_stripped).
    exact Hz. }
  destruct (strip_archive_spec lang ioformat d years w1 entries Hd Hz' Hm Hdec)
    as (w2 & new2 & E2 & HF2 & Hz2 & _).
  rewrite (Forall2_functional _ _ _ _ HF2 HF1) in Hz2.
  exists w1, w2, new. split; [exact E1|]. split; [exact E2|].
  split; [|split; [exact Hs1|]].
  - apply Forall2_length in HF1. rewrite <- HF1. now apply Permutation_length.
  - rewrite Hz2, lookup_insert_eq, Hs1. cbn [default from_option id].
    now rewrite <- app_assoc.
Qed.

(** X29. [join_archive] starts its output afresh: a second run on the
    same stripped archive returns the same number and leaves the text
    files as the first run left them. *)
Theorem join_archive_twice (lang ioformat d : str) (years : Z * Z) (verbose : bool)
    (w : World) (entries : list (str * bytes)) :
  dirpath_of ioformat = Some d ->
  zips w !! stripped_zip lang = Some entries ->
  (forall p, p ∈ map fst entries -> malformed ioformat d lang p = false) ->
  (forall p, p ∈ List.filter (wanted ioformat d lang years) (map fst entries) ->
             is_Some (entry_text entries p)) ->
  exists n w1 w2,
    join_archive lang ioformat years verbose w = (Ok n, w1)
    /\ join_archive lang ioformat years verbose w1 = (Ok n, w2)
    /\ files w2 = files w1
    /\ zips w2 = zips w.
Proof.
  intros Hd Hz Hm Hdec.
  destruct (join_archive_spec lang ioformat d years verbose w entries Hd Hz Hm Hdec)
    as (w1 & E1 & Hf1 & Hz1 & _).
  assert (Hz' : zips w1 !! stripped_zip lang = Some entries) by (now rewrite Hz1).
  destruct (join_archive_spec lang ioformat d years verbose w1 entries Hd Hz' Hm Hdec)
    as (w2 & E2 & Hf2 & Hz2 & _).
  eexists _, w1, w2. split; [exact E1|]. split; [exact E2|].
  split; [|congruence].
  rewrite Hf2, Hf1. apply insert_insert_eq.
Qed.

End ArchiveTwice.

(** ** UTF-8: what is stored can be read *)

Local Open Scope N_scope.

Lemma to_N_byte_of_N (n : N) : n < 256 -> Byte.to_N (byte_of_N n) = n.
Proof.
  intros Hn. unfold byte_of_N.
  destruct (Byte.of_N n) as [b|] eqn:E; [now apply Byte.to_of_N|].
  apply Byte.of_N_None_iff in E. lia.
Qed.

(** The digits of a code point in base 64. *)
Lemma base64_digits (c : N) :
  exists q1 r1 q2 r2 q3 r3,
    c / 64 = q1 /\ c mod 64 = r1 /\ c / 4096 = q2 /\ (c / 64) mod 64 = r2
    /\ c / 262144 = q3 /\ (c / 4096) mod 64 = r3
    /\ c = 64 * q1 + r1 /\ r1 < 64 /\ q1 = 64 * q2 + r2 /\ r2 < 64
    /\ q2 = 64 * q3 + r3 /\ r3 < 64.
Proof.
  exists (c / 64), (c mod 64), (c / 4096), ((c / 64) mod 64), (c / 262144),
         ((c / 4096) mod 64).
  repeat split.
  - apply N.div_mod'.
  - now apply N.mod_lt.
  - change 4096 with (64 * 64). rewrite <- N.Div0.div_div. apply N.div_mod'.
  - now apply N.mod_lt.
  - change 262144 with (4096 * 64). rewrite <- N.Div0.div_div. apply N.div_mod'.
  - now apply N.mod_lt.
Qed.

Lemma in_range_true (lo hi x : N) : lo <= x -> x <= hi -> in_range lo hi x = true.
Proof.
  intros H1 H2. unfold in_range. apply andb_true_iff. split; now apply N.leb_le.
Qed.

Lemma in_range_false (lo hi x : N) : x < lo \/ hi < x -> in_range lo hi x = false.
Proof.
  intros Hx. unfold in_range. apply andb_false_iff.
  destruct Hx; [left|right]; now apply N.leb_gt.
Qed.

Lemma decode_utf8_cons (b0 : Byte.byte) (rest : list Byte.byte) :
  decode_utf8 (b0 :: rest)
  = let n0 := Byte.to_N b0 in
    if in_range 0 127 n0 then cons n0 <$> decode_utf8 rest
    else if in_range 194 223 n0 then
      match rest with
      | b1 :: rest' =>
          if byte_in 128 191 b1
          then cons ((n0 - 192) * 64 + cont b1)%N <$> decode_utf8 rest'
          else None
      | _ => None
      end
    else if in_range 224 239 n0 then
      match rest with
      | b1 :: b2 :: rest' =>
          let lo := if N.eqb n0 224 then 160%N else 128%N in
          let hi := if N.eqb n0 237 then 159%N else 191%N in
          if byte_in lo hi b1 && byte_in 128 191 b2
          then cons (((n0 - 224) * 64 + cont b1) * 64 + cont b2)%N
                 <$> decode_utf8 rest'
          else None
      | _ => None
      end
    else if in_range 240 244 n0 then
      match rest with
      | b1 :: b2 :: b3 :: rest' =>
          let lo := if N.eqb n0 240 then 144%N else 128%N in
          let hi := if N.eqb n0 244 then 143%N else 191%N in
          if byte_in lo hi b1 && byte_in 128 191 b2 && byte_in 128 191 b3
          then cons ((((n0 - 240) * 64 + cont b1) * 64 + cont b2) * 64 + cont b3)%N
                 <$> decode_utf8 rest'
          else None
      | _ => None
      end
    else None.
Proof. reflexivity. Qed.

Lemma decode_one (c : N) (bs : list Byte.byte) b :
  (if (c <? 128) then Some [byte_of_N c]
        else if (c <? 2048) then
          Some [byte_of_N (192 + c / 64); byte_of_N (128 + c mod 64)]
        else if in_range 55296 57343 c then None
        else if (c <? 65536) then
          Some [byte_of_N (224 + c / 4096); byte_of_N (128 + (c / 64) mod 64);
                byte_of_N (128 + c mod 64)]
        else if (c <? 1114112) then
          Some [byte_of_N (240 + c / 262144); byte_of_N (128 + (c / 4096) mod 64);
                byte_of_N (128 + (c / 64) mod 64); byte_of_N (128 + c mod 64)]
        else None) = Some b ->
  decode_utf8 (b ++ bs) = cons c <$> decode_utf8 bs.
Proof.
  destruct (base64_digits c)
    as (q1 & r1 & q2 & r2 & q3 & r3 & -> & -> & -> & -> & -> & -> & Hc & Hr1 & Hq1 & Hr2
        & Hq2 & Hr3).
  destruct (N.ltb_spec c 128) as [H1|H1].
  { intros [= <-]. cbn [app]. rewrite decode_utf8_cons. cbv zeta.
    rewrite to_N_byte_of_N by lia. now rewrite in_range_true by lia. }
  destruct (N.ltb_spec c 2048) as [H2|H2].
  { intros [= <-]. cbn [app]. rewrite decode_utf8_cons. cbv zeta.
    unfold byte_in, cont. rewrite !to_N_byte_of_N by lia.
    rewrite (in_range_false 0 127) by lia.
    rewrite (in_range_true 194 223) by lia.
    rewrite (in_range_true 128 191) by lia.
    do 2 f_equal. lia. }
  destruct (in_range 55296 57343 c) eqn:Hs; [discriminate|].
  assert (Hs' : c < 55296 \/ 57343 < c).
  { unfold in_range in Hs.
    apply andb_false_iff in Hs as [E|E]; apply N.leb_gt in E; lia. }
  clear Hs.
  destruct (N.ltb_spec c 65536) as [H5|H5].
  { intros [= <-]. cbn [app]. rewrite decode_utf8_cons. cbv zeta.
    unfold byte_in, cont. rewrite !to_N_byte_of_N by lia.
    rewrite (in_range_false 0 127) by lia.
    rewrite (in_range_false 194 223) by lia.
    rewrite (in_range_true 224 239) by lia.
    assert (E1 : in_range (if 224 + q2 =? 224 then 160 else 128)
                   (if 224 + q2 =? 237 then 159 else 191) (128 + r2) = true).
    { destruct (N.eqb_spec (224 + q2) 224); destruct (N.eqb_spec (224 + q2) 237);
        apply in_range_true; lia. }
    rewrite E1, (in_range_true 128 191) by lia.
    cbn [andb]. do 2 f_equal. lia. }
  destruct (N.ltb_spec c 1114112) as [H6|H6]; [|discriminate].
  intros [= <-]. cbn [app]. rewrite decode_utf8_cons. cbv zeta.
  unfold byte_in, cont. rewrite !to_N_byte_of_N by lia.
  rewrite (in_range_false 0 127) by lia.
  rewrite (in_range_false 194 223) by lia.
  rewrite (in_range_false 224 239) by lia.
  rewrite (in_range_true 240 244) by lia.
  assert (E1 : in_range (if 240 + q3 =? 240 then 144 else 128)
                 (if 240 + q3 =? 244 then 143 else 191) (128 + r3) = true).
  { destruct (N.eqb_spec (240 + q3) 240); destruct (N.eqb_spec (240 + q3) 244);
      apply in_range_true; lia. }
  rewrite E1, !(in_range_true 128 191) by lia.
  cbn [andb]. do 2 f_equal. lia.
Qed.

Lemma utf8_round_trip (s : list N) : forall b, encode_utf8 s = Some b -> decode_utf8 b = Some s.
Proof.
  induction s as [|c s IH]; intros b; [now intros [= <-]|].
  cbn [encode_utf8]. cbv zeta.
  match goal with |- match ?enc with _ => _ end = _ -> _ => destruct enc as [b1|] eqn:E1 end;
    [|discriminate].
  destruct (encode_utf8 s) as [bs|]; [|discriminate].
  intros [= <-]. rewrite (decode_one c bs b1 E1), (IH bs eq_refl). reflexivity.
Qed.

Local Close Scope N_scope.

Lemma last_entry_app_last (name : str) (b : bytes) (entries : list (str * bytes)) :
  last_entry name (entries ++ [(name, b)]) = Some b.
Proof.
  induction entries as [|[n d] rest IH]; simpl.
  - now rewrite bool_decide_eq_true_2.
  - now rewrite IH.
Qed.

(** X22. What is written to an archive is read back as it was: after
    [writestr] has stored a text under a name, as [strip_archive] does,
    reading the entry of that name and decoding it as UTF-8, as
    [join_archive] does, gives the text again, also when the archive
    already held an entry of that name. *)
Theorem stored_text_reads_back (fname name s : str) (w w' : World) :
  writestr fname name s w = (Ok tt, w') ->
  exists data,
    zip_read fname name w' = (Ok data, set_opened (opened w' ++ [(fname, name)]) w')
    /\ decode_utf8 data = Some s.
Proof.
  unfold writestr. destruct (encode_utf8 s) as [b|] eqn:Eb; [|discriminate].
  intros [= <-]. exists b. split; [|now apply utf8_round_trip].
  unfold zip_read. cbn [zips set_zips]. rewrite lookup_insert_eq.
  cbn [default from_option id]. now rewrite last_entry_app_last.
Qed.


(** ** clean_subs.py: the strippers *)

Lemma replace_newline_free (s : str) : NL ∉ replace [NL] [] s.
Proof.
  unfold replace. rewrite replace_from_char.
  induction s as [|c s IH]; [apply not_elem_of_nil|].
  cbn [flat_map]. destruct (N.eqb_spec NL c) as [E|E]; [exact IH|].
  cbn [app]. rewrite elem_of_cons. intros [E'|E']; [congruence|contradiction].
Qed.

Lemma strip_viz_node_spec (stripped : list str) (node : Element) :
  strip_viz_node stripped node
  = match timed node with
    | None => Ok stripped
    | Some first =>
        match get first (u "value") with
        | Some value =>
            Ok (stripped ++ [u "[" ++ normalize_timestamp value ++ u "] "
                             ++ replace [NL] [] (tostring_text node)])
        | None => Raise AttributeError
        end
    end.
Proof.
  unfold strip_viz_node, timed.
  destruct (tag_is node (u "s")); [|reflexivity].
  destruct (children node) as [|first rest]; [reflexivity|].
  now destruct (tag_is first (u "time")).
Qed.

Lemma strip_viz_loop_raise (nodes : list Element) (e : exn) :
  foldl (fun acc node =>
           match acc with
           | Ok stripped => strip_viz_node stripped node
           | Raise e => Raise e
           end) (Raise e) nodes = Raise e.
Proof. induction nodes as [|n nodes IH]; [reflexivity|exact IH]. Qed.

(** The loop of [strip_viz]: it ends with a line for every timed
    sentence, or fails on a time element that has no value. *)
Lemma strip_viz_loop (nodes : list Element) : forall stripped,
  (exists lines,
     foldl (fun acc node =>
              match acc with
              | Ok stripped => strip_viz_node stripped node
              | Raise e => Raise e
              end) (Ok stripped) nodes = Ok (stripped ++ lines)
     /\ Forall2 viz_line
          (List.filter (fun node => bool_decide (is_Some (timed node))) nodes) lines)
  \/ (foldl (fun acc node =>
               match acc with
               | Ok stripped => strip_viz_node stripped node
               | Raise e => Raise e
               end) (Ok stripped) nodes = Raise AttributeError
      /\ exists node first,
           node ∈ nodes /\ timed node = Some first /\ get first (u "value") = None).
Proof.
  induction nodes as [|n nodes IH]; intros stripped.
  - left. exists []. split; [simpl; now rewrite app_nil_r|constructor].
  - cbn [foldl List.filter]. rewrite strip_viz_node_spec.
    destruct (timed n) as [first|] eqn:Et.
    + rewrite bool_decide_eq_true_2 by eauto.
      destruct (get first (u "value")) as [value|] eqn:Ev.
      * destruct (IH (stripped ++ [u "[" ++ normalize_timestamp value ++ u "] "
                                   ++ replace [NL] [] (tostring_text n)]))
          as [(lines & E & HF)|(E & node & f & Hn & Htn & Hv)].
        -- left. eexists (_ :: lines). rewrite E, <- app_assoc. split; [reflexivity|].
           constructor; [|exact HF]. exists first, value. now repeat split.
        -- right. split; [exact E|]. exists node, f. split; [now right|now split].
      * right. split; [apply strip_viz_loop_raise|].
        exists n, first. split; [left|now split].
    + rewrite bool_decide_eq_false_2 by (intros [x Hx]; discriminate Hx).
      destruct (IH stripped) as [(lines & E & HF)|(E & node & f & Hn & Htn & Hv)].
      * left. exists lines. now split.
      * right. split; [exact E|]. exists node, f. split; [now right|now split].
Qed.

(** X23. What [strip_viz] writes.  When every time element that starts
    a sentence has a value, the output has one entry for every sentence
    element that starts with a time element, in document order, joined
    by line feeds; the other sentences are left out.  An entry is the
    timestamp in brackets, a space, and the text of the sentence with
    its line feeds removed, so it is one line as long as the timestamp
    has no line feed. *)
Theorem strip_viz_lines (tree : Element) :
  (forall node first, node ∈ iter tree -> timed node = Some first ->
                      is_Some (get first (u "value"))) ->
  exists lines,
    strip_viz tree = Ok (join [NL] lines)
    /\ Forall2 (fun node line =>
                  exists first value,
                    timed node = Some first
                    /\ get first (u "value") = Some value
                    /\ line = u "[" ++ normalize_timestamp value ++ u "] "
                              ++ replace [NL] [] (tostring_text node)
                    /\ NL ∉ replace [NL] [] (tostring_text node))
         (List.filter (fun node => bool_decide (is_Some (timed node))) (iter tree)) lines.
Proof.
  intros Hv. unfold strip_viz.
  destruct (strip_viz_loop (iter tree) [])
    as [(lines & E & HF)|(_ & node & first & Hn & Ht & Hnone)].
  - exists lines. rewrite E. split; [reflexivity|].
    eapply Forall2_impl; [exact HF|].
    intros node line (first & value & Ht & Hg & ->).
    exists first, value. repeat split; try assumption. apply replace_newline_free.
  - destruct (Hv node first Hn Ht) as [value Hg]. congruence.
Qed.

(** X24. When [strip_viz] fails.  It raises [AttributeError] exactly
    when some sentence element of the tree starts with a time element
    that has no value attribute ([get] gives [None], which has no
    [replace]); it raises nothing else. *)
Theorem strip_viz_missing_value (tree : Element) :
  (strip_viz tree = Raise AttributeError
   <-> exists node first,
         node ∈ iter tree /\ timed node = Some first /\ get first (u "value") = None)
  /\ (forall e, strip_viz tree = Raise e -> e = AttributeError).
Proof.
  unfold strip_viz.
  destruct (strip_viz_loop (iter tree) [])
    as [(lines & E & HF)|(E & node & first & Hn & Ht & Hnone)]; rewrite E.
  - split; [|discriminate]. split; [discriminate|].
    intros (node & first & Hn & Ht & Hnone). exfalso.
    assert (Hin : node ∈ List.filter (fun node => bool_decide (is_Some (timed node)))
                           (iter tree)).
    { apply list_elem_of_In, filter_In. split; [now apply list_elem_of_In|].
      apply bool_decide_eq_true_2. eauto. }
    apply list_elem_of_lookup in Hin as [i Hi].
    destruct (Forall2_lookup_l _ _ _ _ _ HF Hi) as (line & _ & f & value & Ht' & Hg & _).
    congruence.
  - split; [|now intros e [= <-]]. split; [|reflexivity].
    intros _. exists node, first. now repeat split.
Qed.

(** X25. A word element that lacks something is not an error for
    [strip_upos] and [strip_lemma]: every word element of the tree gives
    its token, with None written for a text or an attribute that is
    not there.  So a word element with no upos attribute gives
    word_None, and one with no text, no lemma and no upos gives
    None_None. *)
Theorem strip_upos_missing_attribute (tree node : Element) :
  node ∈ iter tree ->
  tag_is node (u "w") = true ->
  (exists pre post,
     strip_upos tree
     = pre ++ fmt_opt (text node) ++ u "_" ++ fmt_opt (get node (u "upos")) ++ u " " ++ post)
  /\ (exists pre post,
        strip_lemma tree
        = pre ++ fmt_opt (get node (u "lemma")) ++ u "_" ++ fmt_opt (get node (u "upos"))
          ++ u " " ++ post)
  /\ (get node (u "upos") = None ->
      fmt_opt (text node) ++ u "_" ++ fmt_opt (get node (u "upos")) ++ u " "
      = fmt_opt (text node) ++ u "_None ")
  /\ (text node = None -> get node (u "lemma") = None -> get node (u "upos") = None ->
      fmt_opt (text node) ++ u "_" ++ fmt_opt (get node (u "upos")) ++ u " " = u "None_None "
      /\ fmt_opt (get node (u "lemma")) ++ u "_" ++ fmt_opt (get node (u "upos")) ++ u " "
         = u "None_None ").
Proof.
  intros Hn Hw.
  apply list_elem_of_split in Hn as (l1 & l2 & Hsplit).
  assert (Hemit : forall fw, exists pre post,
            concat (flat_map (emit fw) (iter tree)) = pre ++ fw node ++ post).
  { intros fw. rewrite Hsplit, flat_map_app, concat_app. cbn [flat_map].
    rewrite concat_app. unfold emit at 2. rewrite Hw.
    exists (concat (flat_map (emit fw) l1)
            ++ concat (if tag_is node (u "s") then [[NL]] else [])),
           (concat (flat_map (emit fw) l2)).
    rewrite concat_app. cbn [concat]. rewrite app_nil_r, <- !app_assoc. reflexivity. }
  split; [|split; [|split]].
  - unfold strip_upos. rewrite join_nil.
    rewrite (foldl_emit (emit (fun node =>
               fmt_opt (text node) ++ u "_" ++ fmt_opt (get node (u "upos")) ++ u " "))).
    2:{ intros acc n. unfold emit. now rewrite !append_if_app, <- app_assoc. }
    cbn [app].
    destruct (Hemit (fun node => fmt_opt (text node) ++ u "_"
                                 ++ fmt_opt (get node (u "upos")) ++ u " "))
      as (pre & post & E).
    exists pre, post. rewrite E, <- !app_assoc. reflexivity.
  - unfold strip_lemma. rewrite join_nil.
    rewrite (foldl_emit (emit (fun node =>
               fmt_opt (get node (u "lemma")) ++ u "_" ++ fmt_opt (get node (u "upos"))
               ++ u " "))).
    2:{ intros acc n. unfold emit. now rewrite !append_if_app, <- app_assoc. }
    cbn [app].
    destruct (Hemit (fun node => fmt_opt (get node (u "lemma")) ++ u "_"
                                 ++ fmt_opt (get node (u "upos")) ++ u " "))
      as (pre & post & E).
    exists pre, post. rewrite E, <- !app_assoc. reflexivity.
  - intros ->. reflexivity.
  - intros -> -> ->. split; reflexivity.
Qed.

(** ** clean_subs.py: punctuation *)

Section PunctuationMore.
Context `{Unicode}.

Lemma sub_from_skip r template (s : str) : forall n,
  sub_from r template n s = sub_from r template 0 (drop n s).
Proof.
  induction s as [|c s IH]; intros [|n]; try reflexivity.
  cbn [drop]. rewrite <- IH. reflexivity.
Qed.

(** A pattern that matches the empty string at the end, with a template
    that ends with a line feed: the result ends with a line feed. *)
Lemma sub_from_ends_with_newline r template :
  is_Some (match_here r false []) ->
  (forall groups, exists o, expand template groups = o ++ [NL]) ->
  forall (s : str) skip, exists o, sub_from r template skip s = o ++ [NL].
Proof.
  intros [[n g] Hnil] Hexp. induction s as [|c s IH]; intros skip.
  - cbn [sub_from]. rewrite Hnil. apply Hexp.
  - destruct skip as [|k]; [|apply IH].
    rewrite sub_from_cons0.
    destruct (match_here r false (c :: s)) as [[[|m] g1]|].
    + destruct (match_here r true (c :: s)) as [[[|m] g2]|].
      * destruct (IH 0) as [o Ho]. rewrite Ho.
        exists (expand template g1 ++ c :: o). now rewrite <- app_assoc.
      * destruct (IH m) as [o Ho]. rewrite Ho.
        exists (expand template g1 ++ expand template g2 ++ o).
        now rewrite <- !app_assoc.
      * destruct (IH 0) as [o Ho]. rewrite Ho.
        exists (expand template g1 ++ c :: o). now rewrite <- app_assoc.
    + destruct (IH m) as [o Ho]. rewrite Ho.
      exists (expand template g1 ++ o). now rewrite <- app_assoc.
    + destruct (IH 0) as [o Ho]. rewrite Ho. now exists (c :: o).
Qed.

Lemma sub_sentences_ends_with_newline (s : str) :
  exists o, sub re_sentences [Ref 1; Txt [NL]] s = o ++ [NL].
Proof.
  apply sub_from_ends_with_newline.
  - exists (0, ∅). reflexivity.
  - intros g. exists (default [] (g !! 1)). unfold expand. cbn [map concat].
    now rewrite app_nil_r.
Qed.

(** A pattern of one character class rewrites character by character. *)
Lemma sub_atom (a : atom) template (s : str) :
  sub (Atom a) template s
  = flat_map (fun c => if atom_matches a c then expand template ∅ else [c]) s.
Proof.
  unfold sub. induction s as [|c s IH]; [reflexivity|].
  rewrite sub_from_cons0. unfold match_here at 1. cbn [rmatch flat_map].
  destruct (atom_matches a c); [|now rewrite IH].
  replace (length (c :: s) - length s) with 1 by (simpl; lia).
  cbn [andb]. now rewrite IH.
Qed.

Lemma sub_hyphens_ends_with_newline template (o : str) :
  exists o', sub re_hyphens template (o ++ [NL]) = o' ++ [NL].
Proof.
  unfold re_hyphens. rewrite sub_atom, flat_map_app. eexists. f_equal.
Qed.

(** The maximal run of spaces a string starts with. *)
Lemma span_space (s : str) :
  exists run rest,
    s = run ++ rest
    /\ Forall (fun c => isspace c = true) run
    /\ match rest with [] => True | d :: _ => isspace d = false end.
Proof.
  induction s as [|c s (run & rest & -> & Hrun & Hrest)].
  - exists [], []. now repeat split.
  - destruct (isspace c) eqn:Ec.
    + exists (c :: run), rest. repeat split; [now constructor|exact Hrest].
    + exists [], (c :: run ++ rest). now repeat split.
Qed.

(** A greedy repeat of spaces takes the whole run when the rest of the
    pattern matches after it. *)
Lemma rep_spaces_all {T} (k : str -> option T) (run rest : str) :
  Forall (fun c => isspace c = true) run ->
  match rest with [] => True | d :: _ => isspace d = false end ->
  is_Some (k rest) ->
  forall min, min <= length run ->
  rep (OneOf [Space]) true min (run ++ rest) k = k rest.
Proof.
  intros Hrun Hrest [x Hx]. induction Hrun as [|c run Hc Hrun IH]; intros min Hmin.
  - simpl in Hmin. assert (min = 0) as -> by lia. cbn [app].
    destruct rest as [|d rest]; [now rewrite rep_nil|].
    rewrite rep_cons. cbv zeta. now rewrite space_atom, Hrest.
  - cbn [app]. rewrite rep_cons. cbv zeta. rewrite space_atom, Hc.
    rewrite IH by (simpl in Hmin; lia).
    destruct min; [|reflexivity]. now rewrite Hx.
Qed.

(** The line rule at a run of spaces: [\s*\n\s*] matches it whole when
    it has a line feed, and does not match when it has none. *)
Lemma rep_spaces_no_newline {T} (k : str -> option T) (run rest : str) :
  Forall (fun c => isspace c = true) run ->
  NL ∉ run ->
  match rest with [] => True | d :: _ => isspace d = false end ->
  rep (OneOf [Space]) true 0 (run ++ rest)
    (fun s' => match s' with
               | c :: s'' => if atom_matches (Lit NL) c then k s'' else None
               | [] => None
               end) = None.
Proof.
  intros Hrun Hnl Hrest. induction Hrun as [|c run Hc Hrun IH].
  - cbn [app]. destruct rest as [|d rest]; [now rewrite rep_nil|].
    rewrite rep_cons. cbv zeta. rewrite space_atom, Hrest. cbn [or_else].
    now rewrite newline_atom, not_space_not_newline.
  - cbn [app]. rewrite rep_cons. cbv zeta. cbn [pred]. rewrite space_atom, Hc.
    rewrite IH by (intros Hin; apply Hnl; now right). cbn [or_else].
    rewrite newline_atom.
    destruct (N.eqb_spec c NL) as [->|Hne]; [|reflexivity].
    exfalso. apply Hnl. left.
Qed.

Lemma rep_spaces_newline {T} (k : str -> option T) (run rest : str) :
  Forall (fun c => isspace c = true) run ->
  NL ∈ run ->
  match rest with [] => True | d :: _ => isspace d = false end ->
  is_Some (k rest) ->
  rep (OneOf [Space]) true 0 (run ++ rest)
    (fun s' => match s' with
               | c :: s'' =>
                   if atom_matches (Lit NL) c then rep (OneOf [Space]) true 0 s'' k
                   else None
               | [] => None
               end) = k rest.
Proof.
  intros Hrun Hnl Hrest Hk. induction Hrun as [|c run Hc Hrun IH]; [inversion Hnl|].
  cbn [app]. rewrite rep_cons. cbv zeta. cbn [pred]. rewrite space_atom, Hc.
  destruct (decide (NL ∈ run)) as [Hin|Hout].
  - rewrite IH by exact Hin. destruct Hk as [x ->]. reflexivity.
  - rewrite (rep_spaces_no_newline (fun s'' => rep (OneOf [Space]) true 0 s'' k))
      by assumption.
    cbn [or_else].
    apply elem_of_cons in Hnl as [<-|Hin]; [|contradiction].
    rewrite newline_atom. cbn [N.eqb NL Pos.eqb].
    apply rep_spaces_all; [assumption..|simpl; lia].
Qed.

Lemma match_empty_lines_newline_run (run rest : str) :
  Forall (fun c => isspace c = true) run ->
  NL ∈ run ->
  match rest with [] => True | d :: _ => isspace d = false end ->
  match_here re_empty_lines false (run ++ rest) = Some (length run, ∅).
Proof.
  intros Hrun Hnl Hrest. unfold match_here, re_empty_lines. cbn [seq_list rmatch].
  rewrite rep_spaces_newline by (try assumption; cbn [andb]; eauto).
  cbn [andb]. do 2 f_equal. rewrite length_app. lia.
Qed.

Lemma match_empty_lines_no_newline_run (run rest : str) :
  Forall (fun c => isspace c = true) run ->
  NL ∉ run ->
  match rest with [] => True | d :: _ => isspace d = false end ->
  match_here re_empty_lines false (run ++ rest) = None.
Proof.
  intros Hrun Hnl Hrest. unfold match_here, re_empty_lines. cbn [seq_list rmatch].
  now apply rep_spaces_no_newline.
Qed.

Lemma sub_empty_lines_nil template : sub_from re_empty_lines template 0 [] = [].
Proof. reflexivity. Qed.

Lemma sub_empty_lines_no_newline_run template (run rest : str) :
  Forall (fun c => isspace c = true) run ->
  NL ∉ run ->
  match rest with [] => True | d :: _ => isspace d = false end ->
  sub_from re_empty_lines template 0 (run ++ rest)
  = run ++ sub_from re_empty_lines template 0 rest.
Proof.
  intros Hrun Hnl Hrest. induction Hrun as [|c run Hc Hrun IH]; [reflexivity|].
  change ((c :: run) ++ rest) with (c :: (run ++ rest)) at 1.
  rewrite sub_from_cons0.
  change (c :: (run ++ rest)) with ((c :: run) ++ rest).
  rewrite match_empty_lines_no_newline_run by (try assumption; now constructor).
  cbn [app]. f_equal. apply IH. intros Hin. apply Hnl. now right.
Qed.

Lemma sub_empty_lines_newline_run (run rest : str) :
  Forall (fun c => isspace c = true) run ->
  NL ∈ run ->
  match rest with [] => True | d :: _ => isspace d = false end ->
  sub_from re_empty_lines [Txt [NL]] 0 (run ++ rest)
  = NL :: sub_from re_empty_lines [Txt [NL]] 0 rest.
Proof.
  intros Hrun Hnl Hrest.
  pose proof (match_empty_lines_newline_run run rest Hrun Hnl Hrest) as Hm.
  destruct run as [|c run]; [inversion Hnl|].
  cbn [app] in *. rewrite sub_from_cons0, Hm. cbn [length expand map concat app].
  f_equal. rewrite sub_from_skip, drop_app_length. reflexivity.
Qed.

(** A string that ends with a line feed has a last part that ends with
    it. *)
Lemma ends_with_newline_tail (s0 run rest' : str) (d : char) :
  s0 ++ [NL] = run ++ d :: rest' -> isspace d = false ->
  exists r0, rest' = r0 ++ [NL] /\ s0 = run ++ d :: r0.
Proof.
  intros E Hd.
  destruct (decide (rest' = [])) as [->|Hne].
  - change (run ++ [d]) with (run ++ [d]) in E.
    apply app_inj_tail in E as [_ <-]. discriminate Hd.
  - destruct (exists_last Hne) as (r0 & x & ->).
    exists r0. change (run ++ d :: r0 ++ [x]) with (run ++ (d :: r0) ++ [x]) in E.
    rewrite app_assoc in E. apply app_inj_tail in E as [-> <-]. now split.
Qed.

(** The line rule keeps the line feed at the end, with no space in
    front of it. *)
Lemma sub_empty_lines_ends_with_newline (n : nat) : forall s0 : str,
  length s0 <= n ->
  exists o,
    sub_from re_empty_lines [Txt [NL]] 0 (s0 ++ [NL]) = o ++ [NL]
    /\ (o = [] \/ exists o' d, o = o' ++ [d] /\ isspace d = false).
Proof.
  induction n as [|n IH]; intros s0 Hlen.
  - destruct s0; [|simpl in Hlen; lia]. exists []. split; [|now left].
    apply (sub_empty_lines_newline_run [NL] []); [|left|exact I].
    constructor; [reflexivity|constructor].
  - destruct (span_space (s0 ++ [NL])) as (run & rest & E & Hrun & Hrest).
    destruct rest as [|d rest'].
    + assert (Hin : NL ∈ run).
      { rewrite app_nil_r in E. rewrite <- E. apply elem_of_app. right. left. }
      rewrite E, sub_empty_lines_newline_run by (try assumption; exact I).
      exists []. split; [reflexivity|now left].
    + destruct (ends_with_newline_tail s0 run rest' d E Hrest) as (r0 & -> & Hs0).
      destruct (IH r0) as (o & Ho & Hlast).
      { subst s0. rewrite length_app in Hlen. simpl in Hlen. lia. }
      assert (Hd : sub_from re_empty_lines [Txt [NL]] 0 (d :: r0 ++ [NL])
                   = d :: o ++ [NL]).
      { rewrite sub_from_cons0, match_empty_lines_not_space by exact Hrest.
        now rewrite Ho. }
      assert (Hok : forall X : str, exists o'' d',
                      X ++ d :: o = o'' ++ [d'] /\ isspace d' = false).
      { intros X. destruct Hlast as [->|(o' & d' & -> & Hd')].
        - exists X, d. now split.
        - exists (X ++ d :: o'), d'. split; [|exact Hd'].
          now rewrite <- app_assoc. }
      rewrite E. destruct (decide (NL ∈ run)) as [Hin|Hout].
      * rewrite sub_empty_lines_newline_run by assumption. rewrite Hd.
        exists (NL :: d :: o). split; [reflexivity|]. right.
        destruct (Hok [NL]) as (o'' & d' & E' & Hd'). now exists o'', d'.
      * rewrite sub_empty_lines_no_newline_run by assumption. rewrite Hd.
        exists (run ++ d :: o). split; [now rewrite <- app_assoc|]. right. apply Hok.
Qed.

(** The space rule: [\s{2,}] matches a run of two spaces or more, whole. *)
Lemma match_spaces_not_space must_advance (d : char) (s : str) :
  isspace d = false -> match_here re_spaces must_advance (d :: s) = None.
Proof.
  intros Hd. unfold match_here, re_spaces. cbn [rmatch].
  rewrite rep_cons. cbv zeta. now rewrite space_atom, Hd.
Qed.

Lemma match_spaces_one must_advance (c : char) (rest : str) :
  match rest with [] => True | d :: _ => isspace d = false end ->
  match_here re_spaces must_advance (c :: rest) = None.
Proof.
  intros Hrest. unfold match_here, re_spaces. cbn [rmatch].
  rewrite rep_cons. cbv zeta. cbn [pred].
  destruct (atom_matches (OneOf [Space]) c); [|reflexivity].
  destruct rest as [|d rest]; [now rewrite rep_nil|].
  rewrite rep_cons. cbv zeta. now rewrite space_atom, Hrest.
Qed.

Lemma match_spaces_run (run rest : str) :
  Forall (fun c => isspace c = true) run ->
  2 <= length run ->
  match rest with [] => True | d :: _ => isspace d = false end ->
  match_here re_spaces false (run ++ rest) = Some (length run, ∅).
Proof.
  intros Hrun Hlen Hrest. unfold match_here, re_spaces. cbn [rmatch].
  rewrite rep_spaces_all by (try assumption; cbn [andb]; eauto).
  cbn [andb]. do 2 f_equal. rewrite length_app. lia.
Qed.

Lemma sub_spaces_run template (run rest : str) :
  Forall (fun c => isspace c = true) run ->
  match rest with [] => True | d :: _ => isspace d = false end ->
  exists X, sub_from re_spaces template 0 (run ++ rest)
            = X ++ sub_from re_spaces template 0 rest.
Proof.
  intros Hrun Hrest.
  destruct run as [|c1 [|c2 run]].
  - now exists [].
  - exists [c1]. cbn [app]. rewrite sub_from_cons0.
    now rewrite match_spaces_one by exact Hrest.
  - pose proof (match_spaces_run (c1 :: c2 :: run) rest Hrun ltac:(simpl; lia) Hrest)
      as Hm.
    exists (expand template ∅). cbn [app] in *. rewrite sub_from_cons0, Hm.
    change (length (c1 :: c2 :: run)) with (S (length (c2 :: run))). cbv iota beta.
    f_equal. rewrite sub_from_skip.
    change (c2 :: run ++ rest) with ((c2 :: run) ++ rest).
    now rewrite drop_app_length.
Qed.

Lemma sub_spaces_ends_with_newline template (n : nat) : forall o : str,
  length o <= n ->
  (o = [] \/ exists o' d, o = o' ++ [d] /\ isspace d = false) ->
  exists o2, sub_from re_spaces template 0 (o ++ [NL]) = o2 ++ [NL].
Proof.
  induction n as [|n IH]; intros o Hlen Hlast.
  - destruct o; [|simpl in Hlen; lia]. exists [].
    cbn [app]. rewrite sub_from_cons0. now rewrite match_spaces_one.
  - destruct (span_space (o ++ [NL])) as (run & rest & E & Hrun & Hrest).
    destruct (sub_spaces_run template run rest Hrun Hrest) as [X HX].
    rewrite E, HX.
    destruct rest as [|d rest'].
    + rewrite app_nil_r in E.
      destruct Hlast as [->|(o' & d & -> & Hd)].
      * cbn [app] in E. subst run. exists []. cbn [app] in HX |- *.
        rewrite <- HX. rewrite sub_from_cons0. now rewrite match_spaces_one.
      * exfalso. rewrite <- E in Hrun.
        apply Forall_app in Hrun as [Hrun _]. apply Forall_app in Hrun as [_ Hrun].
        apply Forall_inv in Hrun. congruence.
    + destruct (ends_with_newline_tail o run rest' d E Hrest) as (r0 & -> & Ho).
      destruct (IH r0) as (o2 & Ho2).
      { subst o. rewrite length_app in Hlen. simpl in Hlen. lia. }
      { destruct (decide (r0 = [])) as [->|Hne]; [now left|right].
        destruct (exists_last Hne) as (r1 & x & ->).
        exists r1, x. split; [reflexivity|].
        destruct Hlast as [->|(o' & d' & -> & Hd')]; [destruct run; discriminate Ho|].
        change (run ++ d :: r1 ++ [x]) with (run ++ (d :: r1) ++ [x]) in Ho.
        rewrite app_assoc in Ho. apply app_inj_tail in Ho as [_ ->]. exact Hd'. }
      rewrite sub_from_cons0, match_spaces_not_space by exact Hrest.
      rewrite Ho2. exists (X ++ d :: o2). now rewrite <- app_assoc.
Qed.

(** The rewrites of [strip_punctuation] give a text that ends with a
    line feed, whatever the text they start from. *)
Lemma apply_regeces_ends_with_newline (txt : str) :
  exists o, apply_regeces txt = o ++ [NL].
Proof.
  unfold apply_regeces, regeces. cbn [foldl fst snd].
  destruct (sub_sentences_ends_with_newline
              (sub re_parentheses [] (sub re_links [] (sub re_tags [] txt))))
    as [o1 ->].
  destruct (sub_hyphens_ends_with_newline [Txt (u " ")] o1) as [o2 ->].
  destruct (sub_empty_lines_ends_with_newline (length o2) o2 (le_n _))
    as (o3 & E3 & Hlast).
  unfold sub at 2. rewrite E3.
  apply (sub_spaces_ends_with_newline _ (length o3)); [apply le_n|exact Hlast].
Qed.

Lemma keeps_newline (ioformat : str) : keeps ioformat NL = true.
Proof.
  unfold keeps.
  destruct (bool_decide _); [reflexivity|]. destruct (_ || _); reflexivity.
Qed.

(** X26. Whatever the text, what [strip_punctuation] returns ends
    with a line feed (so it is never empty), and has nothing but letters,
    digits and spaces, and underscores for the formats lemma and upos.
    The sentence rule puts a line feed at the very end, the rules after
    it keep it there, and the filter keeps line feeds.  So the texts
    [join_archive] writes one after the other never share a line. *)
Theorem strip_punctuation_ends_with_newline (txt ioformat : str) :
  (exists o, strip_punctuation txt ioformat = o ++ [NL])
  /\ (forall c, c ∈ strip_punctuation txt ioformat ->
        isalnum c = true \/ isspace c = true
        \/ (c = ch "_" /\ (ioformat = u "lemma" \/ ioformat = u "upos"))).
Proof.
  unfold strip_punctuation. split.
  - destruct (apply_regeces_ends_with_newline txt) as [o ->].
    exists (List.filter (keeps ioformat) o).
    rewrite List.filter_app. cbn [List.filter]. now rewrite keeps_newline.
  - intros c Hc. apply list_elem_of_In, filter_In in Hc as [_ Hk].
    unfold keeps in Hk.
    destruct (bool_decide (ioformat = u "txt")).
    { apply orb_true_iff in Hk as [Hk|Hk]; [now left|right; now left]. }
    destruct (bool_decide (ioformat = u "lemma") || bool_decide (ioformat = u "upos"))
      eqn:Ef.
    + apply orb_true_iff in Hk as [Hk|Hk].
      * apply orb_true_iff in Hk as [Hk|Hk]; [now left|right; now left].
      * right. right. split; [now apply N.eqb_eq|].
        apply orb_true_iff in Ef as [Ef|Ef]; apply bool_decide_eq_true in Ef;
          [now left|now right].
    + apply orb_true_iff in Hk as [Hk|Hk]; [now left|right; now left].
Qed.

End PunctuationMore.

(** ** clean_subs.py: the command line *)

Section CommandLine.
Context `{Unicode} `{Lxml}.

(** X27. What a run of the command line of clean_subs.py can change,
    whatever the arguments and the archives, also when it fails.  The
    source archive is never changed; the stripped archive only gets
    entries added at its end, and none without [--stripxml]; of the text
    files only the joined corpus can change, and none without [--join]. *)
Theorem clean_subs_main_changes (lang : str) (stripxml : bool) (years : Z * Z)
    (join_flag : bool) (ioformat : str) (w : World) :
  let w' := snd (clean_subs_main lang stripxml years join_flag ioformat w) in
  zips w' !! source_zip lang = zips w !! source_zip lang
  /\ (exists more, default [] (zips w' !! stripped_zip lang)
                   = default [] (zips w !! stripped_zip lang) ++ more)
  /\ (stripxml = false -> zips w' = zips w)
  /\ (forall f, f <> joined_file lang ioformat -> files w' !! f = files w !! f)
  /\ (join_flag = false -> files w' = files w).
Proof.
  assert (H1 : respects (appends_to (stripped_zip lang))
                 (if stripxml then strip_archive lang ioformat years else ret tt)).
  { destruct stripxml; [apply strip_archive_appends|rapply @respects_ret]. }
  assert (H2 : respects (writes_only (joined_file lang ioformat))
                 (if join_flag then join_archive lang ioformat years false ;; ret tt
                  else ret tt)).
  { destruct join_flag; [|rapply @respects_ret].
    rapply @respects_bind; [apply join_archive_writes_only|].
    intros _. rapply @respects_ret. }
  cbv zeta.
  remember (snd (clean_subs_main lang stripxml years join_flag ioformat w)) as w' eqn:Ew.
  unfold clean_subs_main in Ew. unfold bind at 1 in Ew.
  specialize (H1 w).
  assert (Hs : stripxml = false ->
               (if stripxml then strip_archive lang ioformat years else ret tt) w
               = (Ok tt, w)) by (now intros ->).
  destruct ((if stripxml then strip_archive lang ioformat years else ret tt) w)
    as [[[]|e] w1]; cbn [snd] in H1; destruct H1 as (Hf & Hz & more & Hmore).
  - specialize (H2 w1).
    assert (Hj : join_flag = false ->
                 snd ((if join_flag then join_archive lang ioformat years false ;; ret tt
                       else ret tt) w1) = w1) by (now intros ->).
    rewrite <- Ew in H2, Hj. destruct H2 as [Hz2 Hf2].
    split; [rewrite Hz2; apply Hz, source_zip_not_stripped|].
    split; [exists more; now rewrite Hz2|].
    split; [intros E; specialize (Hs E); injection Hs as <-; exact Hz2|].
    split; [intros f Hne; rewrite Hf2 by exact Hne; now rewrite Hf|].
    intros E. rewrite (Hj E). exact Hf.
  - cbn [snd] in Ew. subst w'.
    split; [apply Hz, source_zip_not_stripped|].
    split; [now exists more|].
    split; [intros E; specialize (Hs E); discriminate Hs|].
    split; [intros f _; now rewrite Hf|].
    intros _. exact Hf.
Qed.

End CommandLine.

(** ** The further properties at sample data *)

Lemma strip_archive_missing_archive_witness :
  zips empty_world !! source_zip (u "en") = None
  /\ @strip_archive ascii_only one_document (u "en") (u "txt") (1900, 2050)%Z empty_world
     = (Raise (FileNotFoundError (source_zip (u "en"))),
        set_clock (tl (clock empty_world)) empty_world).
Proof.
  assert (Hz : zips empty_world !! source_zip (u "en") = None) by reflexivity.
  split; [exact Hz|].
  exact (@strip_archive_missing_archive ascii_only one_document _ _ _ _ Hz).
Defined.

Lemma join_archive_missing_archive_witness :
  zips empty_world !! stripped_zip (u "en") = None
  /\ @join_archive ascii_only (u "en") (u "txt") (1900, 2050)%Z false empty_world
     = (Raise (FileNotFoundError (stripped_zip (u "en"))),
        set_clock (tl (clock empty_world)) empty_world).
Proof.
  assert (Hz : zips empty_world !! stripped_zip (u "en") = None) by reflexivity.
  split; [exact Hz|].
  exact (@join_archive_missing_archive ascii_only _ _ _ _ _ Hz).
Defined.

Lemma strip_archive_unsupported_format_witness :
  u "viz" <> u "txt" /\ u "viz" <> u "upos" /\ u "viz" <> u "lemma"
  /\ is_Some (zips sample_archives !! source_zip (u "en"))
  /\ fst (@strip_archive ascii_only one_document (u "en") (u "viz") (1900, 2050)%Z
            sample_archives) = Raise UnboundLocalError
  /\ opened (snd (@strip_archive ascii_only one_document (u "en") (u "viz")
                    (1900, 2050)%Z sample_archives)) = opened sample_archives.
Proof.
  assert (H1 : u "viz" <> u "txt") by (vm_compute; discriminate).
  assert (H2 : u "viz" <> u "upos") by (vm_compute; discriminate).
  assert (H3 : u "viz" <> u "lemma") by (vm_compute; discriminate).
  destruct (zips sample_archives !! source_zip (u "en")) as [entries|] eqn:Hz;
    [|vm_compute in Hz; discriminate Hz].
  split; [exact H1|]. split; [exact H2|]. split; [exact H3|]. split; [eauto|].
  destruct (@strip_archive_unsupported_format ascii_only one_document (u "en") (u "viz")
              (1900, 2050)%Z sample_archives entries H1 H2 H3 Hz) as (E & Ho & _).
  split; [|exact Ho]. rewrite E.
  vm_compute in Hz. injection Hz as <-. vm_compute. reflexivity.
Defined.

Lemma join_archive_unsupported_format_witness :
  u "viz" <> u "txt" /\ u "viz" <> u "upos" /\ u "viz" <> u "lemma"
  /\ is_Some (zips sample_archives !! stripped_zip (u "en"))
  /\ zips (snd (@join_archive ascii_only (u "en") (u "viz") (1900, 2050)%Z false
                  sample_archives)) = zips sample_archives.
Proof.
  assert (H1 : u "viz" <> u "txt") by (vm_compute; discriminate).
  assert (H2 : u "viz" <> u "upos") by (vm_compute; discriminate).
  assert (H3 : u "viz" <> u "lemma") by (vm_compute; discriminate).
  destruct (zips sample_archives !! stripped_zip (u "en")) as [entries|] eqn:Hz;
    [|vm_compute in Hz; discriminate Hz].
  split; [exact H1|]. split; [exact H2|]. split; [exact H3|]. split; [eauto|].
  exact (proj1 (@join_archive_unsupported_format ascii_only (u "en") (u "viz")
                  (1900, 2050)%Z false sample_archives entries H1 H2 H3 Hz)).
Defined.

Lemma strip_archive_malformed_path_witness :
  dirpath_of (u "txt") = Some (u "OpenSubtitles/raw")
  /\ is_Some (zips malformed_archives !! source_zip (u "en"))
  /\ @malformed ascii_only (u "xml") (u "OpenSubtitles/raw") (u "en")
       (u "OpenSubtitles/raw/en/readme.xml") = true
  /\ (fst (@strip_archive ascii_only one_document (u "en") (u "txt") (1900, 2050)%Z
             malformed_archives) = Raise IndexError
      \/ fst (@strip_archive ascii_only one_document (u "en") (u "txt") (1900, 2050)%Z
                malformed_archives) = Raise ValueError).
Proof.
  assert (Hd : dirpath_of (u "txt") = Some (u "OpenSubtitles/raw")) by reflexivity.
  assert (Hm : @malformed ascii_only (u "xml") (u "OpenSubtitles/raw") (u "en")
                 (u "OpenSubtitles/raw/en/readme.xml") = true)
    by (vm_compute; reflexivity).
  assert (Hz : zips malformed_archives !! source_zip (u "en")
               = Some [(u "OpenSubtitles/raw/en/2000/1/b.xml", ascii_bytes "<s>new</s>");
                       (u "OpenSubtitles/raw/en/readme.xml", [])])
    by (vm_compute; reflexivity).
  split; [exact Hd|]. split; [eauto|]. split; [exact Hm|].
  refine (proj1 (@strip_archive_malformed_path ascii_only one_document (u "en") (u "txt") _
                   (1900, 2050)%Z malformed_archives _
                   (u "OpenSubtitles/raw/en/readme.xml") Hd Hz _ Hm)).
  cbn [map fst]. right. left.
Defined.

Lemma join_archive_malformed_path_witness :
  dirpath_of (u "txt") = Some (u "OpenSubtitles/raw")
  /\ is_Some (zips malformed_archives !! stripped_zip (u "en"))
  /\ @malformed ascii_only (u "txt") (u "OpenSubtitles/raw") (u "en")
       (u "OpenSubtitles/raw/en/readme.txt") = true
  /\ (fst (@join_archive ascii_only (u "en") (u "txt") (1900, 2050)%Z false
             malformed_archives) = Raise IndexError
      \/ fst (@join_archive ascii_only (u "en") (u "txt") (1900, 2050)%Z false
                malformed_archives) = Raise ValueError)
  /\ files (snd (@join_archive ascii_only (u "en") (u "txt") (1900, 2050)%Z false
                   malformed_archives)) = files malformed_archives.
Proof.
  assert (Hd : dirpath_of (u "txt") = Some (u "OpenSubtitles/raw")) by reflexivity.
  assert (Hm : @malformed ascii_only (u "txt") (u "OpenSubtitles/raw") (u "en")
                 (u "OpenSubtitles/raw/en/readme.txt") = true)
    by (vm_compute; reflexivity).
  assert (Hz : zips malformed_archives !! stripped_zip (u "en")
               = Some [(u "OpenSubtitles/raw/en/2000/1/b.txt", ascii_bytes "New. ");
                       (u "OpenSubtitles/raw/en/readme.txt", [])])
    by (vm_compute; reflexivity).
  split; [exact Hd|]. split; [eauto|]. split; [exact Hm|].
  assert (Hp : u "OpenSubtitles/raw/en/readme.txt"
               ∈ map fst [(u "OpenSubtitles/raw/en/2000/1/b.txt", ascii_bytes "New. ");
                          (u "OpenSubtitles/raw/en/readme.txt", [])])
    by (cbn [map fst]; right; left).
  destruct (@join_archive_malformed_path ascii_only (u "en") (u "txt") _
              (1900, 2050)%Z false malformed_archives _ _ Hd Hz Hp Hm) as (E & Hf & _).
  split; [exact E|exact Hf].
Defined.

Lemma join_archive_joins_witness :
  dirpath_of (u "txt") = Some (u "OpenSubtitles/raw")
  /\ is_Some (zips sample_archives !! stripped_zip (u "en"))
  /\ exists w',
       @join_archive ascii_only (u "en") (u "txt") (1900, 2050)%Z false sample_archives
       = (Ok 1%Z, w')
       /\ files w' !! joined_file (u "en") (u "txt") = Some (u ("New" ++ nl)).
Proof.
  assert (Hd : dirpath_of (u "txt") = Some (u "OpenSubtitles/raw")) by reflexivity.
  assert (Hz : zips sample_archives !! stripped_zip (u "en")
               = Some [(u "OpenSubtitles/raw/en/1890/1/a.txt", ascii_bytes "Old. ");
                       (u "OpenSubtitles/raw/en/2000/1/b.txt", ascii_bytes "New. ")])
    by (vm_compute; reflexivity).
  split; [exact Hd|]. split; [eauto|].
  destruct (@join_archive_joins ascii_only (u "en") (u "txt") _ (1900, 2050)%Z false
              sample_archives _ Hd Hz) as (w' & E & Hf & _).
  - intros p Hp. cbn [map fst] in Hp.
    apply elem_of_cons in Hp as [->|Hp]; [vm_compute; reflexivity|].
    apply list_elem_of_singleton in Hp as ->. vm_compute. reflexivity.
  - intros p Hp. vm_compute in Hp.
    apply list_elem_of_singleton in Hp as ->. vm_compute. eauto.
  - exists w'. split; [rewrite E; vm_compute; reflexivity|].
    rewrite Hf, lookup_insert_eq. vm_compute. reflexivity.
Defined.

Lemma join_archive_undecodable_witness :
  dirpath_of (u "txt") = Some (u "OpenSubtitles/raw")
  /\ is_Some (zips undecodable_archive !! stripped_zip (u "en"))
  /\ @entry_text [(u "OpenSubtitles/raw/en/2000/1/b.txt", ascii_bytes "New. ");
                  (u "OpenSubtitles/raw/en/2001/1/c.txt", [Byte.xff])]
       (u "OpenSubtitles/raw/en/2001/1/c.txt") = None
  /\ fst (@join_archive ascii_only (u "en") (u "txt") (1900, 2050)%Z false
            undecodable_archive) = Raise UnicodeDecodeError
  /\ files (snd (@join_archive ascii_only (u "en") (u "txt") (1900, 2050)%Z false
                   undecodable_archive)) !! joined_file (u "en") (u "txt")
     = Some (u ("New" ++ nl)).
Proof.
  assert (Hd : dirpath_of (u "txt") = Some (u "OpenSubtitles/raw")) by reflexivity.
  assert (Hz : zips undecodable_archive !! stripped_zip (u "en")
               = Some [(u "OpenSubtitles/raw/en/2000/1/b.txt", ascii_bytes "New. ");
                       (u "OpenSubtitles/raw/en/2001/1/c.txt", [Byte.xff])])
    by (vm_compute; reflexivity).
  assert (Hbad : @entry_text [(u "OpenSubtitles/raw/en/2000/1/b.txt", ascii_bytes "New. ");
                              (u "OpenSubtitles/raw/en/2001/1/c.txt", [Byte.xff])]
                   (u "OpenSubtitles/raw/en/2001/1/c.txt") = None)
    by (vm_compute; reflexivity).
  split; [exact Hd|]. split; [eauto|]. split; [exact Hbad|].
  destruct (@join_archive_undecodable ascii_only (u "en") (u "txt") _ (1900, 2050)%Z false
              undecodable_archive _ [u "OpenSubtitles/raw/en/2000/1/b.txt"] []
              (u "OpenSubtitles/raw/en/2001/1/c.txt") Hd Hz) as (E & Hf).
  - intros p Hp. cbn [map fst] in Hp.
    apply elem_of_cons in Hp as [->|Hp]; [vm_compute; reflexivity|].
    apply list_elem_of_singleton in Hp as ->. vm_compute. reflexivity.
  - vm_compute. reflexivity.
  - intros p Hp. apply list_elem_of_singleton in Hp as ->. vm_compute. eauto.
  - exact Hbad.
  - split; [exact E|]. rewrite Hf, lookup_insert_eq. vm_compute. reflexivity.
Defined.

Lemma strip_archive_strips_witness :
  dirpath_of (u "txt") = Some (u "OpenSubtitles/raw")
  /\ is_Some (zips sample_archives !! source_zip (u "en"))
  /\ exists w' (new : list (str * bytes)),
       @strip_archive ascii_only one_document (u "en") (u "txt") (1900, 2050)%Z
         sample_archives = (Ok tt, w')
       /\ map fst new = [u "OpenSubtitles/raw/en/2000/1/b.txt"]
       /\ files w' = files sample_archives.
Proof.
  assert (Hd : dirpath_of (u "txt") = Some (u "OpenSubtitles/raw")) by reflexivity.
  assert (Hz : zips sample_archives !! source_zip (u "en")
               = Some [(u "OpenSubtitles/raw/en/1890/1/a.xml", ascii_bytes "<s>old</s>");
                       (u "OpenSubtitles/raw/en/2000/1/b.xml", ascii_bytes "<s>new</s>")])
    by (vm_compute; reflexivity).
  split; [exact Hd|]. split; [eauto|].
  destruct (@strip_archive_strips ascii_only one_document (u "en") (u "txt") _
              (1900, 2050)%Z sample_archives _ Hd Hz)
    as (w' & new & E & HF & _ & Hf & _).
  - intros p Hp. cbn [map fst] in Hp.
    apply elem_of_cons in Hp as [->|Hp]; [vm_compute; reflexivity|].
    apply list_elem_of_singleton in Hp as ->. vm_compute. reflexivity.
  - intros p Hp. vm_compute in Hp.
    apply list_elem_of_singleton in Hp as ->. vm_compute. eauto.
  - exists w', new. split; [exact E|]. split; [|exact Hf].
    vm_compute in HF.
    apply Forall2_cons_inv_l in HF as (e & new' & He & HF & ->).
    apply Forall2_nil_inv_l in HF as ->.
    injection He as <-. vm_compute. reflexivity.
Defined.

Lemma stored_text_reads_back_witness :
  writestr (u "z.zip") (u "a.txt") (u "hi") empty_world
  = (Ok tt, snd (writestr (u "z.zip") (u "a.txt") (u "hi") empty_world))
  /\ exists data,
       fst (zip_read (u "z.zip") (u "a.txt")
              (snd (writestr (u "z.zip") (u "a.txt") (u "hi") empty_world))) = Ok data
       /\ decode_utf8 data = Some (u "hi").
Proof.
  assert (Hw : writestr (u "z.zip") (u "a.txt") (u "hi") empty_world
               = (Ok tt, snd (writestr (u "z.zip") (u "a.txt") (u "hi") empty_world)))
    by (vm_compute; reflexivity).
  split; [exact Hw|].
  destruct (stored_text_reads_back _ _ _ _ _ Hw) as (data & E & Hdec).
  exists data. split; [now rewrite E|exact Hdec].
Defined.

Lemma strip_viz_lines_witness :
  (forall node first,
     node ∈ iter (timed_sentence (u "00:01:02,345") (u "Hello there")) ->
     timed node = Some first -> is_Some (get first (u "value")))
  /\ exists lines,
       strip_viz (timed_sentence (u "00:01:02,345") (u "Hello there"))
       = Ok (join [NL] lines)
       /\ length lines = 1.
Proof.
  assert (Hv : forall node first,
            node ∈ iter (timed_sentence (u "00:01:02,345") (u "Hello there")) ->
            timed node = Some first -> is_Some (get first (u "value"))).
  { intros node first Hn Ht. vm_compute in Hn.
    apply elem_of_cons in Hn as [->|Hn].
    - vm_compute in Ht. injection Ht as <-. vm_compute. eauto.
    - apply list_elem_of_singleton in Hn as ->. vm_compute in Ht. discriminate Ht. }
  split; [exact Hv|].
  destruct (strip_viz_lines _ Hv) as (lines & E & HF).
  exists lines. split; [exact E|].
  apply Forall2_length in HF. rewrite <- HF. vm_compute. reflexivity.
Defined.

Lemma strip_upos_missing_attribute_witness :
  bare_word ∈ iter bare_sentence
  /\ tag_is bare_word (u "w") = true
  /\ exists pre post, strip_upos bare_sentence = pre ++ u "None_None " ++ post.
Proof.
  assert (Hn : bare_word ∈ iter bare_sentence) by (right; left).
  assert (Hw : tag_is bare_word (u "w") = true) by (vm_compute; reflexivity).
  split; [exact Hn|]. split; [exact Hw|].
  destruct (strip_upos_missing_attribute bare_sentence bare_word Hn Hw)
    as ((pre & post & E) & _).
  exists pre, post. rewrite E. reflexivity.
Defined.

Lemma strip_archive_twice_witness :
  dirpath_of (u "txt") = Some (u "OpenSubtitles/raw")
  /\ is_Some (zips sample_archives !! source_zip (u "en"))
  /\ exists w1 w2 (new : list (str * bytes)),
       @strip_archive ascii_only one_document (u "en") (u "txt") (1900, 2050)%Z
         sample_archives = (Ok tt, w1)
       /\ @strip_archive ascii_only one_document (u "en") (u "txt") (1900, 2050)%Z w1
          = (Ok tt, w2)
       /\ length new = 1
       /\ zips w2 !! stripped_zip (u "en")
          = Some (default [] (zips sample_archives !! stripped_zip (u "en")) ++ new ++ new).
Proof.
  assert (Hd : dirpath_of (u "txt") = Some (u "OpenSubtitles/raw")) by reflexivity.
  assert (Hz : zips sample_archives !! source_zip (u "en")
               = Some [(u "OpenSubtitles/raw/en/1890/1/a.xml", ascii_bytes "<s>old</s>");
                       (u "OpenSubtitles/raw/en/2000/1/b.xml", ascii_bytes "<s>new</s>")])
    by (vm_compute; reflexivity).
  split; [exact Hd|]. split; [eauto|].
  destruct (@strip_archive_twice ascii_only one_document (u "en") (u "txt") _
              (1900, 2050)%Z sample_archives _ Hd Hz)
    as (w1 & w2 & new & E1 & E2 & Hlen & _ & Hz2).
  - intros p Hp. cbn [map fst] in Hp.
    apply elem_of_cons in Hp as [->|Hp]; [vm_compute; reflexivity|].
    apply list_elem_of_singleton in Hp as ->. vm_compute. reflexivity.
  - intros p Hp. vm_compute in Hp.
    apply list_elem_of_singleton in Hp as ->. vm_compute. eauto.
  - exists w1, w2, new. split; [exact E1|]. split; [exact E2|].
    split; [rewrite Hlen; vm_compute; reflexivity|exact Hz2].
Defined.

Lemma join_archive_twice_witness :
  dirpath_of (u "txt") = Some (u "OpenSubtitles/raw")
  /\ is_Some (zips sample_archives !! stripped_zip (u "en"))
  /\ exists n w1 w2,
       @join_archive ascii_only (u "en") (u "txt") (1900, 2050)%Z false sample_archives
       = (Ok n, w1)
       /\ @join_archive ascii_only (u "en") (u "txt") (1900, 2050)%Z false w1 = (Ok n, w2)
       /\ files w2 = files w1.
Proof.
  assert (Hd : dirpath_of (u "txt") = Some (u "OpenSubtitles/raw")) by reflexivity.
  assert (Hz : zips sample_archives !! stripped_zip (u "en")
               = Some [(u "OpenSubtitles/raw/en/1890/1/a.txt", ascii_bytes "Old. ");
                       (u "OpenSubtitles/raw/en/2000/1/b.txt", ascii_bytes "New. ")])
    by (vm_compute; reflexivity).
  split; [exact Hd|]. split; [eauto|].
  destruct (@join_archive_twice ascii_only (u "en") (u "txt") _ (1900, 2050)%Z false
              sample_archives _ Hd Hz) as (n & w1 & w2 & E1 & E2 & Hf & _).
  - intros p Hp. cbn [map fst] in Hp.
    apply elem_of_cons in Hp as [->|Hp]; [vm_compute; reflexivity|].
    apply list_elem_of_singleton in Hp as ->. vm_compute. reflexivity.
  - intros p Hp. vm_compute in Hp.
    apply list_elem_of_singleton in Hp as ->. vm_compute. eauto.
  - exists n, w1, w2. split; [exact E1|]. split; [exact E2|exact Hf].
Defined.

